(** * Maryland transforms of openelex: raw results to contests, candidates
      and results

    A shallow embedding of [openelex/us/md/transform/__init__.py].

    Text is modelled by [string] (byte strings, so [lower] acts on the
    ASCII letters) and the text fields of a raw result are strings, the
    empty string being the one that tests false.  The keyword dictionaries
    handed to the model constructors and to [objects.get] are records whose
    optional fields are [None] when the key has been deleted from the
    dictionary.  A collection of documents is the list of its rows in
    insertion order and a reference to a row is its position; a bulk
    insert appends its documents, and what the driver does when the list
    of documents is empty is left to the driver.  A function
    that reads or writes the caches or the collections is a function of the
    state that returns a value and a state, or raises.  Console output and
    logging are not modelled. *)

From Stdlib Require Import ZArith Ascii String.
From stdpp Require Import base option list strings gmap.

Local Open Scope string_scope.
Local Open Scope list_scope.
Set Warnings "-register-all".

(** ** Python values and exceptions *)

(** The few places where the source is dynamically typed: the raw winner
    marker (a string or a number) and the value returned by [_get_ocd_id]. *)
Inductive pyval :=
  | PyNone
  | PyStr (s : string)
  | PyInt (z : Z)
  | PyTuple (items : list pyval).

Inductive exn :=
  | Office_DoesNotExist
  | Party_DoesNotExist
  | Contest_DoesNotExist
  | Candidate_DoesNotExist
  | MultipleObjectsReturned
  | AssertionError
  | ValueError
  | InvalidOperation (* the driver's, for an insert it refuses *).

Inductive result (A : Type) :=
  | Ok (a : A)
  | Raise (e : exn).
Arguments Ok {A} a.
Arguments Raise {A} e.

(** ** Strings *)

Module Str.

Definition lower_ascii (c : ascii) : ascii :=
  let n := N_of_ascii c in
  if ((65 <=? n) && (n <=? 90))%N then ascii_of_N (n + 32) else c.

(** [s.lower()] *)
Fixpoint lower (s : string) : string :=
  match s with
  | EmptyString => EmptyString
  | String c s' => String (lower_ascii c) (lower s')
  end.

(** [s.lstrip(c)] for a one-character argument *)
Fixpoint lstrip (c : ascii) (s : string) : string :=
  match s with
  | EmptyString => EmptyString
  | String a s' => if Ascii.eqb a c then lstrip c s' else s
  end.

(** [sub in s] *)
Fixpoint contains (sub s : string) : bool :=
  String.prefix sub s ||
  match s with
  | EmptyString => false
  | String _ s' => contains sub s'
  end.

(** [s.replace(old, new)]: the occurrences of [old] are found from left
    to right and do not overlap.  [skip] counts the characters of a
    matched occurrence that are still to be dropped. *)
Fixpoint replace_from (skip : nat) (old new s : string) : string :=
  match s with
  | EmptyString =>
      match skip, old with
      | O, EmptyString => new
      | _, _ => EmptyString
      end
  | String c s' =>
      match skip with
      | S k => replace_from k old new s'
      | O =>
          if String.prefix old s then
            match String.length old with
            | O => new +:+ String c (replace_from 0 old new s')
            | S k => new +:+ replace_from k old new s'
            end
          else String c (replace_from 0 old new s')
      end
  end.

Definition replace (old new s : string) : string := replace_from 0 old new s.

(** [sep.join(bits)] *)
Fixpoint join (sep : string) (bits : list string) : string :=
  match bits with
  | [] => ""
  | [b] => b
  | b :: bs => b +:+ sep +:+ join sep bs
  end.

(** Truth value of a string *)
Definition truthy (s : string) : bool :=
  match s with EmptyString => false | _ => true end.

End Str.

(** ** Dates *)

Record datetime := Datetime {
  year : Z; month : Z; day : Z;
  hour : Z; minute : Z; second : Z; microsecond : Z
}.

Definition datetime_fields (d : datetime) : list Z :=
  [year d; month d; day d; hour d; minute d; second d; microsecond d].

Fixpoint lex_ge (a b : list Z) : bool :=
  match a, b with
  | x :: a', y :: b' => (y <? x)%Z || ((x =? y)%Z && lex_ge a' b')
  | _, [] => true
  | [], _ :: _ => false
  end.

(** [a >= b] on datetimes *)
Definition datetime_ge (a b : datetime) : bool :=
  lex_ge (datetime_fields a) (datetime_fields b).

(** ** Raw results *)

Module RawResult.
Record t := Build {
  source : string;
  election_id : string;
  state : string;
  start_date : datetime;
  end_date : datetime;
  election_type : string;
  primary_type : string;
  result_type : string;
  special : bool;
  office : string;
  district : string;
  full_name : string;
  given_name : string;
  family_name : string;
  additional_name : string;
  candidate_slug : string;
  contest_slug : string;
  party : string;
  primary_party : string;
  reporting_level : string;
  jurisdiction : string;
  county_ocd_id : string;
  votes : Z;
  total_votes : Z;
  vote_breakdowns : list (string * Z);
  winner : pyval;
  write_in : string
}.
End RawResult.

(** ** Field normalizer *)

Definition PARTY_MAP : list (string * string) :=
  [ ("BOT", "UNF");
    ("Democratic", "DEM");
    ("Republican", "REP");
    ("Libertarian", "LIB");
    ("Green", "GRN");
    ("Unaffiliated", "UNF") ].

Definition district_offices : list string :=
  [ "U.S. House of Representatives";
    "State Senate";
    "House of Delegates" ].

Definition _clean_office (office : string) : string :=
  let lc_office := Str.lower office in
  if Str.contains "president" lc_office then "President"
  else if Str.contains "u.s. senat" lc_office then "U.S. Senate"
  else if Str.contains "congress" lc_office then "U.S. House of Representatives"
  else if Str.contains "state senat" lc_office then "State Senate"
  else if Str.contains "governor" lc_office then "Governor"
  else office.

Fixpoint assoc (k : string) (m : list (string * string)) : option string :=
  match m with
  | [] => None
  | (k', v) :: m' => if bool_decide (k = k') then Some v else assoc k m'
  end.

(** [None] is Python's [None]. *)
Definition _clean_party (party : string) : option string :=
  if bool_decide (party = "Both Parties") then None
  else match assoc party PARTY_MAP with
       | Some abbrev => Some abbrev
       | None => Some party
       end.

Definition _strip_leading_zeros (val : string) : string :=
  Str.lstrip "0"%char val.

Definition _get_ocd_id (raw_result : RawResult.t) : pyval :=
  let clean_jurisdiction := _strip_leading_zeros (RawResult.jurisdiction raw_result) in
  if bool_decide (RawResult.reporting_level raw_result = "county") then
    (* the return statement ends in a comma: a one-element tuple *)
    PyTuple [PyStr ("ocd-division/country:us/state:md/county:" +:+ clean_jurisdiction)]
  else if bool_decide (RawResult.reporting_level raw_result = "state_legislative") then
    PyStr ("ocd-division/country:us/state:md/sldl:" +:+ clean_jurisdiction)
  else if bool_decide (RawResult.reporting_level raw_result = "precinct") then
    PyStr (RawResult.county_ocd_id raw_result +:+ "/precinct:" +:+ clean_jurisdiction)
  else PyNone.

(** ** Key deriver *)

Definition contest_key (raw_result : RawResult.t) : string * string :=
  let slug := RawResult.contest_slug raw_result in
  let slug :=
    if negb (bool_decide (_clean_office (RawResult.office raw_result) ∈ district_offices))
       && Str.truthy (RawResult.district raw_result)
    then Str.replace ("-" +:+ Str.lower (RawResult.district raw_result)) "" slug
    else slug in
  (RawResult.election_id raw_result, slug).


(** ** Collaborators *)

(** The keyword arguments of [Office.make_key] and [Office.objects.get];
    [oq_district] is [None] when the query has no district entry. *)
Record office_query := OfficeQuery {
  oq_state : string;
  oq_name : string;
  oq_district : option string
}.

(** What [nameparser.HumanName] exposes of a parsed name. *)
Record human_name := {
  hn_first : string;
  hn_middle : string;
  hn_last : string;
  hn_suffix : string
}.

(** [q] is a keyword of a query, [d] the stored value: an absent keyword
    matches anything. *)
Definition opt_matches {A} `{EqDecision A} (q d : option A) : bool :=
  match q with
  | None => true
  | Some v => bool_decide (d = Some v)
  end.

(** The rows of a collection that satisfy a query, with their positions. *)
Fixpoint find_all {A} (p : A → bool) (i : nat) (rows : list A) : list (nat * A) :=
  match rows with
  | [] => []
  | d :: rows' => (if p d then [(i, d)] else []) ++ find_all p (S i) rows'
  end.

(** [objects.get] of the document store on a query: the one matching row,
    an error when there is none or more than one. *)
Definition objects_get {A} (missing : exn) (p : A → bool) (rows : list A)
  : result (nat * A) :=
  match find_all p 0 rows with
  | [] => Raise missing
  | [row] => Ok row
  | _ => Raise MultipleObjectsReturned
  end.

(** The filter of [get_raw_results_after_2000] on one raw result. *)
Definition after_2000 (rr : RawResult.t) : bool :=
  bool_decide (RawResult.state rr = "MD")
  && datetime_ge (RawResult.end_date rr) (Datetime 2002 1 1 0 0 0 0).

(** [Office] and [Party] are the reference documents of [openelex.models]
    and [K] is the type of the keys that [Office.make_key] builds; with
    the name parser and the clock they are what this module takes from
    outside. *)
Class Collaborators (Office Party K : Type) := {
  Office_make_key : office_query → K;
  (** [office.key] *)
  Office_key : Office → K;
  (** [Office.objects.get] on a query *)
  Office_objects_get : office_query → result Office;
  (** [party.abbrev] *)
  Party_abbrev : Party → string;
  (** [Party.objects.get(abbrev=...)] *)
  Party_objects_get : string → result Party;
  (** [nameparser.HumanName] *)
  HumanName : string → human_name;
  (** the successive readings of the clock *)
  now : nat → datetime;
  (** [objects.insert([])]: what the driver does when it is handed no
      document, it returns or it raises *)
  objects_insert_nothing : result unit
}.

Section Transform.

Context {Office Party K : Type}.
Context `{!EqDecision Office, !EqDecision Party, !EqDecision K, !Countable K}.
Context `{!Collaborators Office Party K}.

(** *** Documents *)

Record Contest := {
  contest_source : option string;
  contest_election_id : string;
  contest_state : string;
  contest_start_date : datetime;
  contest_end_date : datetime;
  contest_election_type : string;
  contest_primary_type : option string;
  contest_result_type : string;
  contest_special : bool;
  contest_office : Office;
  contest_primary_party : option Party;
  contest_created : option datetime;
  contest_updated : option datetime
}.

Record Candidate := {
  candidate_source : string;
  candidate_election_id : string;
  candidate_state : string;
  candidate_full_name : string;
  candidate_given_name : option string;
  candidate_family_name : option string;
  candidate_additional_name : option string;
  candidate_suffix : option string;
  candidate_contest : option nat;
  candidate_flags : option (list string)
}.

Record Result := {
  result_source : string;
  result_election_id : string;
  result_state : string;
  result_reporting_level : string;
  result_jurisdiction : string;
  result_votes : Z;
  result_total_votes : Z;
  result_vote_breakdowns : list (string * Z);
  result_candidate : nat;
  result_contest : option nat;
  result_raw_result : nat;
  result_party : option string;
  result_winner : bool;
  result_write_in : bool;
  result_ocd_id : pyval
}.

#[global] Instance datetime_eq_dec : EqDecision datetime.
Proof. solve_decision. Defined.

Definition Contest_matches (q d : Contest) : bool :=
  opt_matches (contest_source q) (contest_source d)
  && bool_decide (contest_election_id d = contest_election_id q)
  && bool_decide (contest_state d = contest_state q)
  && bool_decide (contest_start_date d = contest_start_date q)
  && bool_decide (contest_end_date d = contest_end_date q)
  && bool_decide (contest_election_type d = contest_election_type q)
  && opt_matches (contest_primary_type q) (contest_primary_type d)
  && bool_decide (contest_result_type d = contest_result_type q)
  && bool_decide (contest_special d = contest_special q)
  && bool_decide (contest_office d = contest_office q)
  && bool_decide (contest_primary_party d = contest_primary_party q)
  && opt_matches (contest_created q) (contest_created d)
  && opt_matches (contest_updated q) (contest_updated d).

Definition Candidate_matches (q d : Candidate) : bool :=
  bool_decide (candidate_source d = candidate_source q)
  && bool_decide (candidate_election_id d = candidate_election_id q)
  && bool_decide (candidate_state d = candidate_state q)
  && bool_decide (candidate_full_name d = candidate_full_name q)
  && opt_matches (candidate_given_name q) (candidate_given_name d)
  && opt_matches (candidate_family_name q) (candidate_family_name d)
  && opt_matches (candidate_additional_name q) (candidate_additional_name d)
  && opt_matches (candidate_suffix q) (candidate_suffix d)
  && opt_matches (candidate_contest q) (candidate_contest d)
  && opt_matches (candidate_flags q) (candidate_flags d).

(** *** The process state: the two module-level caches, the collections
    and the clock *)

Record state := State {
  office_cache : gmap K Office;
  party_cache : gmap string Party;
  RawResult_objects : list RawResult.t;
  Contest_objects : list Contest;
  Candidate_objects : list Candidate;
  Result_objects : list Result;
  clock : nat
}.

Definition M (A : Type) : Type := state → result (A * state).

#[global] Instance M_ret : MRet M := λ A a s, Ok (a, s).
#[global] Instance M_bind : MBind M := λ A B f m s,
  match m s with
  | Ok (a, s') => f a s'
  | Raise e => Raise e
  end.

Definition raise {A} (e : exn) : M A := λ _, Raise e.
Definition gets {A} (f : state → A) : M A := λ s, Ok (f s, s).
Definition modify (f : state → state) : M unit := λ s, Ok (tt, f s).
Definition lift {A} (r : result A) : M A :=
  λ s, match r with Ok a => Ok (a, s) | Raise e => Raise e end.

(** [for x in xs: acc = body(acc, x)] *)
Fixpoint for_each {A B} (xs : list A) (body : B → A → M B) (acc : B) : M B :=
  match xs with
  | [] => mret acc
  | x :: xs' => acc' ← body acc x; for_each xs' body acc'
  end.

Definition set_office_cache (c : gmap K Office) (s : state) : state :=
  State c (party_cache s) (RawResult_objects s) (Contest_objects s)
    (Candidate_objects s) (Result_objects s) (clock s).
Definition set_party_cache (c : gmap string Party) (s : state) : state :=
  State (office_cache s) c (RawResult_objects s) (Contest_objects s)
    (Candidate_objects s) (Result_objects s) (clock s).
Definition set_Contest_objects (rows : list Contest) (s : state) : state :=
  State (office_cache s) (party_cache s) (RawResult_objects s) rows
    (Candidate_objects s) (Result_objects s) (clock s).
Definition set_Candidate_objects (rows : list Candidate) (s : state) : state :=
  State (office_cache s) (party_cache s) (RawResult_objects s) (Contest_objects s)
    rows (Result_objects s) (clock s).
Definition set_Result_objects (rows : list Result) (s : state) : state :=
  State (office_cache s) (party_cache s) (RawResult_objects s) (Contest_objects s)
    (Candidate_objects s) rows (clock s).
Definition set_clock (n : nat) (s : state) : state :=
  State (office_cache s) (party_cache s) (RawResult_objects s) (Contest_objects s)
    (Candidate_objects s) (Result_objects s) n.

(** [datetime.now()] *)
Definition datetime_now : M datetime :=
  n ← gets clock; _ ← modify (set_clock (S n)); mret (now n).

(** *** Reference resolver *)

Definition office_query_of (raw_result : RawResult.t) : office_query :=
  let office_query :=
    OfficeQuery "MD" (_clean_office (RawResult.office raw_result)) None in
  let office_query :=
    if bool_decide (oq_name office_query = "President")
    then OfficeQuery "US" (oq_name office_query) (oq_district office_query)
    else office_query in
  if bool_decide (oq_name office_query ∈ district_offices)
  then OfficeQuery (oq_state office_query) (oq_name office_query)
         (Some (_strip_leading_zeros (RawResult.district raw_result)))
  else office_query.

Definition _get_office (raw_result : RawResult.t) : M Office :=
  let office_query := office_query_of raw_result in
  let key := Office_make_key office_query in
  cache ← gets office_cache;
  match cache !! key with
  | Some office => mret office
  | None =>
      office ← lift (Office_objects_get office_query);
      if bool_decide (key = Office_key office) then
        _ ← modify (set_office_cache (<[key := office]> cache));
        mret office
      else raise AssertionError
  end.

Definition _get_party (raw_result : RawResult.t) (attr : RawResult.t → string)
  : M (option Party) :=
  let party := attr raw_result in
  if negb (Str.truthy party) then mret None
  else match _clean_party party with
       | None => mret None
       | Some clean_abbrev =>
           if negb (Str.truthy clean_abbrev) then mret None
           else
             cache ← gets party_cache;
             match cache !! clean_abbrev with
             | Some party => mret (Some party)
             | None =>
                 party ← lift (Party_objects_get clean_abbrev);
                 _ ← modify (set_party_cache (<[clean_abbrev := party]> cache));
                 mret (Some party)
             end
       end.

(** *** Loader queries *)

(** The filtered raw results, each with its position in the collection. *)
Definition get_raw_results_after_2000 : M (list (nat * RawResult.t)) :=
  rows ← gets RawResult_objects;
  mret (find_all after_2000 0 rows).

(** The test of the filter of [get_results_after_2000]. *)
Definition in_scope (election_ids : list string) (r : Result) : bool :=
  bool_decide (result_election_id r ∈ election_ids).

Definition get_results_after_2000 : M (list string * list Result) :=
  raws ← get_raw_results_after_2000;
  let election_ids := remove_dups ((λ ir, RawResult.election_id ir.2) <$> raws) in
  rows ← gets Result_objects;
  mret (election_ids, List.filter (in_scope election_ids) rows).

(** *** Entity field builders *)

Definition get_contest_fields (raw_result : RawResult.t) : M Contest :=
  let primary_type :=
    if negb (Str.truthy (RawResult.primary_type raw_result)) then None
    else Some (RawResult.primary_type raw_result) in
  office ← _get_office raw_result;
  primary_party ← _get_party raw_result RawResult.primary_party;
  mret {| contest_source := Some (RawResult.source raw_result);
          contest_election_id := RawResult.election_id raw_result;
          contest_state := RawResult.state raw_result;
          contest_start_date := RawResult.start_date raw_result;
          contest_end_date := RawResult.end_date raw_result;
          contest_election_type := RawResult.election_type raw_result;
          contest_primary_type := primary_type;
          contest_result_type := RawResult.result_type raw_result;
          contest_special := RawResult.special raw_result;
          contest_office := office;
          contest_primary_party := primary_party;
          contest_created := None;
          contest_updated := None |}.

(** *** Pass 1: contests *)

(** [Contest.objects.insert(docs)]: the documents are appended to the
    collection. With no document the outcome is the driver's: the source
    hands over the list unguarded in Pass 1 and in Pass 2, and guards the
    call at the end of Pass 3. *)
Definition Contest_objects_insert (docs : list Contest) : M unit :=
  match docs with
  | [] => lift objects_insert_nothing
  | _ :: _ => modify (λ s, set_Contest_objects (Contest_objects s ++ docs) s)
  end.

Definition stamp (t : datetime) (fields : Contest) : Contest :=
  {| contest_source := contest_source fields;
     contest_election_id := contest_election_id fields;
     contest_state := contest_state fields;
     contest_start_date := contest_start_date fields;
     contest_end_date := contest_end_date fields;
     contest_election_type := contest_election_type fields;
     contest_primary_type := contest_primary_type fields;
     contest_result_type := contest_result_type fields;
     contest_special := contest_special fields;
     contest_office := contest_office fields;
     contest_primary_party := contest_primary_party fields;
     contest_created := Some t;
     contest_updated := Some t |}.

(** The body of the loop of [create_unique_contests_after_2000]. *)
Definition contests_step (acc : list Contest * gset (string * string))
    (irr : nat * RawResult.t) : M (list Contest * gset (string * string)) :=
  let '(contests, seen) := acc in
  let rr := irr.2 in
  let key := contest_key rr in
  if bool_decide (key ∉ seen) then
    fields ← get_contest_fields rr;
    t ← datetime_now;
    let contest := stamp t fields in
    mret (contests ++ [contest], {[key]} ∪ seen)
  else mret (contests, seen).

(** Returns the number of contests that the source prints. *)
Definition create_unique_contests_after_2000 : M nat :=
  raws ← get_raw_results_after_2000;
  '(contests, seen) ← for_each raws contests_step ([], ∅);
  _ ← Contest_objects_insert contests;
  mret (length contests).

(** *** Pass 2: candidates *)

Definition pop_source (fields : Contest) : Contest :=
  {| contest_source := None;
     contest_election_id := contest_election_id fields;
     contest_state := contest_state fields;
     contest_start_date := contest_start_date fields;
     contest_end_date := contest_end_date fields;
     contest_election_type := contest_election_type fields;
     contest_primary_type := contest_primary_type fields;
     contest_result_type := contest_result_type fields;
     contest_special := contest_special fields;
     contest_office := contest_office fields;
     contest_primary_party := contest_primary_party fields;
     contest_created := contest_created fields;
     contest_updated := contest_updated fields |}.

(** The key of the per-run cache of [cached_get_contest]. *)
Definition contest_cache_key (raw_result : RawResult.t) : string :=
  RawResult.election_id raw_result +:+ "-" +:+ RawResult.contest_slug raw_result.

(** The dictionary [cache] is updated in place by the source; here the
    updated cache is returned with the contest. *)
Definition cached_get_contest (raw_result : RawResult.t)
    (cache : gmap string (nat * Contest))
  : M ((nat * Contest) * gmap string (nat * Contest)) :=
  let key := contest_cache_key raw_result in
  match cache !! key with
  | Some contest => mret (contest, cache)
  | None =>
      fields ← get_contest_fields raw_result;
      let fields := pop_source fields in
      rows ← gets Contest_objects;
      contest ← lift (objects_get Contest_DoesNotExist (Contest_matches fields) rows);
      mret (contest, <[key := contest]> cache)
  end.

Definition get_candidate_fields_2002 (raw_result : RawResult.t) : Candidate :=
  if bool_decide (RawResult.family_name raw_result = "zz998") then
    {| candidate_source := RawResult.source raw_result;
       candidate_election_id := RawResult.election_id raw_result;
       candidate_state := RawResult.state raw_result;
       candidate_full_name := "Other Write-Ins";
       candidate_given_name := None;
       candidate_family_name := None;
       candidate_additional_name := None;
       candidate_suffix := None;
       candidate_contest := None;
       candidate_flags := None |}
  else
    let bits := [RawResult.given_name raw_result] in
    let '(additional_name, bits) :=
      if bool_decide (RawResult.additional_name raw_result = "\N")
      then (None, bits)
      else (Some (RawResult.additional_name raw_result),
            bits ++ [RawResult.additional_name raw_result]) in
    let bits := bits ++ [RawResult.family_name raw_result] in
    {| candidate_source := RawResult.source raw_result;
       candidate_election_id := RawResult.election_id raw_result;
       candidate_state := RawResult.state raw_result;
       candidate_full_name := Str.join " " bits;
       candidate_given_name := Some (RawResult.given_name raw_result);
       candidate_family_name := Some (RawResult.family_name raw_result);
       candidate_additional_name := additional_name;
       candidate_suffix := None;
       candidate_contest := None;
       candidate_flags := None |}.

Definition get_candidate_fields_after_2000 (raw_result : RawResult.t) : Candidate :=
  if bool_decide (RawResult.full_name raw_result = "Other Write-Ins") then
    {| candidate_source := RawResult.source raw_result;
       candidate_election_id := RawResult.election_id raw_result;
       candidate_state := RawResult.state raw_result;
       candidate_full_name := RawResult.full_name raw_result;
       candidate_given_name := Some (RawResult.given_name raw_result);
       candidate_family_name := Some (RawResult.family_name raw_result);
       candidate_additional_name := Some (RawResult.additional_name raw_result);
       candidate_suffix := None;
       candidate_contest := None;
       candidate_flags := None |}
  else
    let name := HumanName (RawResult.full_name raw_result) in
    {| candidate_source := RawResult.source raw_result;
       candidate_election_id := RawResult.election_id raw_result;
       candidate_state := RawResult.state raw_result;
       candidate_full_name := RawResult.full_name raw_result;
       candidate_given_name := Some (hn_first name);
       candidate_family_name := Some (hn_last name);
       candidate_additional_name := Some (hn_middle name);
       candidate_suffix := Some (hn_suffix name);
       candidate_contest := None;
       candidate_flags := None |}.

Definition get_candidate_fields (raw_result : RawResult.t) : result Candidate :=
  let year := year (RawResult.end_date raw_result) in
  if bool_decide (year = 2002%Z) then Ok (get_candidate_fields_2002 raw_result)
  else if bool_decide (2003 ≤ year)%Z then Ok (get_candidate_fields_after_2000 raw_result)
  else Raise ValueError.

Definition set_contest (contest : nat) (fields : Candidate) : Candidate :=
  {| candidate_source := candidate_source fields;
     candidate_election_id := candidate_election_id fields;
     candidate_state := candidate_state fields;
     candidate_full_name := candidate_full_name fields;
     candidate_given_name := candidate_given_name fields;
     candidate_family_name := candidate_family_name fields;
     candidate_additional_name := candidate_additional_name fields;
     candidate_suffix := candidate_suffix fields;
     candidate_contest := Some contest;
     candidate_flags := candidate_flags fields |}.

Definition set_flags (flags : list string) (fields : Candidate) : Candidate :=
  {| candidate_source := candidate_source fields;
     candidate_election_id := candidate_election_id fields;
     candidate_state := candidate_state fields;
     candidate_full_name := candidate_full_name fields;
     candidate_given_name := candidate_given_name fields;
     candidate_family_name := candidate_family_name fields;
     candidate_additional_name := candidate_additional_name fields;
     candidate_suffix := candidate_suffix fields;
     candidate_contest := candidate_contest fields;
     candidate_flags := Some flags |}.

Definition candidate_key (rr : RawResult.t) : string * string :=
  (RawResult.election_id rr, RawResult.candidate_slug rr).

Definition Candidate_objects_insert (docs : list Candidate) : M unit :=
  match docs with
  | [] => lift objects_insert_nothing
  | _ :: _ => modify (λ s, set_Candidate_objects (Candidate_objects s ++ docs) s)
  end.

(** The body of the loop of [create_unique_candidates_after_2000]. *)
Definition candidates_step
    (acc : gmap string (nat * Contest) * list Candidate * gset (string * string))
    (irr : nat * RawResult.t)
  : M (gmap string (nat * Contest) * list Candidate * gset (string * string)) :=
  let '(contest_cache, candidates, seen) := acc in
  let rr := irr.2 in
  let key := candidate_key rr in
  if bool_decide (key ∉ seen) then
    fields ← lift (get_candidate_fields rr);
    '(contest, contest_cache) ← cached_get_contest rr contest_cache;
    let fields := set_contest contest.1 fields in
    let fields :=
      if Str.contains "other" (Str.lower (candidate_full_name fields)) then
        if bool_decide (candidate_full_name fields = "Other Write-Ins")
        then set_flags ["aggregate"] fields
        else fields (* a warning is logged *)
      else fields in
    mret (contest_cache, candidates ++ [fields], {[key]} ∪ seen)
  else mret (contest_cache, candidates, seen).

Definition create_unique_candidates_after_2000 : M nat :=
  raws ← get_raw_results_after_2000;
  '(_, candidates, seen) ← for_each raws candidates_step (∅, [], ∅);
  _ ← Candidate_objects_insert candidates;
  mret (length candidates).

(** *** Pass 3: results *)

Definition _parse_winner (raw_result : RawResult.t) : bool :=
  match RawResult.winner raw_result with
  | PyStr s => bool_decide (s = "Y")
  | PyInt z => bool_decide (z = 1%Z)
  | _ => false
  end.

Definition _parse_write_in (raw_result : RawResult.t) : bool :=
  if bool_decide (RawResult.write_in raw_result = "Y") then true
  else if bool_decide (RawResult.family_name raw_result = "zz998") then true
  else false.

Definition candidate_cache_key (raw_result : RawResult.t) : string :=
  RawResult.election_id raw_result +:+ "-" +:+ RawResult.candidate_slug raw_result.

Definition cached_get_candidate (raw_result : RawResult.t)
    (cache : gmap string (nat * Candidate))
  : M ((nat * Candidate) * gmap string (nat * Candidate)) :=
  let key := candidate_cache_key raw_result in
  match cache !! key with
  | Some candidate => mret (candidate, cache)
  | None =>
      fields ← lift (get_candidate_fields raw_result);
      rows ← gets Candidate_objects;
      candidate ← lift (objects_get Candidate_DoesNotExist (Candidate_matches fields) rows);
      mret (candidate, <[key := candidate]> cache)
  end.

Definition Result_objects_insert (docs : list Result) : M unit :=
  match docs with
  | [] => lift objects_insert_nothing
  | _ :: _ => modify (λ s, set_Result_objects (Result_objects s ++ docs) s)
  end.

Definition bufsiz : nat := 1000.

(** The body of the loop of [create_unique_results_after_2000]. *)
Definition results_step
    (acc : gmap string (nat * Candidate) * list Result * nat)
    (irr : nat * RawResult.t)
  : M (gmap string (nat * Candidate) * list Result * nat) :=
  let '(candidate_cache, results, num_created) := acc in
  let rr := irr.2 in
  '(candidate, candidate_cache) ← cached_get_candidate rr candidate_cache;
  party ← _get_party rr RawResult.party;
  let result :=
    {| result_source := RawResult.source rr;
       result_election_id := RawResult.election_id rr;
       result_state := RawResult.state rr;
       result_reporting_level := RawResult.reporting_level rr;
       result_jurisdiction := _strip_leading_zeros (RawResult.jurisdiction rr);
       result_votes := RawResult.votes rr;
       result_total_votes := RawResult.total_votes rr;
       result_vote_breakdowns := RawResult.vote_breakdowns rr;
       result_candidate := candidate.1;
       result_contest := candidate_contest candidate.2;
       result_raw_result := irr.1;
       result_party := Party_abbrev <$> party;
       result_winner := _parse_winner rr;
       result_write_in := _parse_write_in rr;
       result_ocd_id := _get_ocd_id rr |} in
  let results := results ++ [result] in
  if bool_decide (bufsiz ≤ length results)%nat then
    _ ← Result_objects_insert results;
    mret (candidate_cache, [], num_created + length results)
  else mret (candidate_cache, results, num_created).

(** The deletion of the results that [get_results_after_2000] selects. *)
Definition delete_old_results : M unit :=
  '(election_ids, old_results) ← get_results_after_2000;
  modify (λ s, set_Result_objects
                 (List.filter (λ r, negb (in_scope election_ids r)) (Result_objects s)) s).

(** The loop of [create_unique_results_after_2000] over the raw results
    [raws], from empty buffers. *)
Definition results_loop (raws : list (nat * RawResult.t))
  : M (gmap string (nat * Candidate) * list Result * nat) :=
  for_each raws results_step (∅, [], 0).

Definition create_unique_results_after_2000 : M nat :=
  _ ← delete_old_results;
  raws ← get_raw_results_after_2000;
  '(_, results, num_created) ← results_loop raws;
  if bool_decide (length results ≠ 0) then
    _ ← Result_objects_insert results;
    mret (num_created + length results)
  else mret num_created.

(** *** Registration *)

(** The transforms registered for Maryland, in the order of
    registration. *)
Definition registered : list (M nat) :=
  [ create_unique_contests_after_2000;
    create_unique_candidates_after_2000;
    create_unique_results_after_2000 ].

(** The transforms run one after the other; the counts they report. *)
Fixpoint run (transforms : list (M nat)) : M (list nat) :=
  match transforms with
  | [] => mret []
  | t :: transforms' => n ← t; ns ← run transforms'; mret (n :: ns)
  end.

End Transform.

(** ** Reference readings of the key correction *)

(** [s'] is [s] with the occurrences of [old], taken from left to right and
    not overlapping, removed. *)
Inductive removed_all (old : string) : string → string → Prop :=
  | removed_nil :
      removed_all old "" ""
  | removed_hit s s' :
      removed_all old s s' → removed_all old (old +:+ s) s'
  | removed_skip c s s' :
      String.prefix old (String c s) = false →
      removed_all old s s' → removed_all old (String c s) (String c s').

(** [s] without a trailing [suffix], compared without regard to case; [s]
    itself when it does not end in [suffix]. *)
Definition strip_suffix_nocase (suffix s : string) : string :=
  let n := String.length s - String.length suffix in
  if bool_decide (String.length suffix ≤ String.length s)%nat
     && bool_decide (Str.lower (String.substring n (String.length suffix) s)
                     = Str.lower suffix)
  then String.substring 0 n s
  else s.

(** The contest key with only a trailing district suffix stripped. *)
Definition contest_key_trailing (raw_result : RawResult.t) : string * string :=
  let slug := RawResult.contest_slug raw_result in
  (RawResult.election_id raw_result,
   if bool_decide ((_clean_office (RawResult.office raw_result) ∉ district_offices)
                   ∧ (RawResult.district raw_result ≠ ""))
   then strip_suffix_nocase ("-" +:+ RawResult.district raw_result) slug
   else slug).


(** ** Reference readings of the resolution *)

(** The abbreviation that [_get_party] looks up for a raw party value;
    [None] when it returns [None] without a lookup. *)
Definition party_abbrev_of (raw : string) : option string :=
  if negb (Str.truthy raw) then None
  else match _clean_party raw with
       | None => None
       | Some clean_abbrev =>
           if negb (Str.truthy clean_abbrev) then None else Some clean_abbrev
       end.

(** What a raw result contributes to the lookup of its contest: the contest
    fields other than the source, with the office query and the cleaned
    primary party in place of the documents they resolve to. *)
Definition contest_signature (rr : RawResult.t) :=
  (RawResult.election_id rr, RawResult.state rr,
   RawResult.start_date rr, RawResult.end_date rr,
   RawResult.election_type rr,
   (if negb (Str.truthy (RawResult.primary_type rr)) then None
    else Some (RawResult.primary_type rr)),
   RawResult.result_type rr, RawResult.special rr,
   office_query_of rr, party_abbrev_of (RawResult.primary_party rr)).

(** The elements of [xs] whose key is neither in [seen] nor borne by an
    earlier element. *)
Fixpoint firsts {A B} `{Countable B} (key : A → B) (seen : gset B) (xs : list A)
  : list A :=
  match xs with
  | [] => []
  | x :: xs' =>
      if decide (key x ∈ seen) then firsts key seen xs'
      else x :: firsts key ({[key x]} ∪ seen) xs'
  end.

(** ** Sample data *)

Module Sample.

#[global] Instance office_query_eq_dec : EqDecision office_query.
Proof. solve_decision. Defined.

Definition make_key (q : office_query) : string :=
  oq_state q +:+ " " +:+ oq_name q +:+ " " +:+ default "" (oq_district q).

(** A reference store in which every office and every party exists: an
    office is identified with the query that finds it, a party with its
    abbreviation. The driver refuses an insert of no document. *)
#[global] Instance collaborators : Collaborators office_query string string := {|
  Office_make_key := make_key;
  Office_key := make_key;
  Office_objects_get q := Ok q;
  Party_abbrev a := a;
  Party_objects_get a := Ok a;
  HumanName s := {| hn_first := ""; hn_middle := ""; hn_last := s; hn_suffix := "" |};
  now n := Datetime 2014 1 1 0 0 (Z.of_nat n) 0;
  objects_insert_nothing := Raise InvalidOperation
|}.

Definition st (raws : list RawResult.t) : @state office_query string string _ _ :=
  State ∅ ∅ raws [] [] [] 0.

Definition general_2002 : datetime := Datetime 2002 11 5 0 0 0 0.
Definition general_2012 : datetime := Datetime 2012 11 6 0 0 0 0.

(** A row of the 2002 general election; [level] and [jurisdiction] say
    where the votes were counted. *)
Definition row_2002 (office district slug given additional family cslug
    level jurisdiction write_in : string) : RawResult.t :=
  RawResult.Build "2002.csv" "md-2002-11-05-general" "MD" general_2002 general_2002
    "general" "" "certified" false office district ""
    given family additional cslug slug "Democratic" ""
    level jurisdiction "ocd-division/country:us/state:md/county:3" 10 100 []
    (PyInt 1) write_in.

(** A row of the 2012 general election. *)
Definition row_2012 (office district slug full_name cslug result_type : string)
  : RawResult.t :=
  RawResult.Build "2012.csv" "md-2012-11-06-general" "MD" general_2012 general_2012
    "general" "" result_type false office district full_name
    "" "" "" cslug slug "DEM" ""
    "county" "24" "" 10 100 [] (PyStr "Y") "N".

Definition county_24 : RawResult.t :=
  row_2002 "Governor" "" "governor" "Ann" "\N" "Lee" "ann-lee" "county" "24" "".

Definition precinct_003 : RawResult.t :=
  row_2002 "Governor" "" "governor" "Ann" "\N" "Lee" "ann-lee" "precinct" "003" "".

Definition president_08 : RawResult.t :=
  row_2012 "President" "08" "2000-president-08" "Ann Lee" "ann-lee" "certified".

Definition president_inner_08 : RawResult.t :=
  row_2012 "President" "08" "2000-08-president" "Ann Lee" "ann-lee" "certified".

Definition write_ins_2002 : RawResult.t :=
  row_2002 "Governor" "" "governor" "" "\N" "zz998" "write-ins" "county" "24" "N".

Definition ann_q_lee_2002 : RawResult.t :=
  row_2002 "Governor" "" "governor" "Ann" "Q" "Lee" "ann-q-lee" "county" "24" "".

Definition pre_2002 : RawResult.t :=
  RawResult.Build "2000.csv" "md-2000-11-07-general" "MD"
    (Datetime 2000 11 7 0 0 0 0) (Datetime 2000 11 7 0 0 0 0)
    "general" "" "certified" false "President" "" "Ann Lee"
    "" "" "" "ann-lee" "president" "DEM" ""
    "county" "24" "" 10 100 [] (PyStr "Y") "N".

(** Three rows of the 2012 election: two of the presidential contest,
    the second with a district in its slug, and one of another contest. *)
Definition ann_lee : RawResult.t :=
  row_2012 "President" "" "president" "Ann Lee" "ann-lee" "certified".
Definition bob_roe : RawResult.t :=
  row_2012 "President" "08" "president-08" "Bob Roe" "bob-roe" "certified".
Definition cat_doe : RawResult.t :=
  row_2012 "President" "" "president-unofficial" "Cat Doe" "cat-doe" "unofficial".

(** The second row with the result type of the third. *)
Definition bob_roe_unofficial : RawResult.t :=
  row_2012 "President" "08" "president-08" "Bob Roe" "bob-roe" "unofficial".

(** The state that a run leaves; [s] when it fails. *)
Definition final {A} (s : @state office_query string string _ _)
    (r : result (A * @state office_query string string _ _)) :=
  match r with
  | Ok (_, s') => s'
  | Raise _ => s
  end.

Definition consistent := st [ann_lee; bob_roe; cat_doe].
Definition consistent_1 :=
  final consistent (create_unique_contests_after_2000 consistent).
Definition consistent_2 :=
  final consistent_1 (create_unique_candidates_after_2000 consistent_1).
Definition consistent_3 :=
  final consistent_2 (create_unique_results_after_2000 consistent_2).

Definition inconsistent := st [ann_lee; bob_roe_unofficial; cat_doe].
Definition inconsistent_1 :=
  final inconsistent (create_unique_contests_after_2000 inconsistent).
Definition inconsistent_2 :=
  final inconsistent_1 (create_unique_candidates_after_2000 inconsistent_1).

(** Two rows of different elections whose election id and contest slug
    join to the same string. *)
Definition dated (election_id slug full_name cslug : string) : RawResult.t :=
  RawResult.Build "2012.csv" election_id "MD" general_2012 general_2012
    "general" "" "certified" false "Governor" "" full_name
    "" "" "" cslug slug "DEM" ""
    "county" "24" "" 10 100 [] (PyStr "Y") "N".

Definition dan_poe : RawResult.t :=
  dated "md-2012-11-06" "general-governor" "Dan Poe" "dan-poe".
Definition eve_ray : RawResult.t :=
  dated "md-2012-11-06-general" "governor" "Eve Ray" "eve-ray".

Definition colliding := st [dan_poe; eve_ray].
Definition colliding_1 :=
  final colliding (create_unique_contests_after_2000 colliding).
Definition colliding_2 :=
  final colliding_1 (create_unique_candidates_after_2000 colliding_1).

Definition legacy := st [write_ins_2002; ann_q_lee_2002].
Definition legacy_3 := final legacy (run registered legacy).

End Sample.

(** ** Invariants of the passes *)

Section Invariants.

Context {Office Party K : Type}.
Context `{!EqDecision Office, !EqDecision Party, !EqDecision K, !Countable K}.
Context `{!Collaborators Office Party K}.

Abbreviation state := (state (Office:=Office) (Party:=Party) (K:=K)).
Abbreviation Contest := (Contest (Office:=Office) (Party:=Party)).

Definition caches_le (s s' : state) : Prop :=
  office_cache s ⊆ office_cache s' ∧ party_cache s ⊆ party_cache s'.

Definition same_rows (s s' : state) : Prop :=
  RawResult_objects s' = RawResult_objects s
  ∧ Contest_objects s' = Contest_objects s
  ∧ Candidate_objects s' = Candidate_objects s
  ∧ Result_objects s' = Result_objects s.

(** Only the two caches differ, and they have grown. *)
Definition resolves (s s' : state) : Prop :=
  caches_le s s' ∧ same_rows s s' ∧ clock s' = clock s.

(** [p] is what the cache [c] holds for the abbreviation [a]. *)
Definition party_known (c : gmap string Party) (a : option string)
    (p : option Party) : Prop :=
  match a with
  | None => p = None
  | Some a => ∃ p', p = Some p' ∧ c !! a = Some p'
  end.

(** The contest fields of a raw result whose office and primary party
    resolve to [office] and [primary_party]. *)
Definition contest_fields_of (rr : RawResult.t) (office : Office)
    (primary_party : option Party) : Contest :=
  {| contest_source := Some (RawResult.source rr);
     contest_election_id := RawResult.election_id rr;
     contest_state := RawResult.state rr;
     contest_start_date := RawResult.start_date rr;
     contest_end_date := RawResult.end_date rr;
     contest_election_type := RawResult.election_type rr;
     contest_primary_type :=
       if negb (Str.truthy (RawResult.primary_type rr)) then None
       else Some (RawResult.primary_type rr);
     contest_result_type := RawResult.result_type rr;
     contest_special := RawResult.special rr;
     contest_office := office;
     contest_primary_party := primary_party;
     contest_created := None;
     contest_updated := None |}.

(** [s] holds in its caches the office and the primary party of [rr],
    and [fields] are the contest fields of [rr] with them. *)
Definition contest_resolved (s : state) (rr : RawResult.t) (fields : Contest) : Prop :=
  ∃ office party,
    fields = contest_fields_of rr office party
    ∧ office_cache s !! Office_make_key (office_query_of rr) = Some office
    ∧ party_known (party_cache s) (party_abbrev_of (RawResult.primary_party rr)) party.

(** [c] is a contest built from [rr]: its fields with a time stamp. *)
Definition contest_built (s : state) (rr : RawResult.t) (c : Contest) : Prop :=
  ∃ fields t, contest_resolved s rr fields ∧ c = stamp t fields.

(** The filtered raw results of a state, as the three passes read
    them. *)
Definition raw_results_after_2000 (s : state) : list (nat * RawResult.t) :=
  find_all after_2000 0 (RawResult_objects s).

(** The election ids of the filtered raw results, the results of other
    elections, and the state once the results of these elections are
    deleted. *)
Definition election_scope (s : state) : list string :=
  remove_dups ((λ ir, RawResult.election_id ir.2) <$> raw_results_after_2000 s).

Definition kept_results (s : state) : list Result :=
  List.filter (λ r, negb (in_scope (election_scope s) r)) (Result_objects s).

Definition after_delete (s : state) : state :=
  set_Result_objects (kept_results s) s.

(** [r] is a result built from the row [irr], with a candidate of the
    collection [candidates]. *)
Definition result_built (candidates : list Candidate)
    (irr : nat * RawResult.t) (r : Result) : Prop :=
  result_raw_result r = irr.1
  ∧ result_election_id r = RawResult.election_id irr.2
  ∧ result_write_in r = _parse_write_in irr.2
  ∧ ∃ candidate, candidates !! result_candidate r = Some candidate
                 ∧ result_contest r = candidate_contest candidate.

(** The entries of the per-run candidate cache are rows of the
    collection. *)
Definition candidate_cache_ok (s : state) (cache : gmap string (nat * Candidate)) : Prop :=
  ∀ k i c, cache !! k = Some (i, c) → Candidate_objects s !! i = Some c.

(** The first row of [raws] that bears the string [k] of the per-run
    candidate cache. *)
Definition first_cached (k : string) (raws : list (nat * RawResult.t))
  : option (nat * RawResult.t) :=
  List.find (λ x, bool_decide (candidate_cache_key x.2 = k)) raws.

(** [ic] is the candidate that Pass 3 resolves under the cache string [k]
    on the stream [raws]: row and document of the one candidate of the
    collection that matches the candidate fields of the first row of the
    stream bearing [k]. *)
Definition candidate_resolved (candidates : list Candidate)
    (raws : list (nat * RawResult.t)) (k : string) (ic : nat * Candidate) : Prop :=
  ∃ first fields,
    first_cached k raws = Some first
    ∧ get_candidate_fields first.2 = Ok fields
    ∧ objects_get Candidate_DoesNotExist (Candidate_matches fields) candidates = Ok ic.

(** The per-run candidate cache after the rows [done]: it holds the
    candidate resolved under each of its strings, and an entry for every
    row. *)
Definition candidate_cache_resolved (candidates : list Candidate)
    (done : list (nat * RawResult.t)) (cache : gmap string (nat * Candidate)) : Prop :=
  (∀ k ic, cache !! k = Some ic → candidate_resolved candidates done k ic)
  ∧ ∀ x, x ∈ done → is_Some (cache !! candidate_cache_key x.2).

(** [r] is the result of the row [irr] of the stream [raws]: it refers to
    the raw result and to the candidate resolved for the row, a row of the
    collection, and it carries the contest of that candidate. *)
Definition result_of_resolved (candidates : list Candidate)
    (raws : list (nat * RawResult.t)) (irr : nat * RawResult.t) (r : Result) : Prop :=
  result_raw_result r = irr.1
  ∧ ∃ candidate,
      candidate_resolved candidates raws (candidate_cache_key irr.2)
        (result_candidate r, candidate)
      ∧ candidates !! result_candidate r = Some candidate
      ∧ result_contest r = candidate_contest candidate.

(** The state after Pass 1, up to later resolutions: [created] are the
    contests appended after the first [base] rows of the collection, built
    from the rows [srcs]. *)
Definition after_pass1 (base : nat) (created : list Contest)
    (srcs : list (nat * RawResult.t)) (s : state) : Prop :=
  length (Contest_objects s) = (base + length created)%nat
  ∧ (∀ j c, created !! j = Some c → Contest_objects s !! (base + j)%nat = Some c)
  ∧ Forall2 (λ irr c, contest_built s irr.2 c) srcs created.

End Invariants.

(** The position [i] in the Contest collection of the contest built from
    the row of [srcs] that bears the contest key of [irr]; [base] is the size
    of the collection before the contests of [srcs] were appended. *)
Definition contest_row_of (base : nat) (srcs : list (nat * RawResult.t))
    (irr : nat * RawResult.t) (i : nat) : Prop :=
  ∃ j src, srcs !! j = Some src
           ∧ contest_key src.2 = contest_key irr.2
           ∧ i = (base + j)%nat.

(** Every entry of the per-run contest cache holds, under the cache string
    of a row of the stream [raws], the position of the contest of that
    row. *)
Definition contest_cache_ok {Contest : Type} (raws : list (nat * RawResult.t))
    (base : nat) (srcs : list (nat * RawResult.t))
    (cache : gmap string (nat * Contest)) : Prop :=
  ∀ k i c, cache !! k = Some (i, c) →
    ∃ irr, irr ∈ raws ∧ contest_cache_key irr.2 = k ∧ contest_row_of base srcs irr i.

(** The keys of a row of the filtered stream. *)
Definition row_contest_key (irr : nat * RawResult.t) : string * string :=
  contest_key irr.2.
Definition row_candidate_key (irr : nat * RawResult.t) : string * string :=
  candidate_key irr.2.

(** ** Further reference readings *)

(** The string of [n] zeros. *)
Fixpoint zeros (n : nat) : string :=
  match n with
  | O => ""
  | S n' => String "0" (zeros n')
  end.

(** The names that [_clean_office] substitutes. *)
Definition canonical_offices : list string :=
  [ "President"; "U.S. Senate"; "U.S. House of Representatives";
    "State Senate"; "Governor" ].

(** A date of the calendar with a time of the day, as far as the order of
    dates depends on it. *)
Definition valid_datetime (d : datetime) : Prop :=
  (1 ≤ month d ∧ 1 ≤ day d ∧ 0 ≤ hour d ∧ 0 ≤ minute d
   ∧ 0 ≤ second d ∧ 0 ≤ microsecond d)%Z.

(** The candidate that Pass 2 makes of the candidate fields [fields] and of
    the position [contest] of the contest it has resolved. *)
Definition candidate_of (fields : Candidate) (contest : nat) : Candidate :=
  let fields := set_contest contest fields in
  if Str.contains "other" (Str.lower (candidate_full_name fields)) then
    if bool_decide (candidate_full_name fields = "Other Write-Ins")
    then set_flags ["aggregate"] fields
    else fields
  else fields.

Section Further_invariants.

Context {Office Party K : Type}.
Context `{!EqDecision Office, !EqDecision Party, !EqDecision K, !Countable K}.
Context `{!Collaborators Office Party K}.

Abbreviation state := (state (Office:=Office) (Party:=Party) (K:=K)).
Abbreviation Contest := (Contest (Office:=Office) (Party:=Party)).

(** The entries of the per-run contest cache are rows of the Contest
    collection. *)
Definition contest_cache_rows (s : state)
    (cache : gmap string (nat * Contest)) : Prop :=
  ∀ k i c, cache !! k = Some (i, c) → Contest_objects s !! i = Some c.

(** [candidate] is the candidate built from the row [irr] and attached to a
    contest of the collection [contests]. *)
Definition candidate_built (contests : list Contest)
    (irr : nat * RawResult.t) (candidate : Candidate) : Prop :=
  ∃ fields i c,
    get_candidate_fields irr.2 = Ok fields
    ∧ contests !! i = Some c
    ∧ candidate = candidate_of fields i.

(** What a result takes over from its raw result. *)
Definition result_copied (irr : nat * RawResult.t) (r : Result) : Prop :=
  result_source r = RawResult.source irr.2
  ∧ result_election_id r = RawResult.election_id irr.2
  ∧ result_state r = RawResult.state irr.2
  ∧ result_reporting_level r = RawResult.reporting_level irr.2
  ∧ result_votes r = RawResult.votes irr.2
  ∧ result_total_votes r = RawResult.total_votes irr.2
  ∧ result_vote_breakdowns r = RawResult.vote_breakdowns irr.2
  ∧ result_raw_result r = irr.1
  ∧ result_jurisdiction r = _strip_leading_zeros (RawResult.jurisdiction irr.2)
  ∧ result_winner r = _parse_winner irr.2
  ∧ result_ocd_id r = _get_ocd_id irr.2
  ∧ (result_party r = None ↔ party_abbrev_of (RawResult.party irr.2) = None).

End Further_invariants.

(** ** Further sample data *)

Module Sample2.

(** The value that a run returns; [d] when it fails. *)
Definition value {A} (d : A) (r : result (A * @state office_query string string _ _)) : A :=
  match r with
  | Ok (a, _) => a
  | Raise _ => d
  end.

(** A reference store that holds the office of Governor only, and no
    party; its driver accepts an insert of no document. *)
Definition sparse : Collaborators office_query string string := {|
  Office_make_key := Sample.make_key;
  Office_key := Sample.make_key;
  Office_objects_get q :=
    if bool_decide (oq_name q = "Governor") then Ok q else Raise Office_DoesNotExist;
  Party_abbrev a := a;
  Party_objects_get a := Raise Party_DoesNotExist;
  HumanName s := {| hn_first := ""; hn_middle := ""; hn_last := s; hn_suffix := "" |};
  now n := Datetime 2014 1 1 0 0 (Z.of_nat n) 0;
  objects_insert_nothing := Ok tt
|}.

(** The resolution of the office and of the party of the first sample
    row. *)
Definition office_run := _get_office Sample.ann_lee Sample.consistent.
Definition party_run := _get_party Sample.ann_lee RawResult.party Sample.consistent.

(** Pass 1 a second time. *)
Definition consistent_twice :=
  Sample.final Sample.consistent_1
    (create_unique_contests_after_2000 Sample.consistent_1).

(** The lookups of Pass 2 and Pass 3 for the first sample row, from empty
    caches. *)
Definition contest_run := cached_get_contest Sample.ann_lee ∅ Sample.consistent_1.
Definition candidate_run := cached_get_candidate Sample.ann_lee ∅ Sample.consistent_2.

(** A collection whose only raw result is older than the filter admits. *)
Definition old_only := Sample.st [Sample.pre_2002].

(** A thousand and two rows of the same candidate, after Pass 1 and
    Pass 2, and the loop of Pass 3 over them. *)
Definition many := Sample.st (replicate 1002 Sample.ann_lee).
Definition many_2 :=
  Sample.final many
    ((_ ← create_unique_contests_after_2000; create_unique_candidates_after_2000) many).
Definition many_loop := results_loop (raw_results_after_2000 many_2) many_2.
Definition many_cache := (value (∅, [], 0%nat) many_loop).1.1.
Definition many_buffer := (value (∅, [], 0%nat) many_loop).1.2.
Definition many_written := (value (∅, [], 0%nat) many_loop).2.

(** The contest and the candidate of the first sample row, as Pass 1 and
    Pass 2 create them. *)
Definition ann_contest : @Contest office_query string :=
  stamp (now 0) (contest_fields_of Sample.ann_lee (office_query_of Sample.ann_lee) None).
Definition ann_candidate :=
  candidate_of (get_candidate_fields_after_2000 Sample.ann_lee) 0.

End Sample2.

(** * Properties *)

(** ** Strings *)

Lemma prefix_split (a s : string) :
  String.prefix a s = true → ∃ t, s = a +:+ t.
Proof.
  revert s. induction a as [|c a IH]; intros s H.
  - by exists s.
  - destruct s as [|c' s]; [done|]. simpl in H.
    destruct (Ascii.ascii_dec c c') as [->|]; [|done].
    destruct (IH _ H) as [t ->]. by exists t.
Qed.

Lemma prefix_app (a t : string) : String.prefix a (a +:+ t) = true.
Proof.
  induction a as [|c a IH]; simpl; [by destruct t|].
  by destruct (Ascii.ascii_dec c c).
Qed.

Lemma length_append (a t : string) :
  String.length (a +:+ t) = (String.length a + String.length t)%nat.
Proof. induction a as [|c a IH]; simpl; [done|]. by rewrite IH. Qed.

Lemma append_cancel (a s t : string) : a +:+ s = a +:+ t → s = t.
Proof. induction a as [|c a IH]; simpl; [done|]. intros [=]. auto. Qed.

Lemma replace_from_skip (u old new t : string) :
  Str.replace_from (String.length u) old new (u +:+ t) = Str.replace_from 0 old new t.
Proof.
  induction u as [|c u IH]; [done|]. simpl. exact IH.
Qed.

(** A step of [replace] on a string that starts with the pattern. *)
Lemma replace_hit (c : ascii) (old new t : string) :
  Str.replace (String c old) new (String c old +:+ t)
  = new +:+ Str.replace (String c old) new t.
Proof.
  unfold Str.replace.
  change (String c old +:+ t) with (String c (old +:+ t)).
  cbn [Str.replace_from].
  rewrite (prefix_app (String c old) t
           : String.prefix (String c old) (String c (old +:+ t)) = true).
  cbn [String.length]. by rewrite replace_from_skip.
Qed.

(** A step on a string that does not. *)
Lemma replace_miss (old new : string) (c : ascii) (s : string) :
  String.prefix old (String c s) = false →
  Str.replace old new (String c s) = String c (Str.replace old new s).
Proof. unfold Str.replace. intros H. cbn [Str.replace_from]. by rewrite H. Qed.

(** [replace] with an empty replacement removes the occurrences. *)
Lemma replace_removed_all (c : ascii) (old s : string) :
  removed_all (String c old) s (Str.replace (String c old) "" s).
Proof.
  remember (String.length s) as n eqn:Hn. revert s Hn.
  induction n as [n IH] using lt_wf_ind. intros s ->.
  destruct s as [|a s]; [constructor|].
  destruct (String.prefix (String c old) (String a s)) eqn:Hp.
  - destruct (prefix_split _ _ Hp) as [t Ht]. rewrite Ht, replace_hit. simpl append at 2.
    apply removed_hit. eapply IH; [|reflexivity].
    rewrite Ht, length_append. simpl. lia.
  - rewrite replace_miss by done. apply removed_skip; [done|].
    eapply IH; [|reflexivity]. simpl. lia.
Qed.

(** The relation has one outcome. *)
Lemma removed_all_functional (c : ascii) (old s s1 s2 : string) :
  removed_all (String c old) s s1 → removed_all (String c old) s s2 → s1 = s2.
Proof.
  intros H1. revert s2.
  induction H1 as [|s s1 H1 IH|a s s1 Hp H1 IH]; intros s2 H2.
  - by inversion H2.
  - change (String c old +:+ s) with (String c (old +:+ s)) in H2.
    inversion H2 as [|t ? H2' Heq|a t ? Hp' H2' Heq]; subst.
    + apply append_cancel in Heq. subst. by apply IH.
    + by rewrite (prefix_app (String c old) s
                  : String.prefix (String c old) (String c (old +:+ s)) = true) in Hp'.
  - inversion H2 as [|t ? H2' Heq|a' t ? Hp' H2' Heq]; subst.
    + by rewrite (prefix_app (String a old) t
                  : String.prefix (String a old) (String a (old +:+ t)) = true) in Hp.
    + f_equal. by apply IH.
Qed.

Lemma contains_false_prefix (old : string) (c : ascii) (s : string) :
  Str.contains old (String c s) = false →
  String.prefix old (String c s) = false ∧ Str.contains old s = false.
Proof. simpl. intros H. by apply orb_false_elim in H. Qed.

(** Without an occurrence nothing changes. *)
Lemma replace_absent (old new s : string) :
  Str.contains old s = false → Str.replace old new s = s.
Proof.
  induction s as [|c s IH]; intros H.
  - destruct old; [done|]. done.
  - apply contains_false_prefix in H as [Hp Hc].
    rewrite replace_miss by done. by rewrite IH.
Qed.

(** ** Collections *)

Lemma elem_of_find_all {A} (p : A → bool) (i j : nat) (d : A) (rows : list A) :
  (j, d) ∈ find_all p i rows ↔ ∃ k, j = (i + k)%nat ∧ rows !! k = Some d ∧ p d = true.
Proof.
  revert i. induction rows as [|x rows IH]; intros i; simpl.
  - split; [by intros ?%elem_of_nil|]. by intros (k & _ & ? & _).
  - rewrite elem_of_app, IH. split.
    + intros [H|(k & -> & Hk & Hp)].
      * destruct (p x) eqn:Hx; [|by apply elem_of_nil in H].
        apply list_elem_of_singleton in H as [= -> ->].
        exists 0%nat. split; [lia|done].
      * exists (S k). split; [lia|done].
    + intros ([|k] & -> & Hk & Hp).
      * left. simpl in Hk. injection Hk as ->. rewrite Hp.
        apply list_elem_of_singleton. f_equal. lia.
      * right. exists k. split; [lia|done].
Qed.

(** ** Geographic id *)

Lemma get_ocd_id_county (rr : RawResult.t) :
  RawResult.reporting_level rr = "county" →
  _get_ocd_id rr
  = PyTuple [PyStr ("ocd-division/country:us/state:md/county:"
                    +:+ _strip_leading_zeros (RawResult.jurisdiction rr))].
Proof. intros H. unfold _get_ocd_id. by rewrite H. Qed.

Lemma get_ocd_id_precinct (rr : RawResult.t) :
  RawResult.reporting_level rr = "precinct" →
  _get_ocd_id rr
  = PyStr (RawResult.county_ocd_id rr +:+ "/precinct:"
           +:+ _strip_leading_zeros (RawResult.jurisdiction rr)).
Proof. intros H. unfold _get_ocd_id. by rewrite H. Qed.

Lemma get_ocd_id_other (rr : RawResult.t) :
  RawResult.reporting_level rr ∉ ["county"; "state_legislative"; "precinct"] →
  _get_ocd_id rr = PyNone.
Proof.
  intros H. unfold _get_ocd_id.
  repeat case_bool_decide; try done; exfalso; apply H;
    match goal with E : _ = _ |- _ => rewrite E end; set_solver.
Qed.

(** C1, at the county level: for the raw result of county "24" the value
    returned is a one-element tuple that holds the templated string, not the
    string "ocd-division/country:us/state:md/county:24" itself; the precinct
    row of jurisdiction "003" gets its parent county id followed by
    "/precinct:3". *)
Theorem get_ocd_id_county_24 :
  _get_ocd_id Sample.county_24
  = PyTuple [PyStr "ocd-division/country:us/state:md/county:24"]
  ∧ _get_ocd_id Sample.county_24 ≠ PyStr "ocd-division/country:us/state:md/county:24"
  ∧ _get_ocd_id Sample.precinct_003
    = PyStr "ocd-division/country:us/state:md/county:3/precinct:3".
Proof. by vm_compute. Qed.

(** ** Contest key *)

(** The slug of the sample presidential row is corrected as in the
    documented case. *)
Example contest_key_president_08 :
  contest_key Sample.president_08 = ("md-2012-11-06-general", "2000-president").
Proof. reflexivity. Qed.

(** C3 as stated fails: a district component that is not at the end of the
    slug is removed as well. *)
Lemma contest_key_inner_occurrence :
  contest_key Sample.president_inner_08 = ("md-2012-11-06-general", "2000-president")
  ∧ contest_key_trailing Sample.president_inner_08
    = ("md-2012-11-06-general", "2000-08-president").
Proof. by vm_compute. Qed.

(** C3, amended: the key is (election_id, slug) where slug is contest_slug
    unchanged, except that when the cleaned office is not a district office
    and the district is non-empty, every occurrence of "-" followed by the
    lower-cased district (found from left to right, compared as written) is
    removed from the slug. *)
Theorem contest_key_removes_district (rr : RawResult.t) :
  ∃ slug,
    contest_key rr = (RawResult.election_id rr, slug)
    ∧ if decide ((_clean_office (RawResult.office rr) ∉ district_offices)
                 ∧ (RawResult.district rr ≠ ""))
      then removed_all ("-" +:+ Str.lower (RawResult.district rr))
             (RawResult.contest_slug rr) slug
      else slug = RawResult.contest_slug rr.
Proof.
  unfold contest_key. eexists. split; [reflexivity|].
  destruct (RawResult.district rr) as [|c d] eqn:Hd.
  - rewrite andb_false_r. case_decide as H; [by destruct H|done].
  - case_bool_decide as Ho; simpl negb; cbn [andb Str.truthy].
    + case_decide as H; [by destruct H|done].
    + case_decide as H; [|by destruct H].
      apply replace_removed_all.
Qed.

Section Builders.

Context {Office Party K : Type}.
Context `{!EqDecision Office, !EqDecision Party, !EqDecision K, !Countable K}.
Context `{!Collaborators Office Party K}.

(** ** Legacy candidate names *)

(** C8: for a raw result of 2002, the candidate fields of the write-in
  sentinel have no given, family or additional name and the full name
  "Other Write-Ins"; otherwise the full name joins, with spaces, the given
  name, the additional name unless it is the null marker, and the family
  name. *)
Theorem legacy_candidate_fields (rr : RawResult.t) :
year (RawResult.end_date rr) = 2002%Z →
∃ fields,
  get_candidate_fields rr = Ok fields
  ∧ if decide (RawResult.family_name rr = "zz998")
    then candidate_given_name fields = None
         ∧ candidate_family_name fields = None
         ∧ candidate_additional_name fields = None
         ∧ candidate_full_name fields = "Other Write-Ins"
    else candidate_full_name fields
         = Str.join " "
             ([RawResult.given_name rr]
              ++ (if decide (RawResult.additional_name rr = "\N")
                  then [] else [RawResult.additional_name rr])
              ++ [RawResult.family_name rr]).
Proof.
intros Hy. unfold get_candidate_fields. rewrite Hy.
rewrite bool_decide_eq_true_2 by done.
eexists. split; [reflexivity|]. unfold get_candidate_fields_2002.
case_decide as Hf.
- by rewrite bool_decide_eq_true_2.
- rewrite bool_decide_eq_false_2 by done.
  case_decide as Ha.
  + by rewrite bool_decide_eq_true_2.
  + by rewrite bool_decide_eq_false_2.
Qed.

(** ** Office query *)


(** ** Era dispatch *)

Lemma after_2000_year (rr : RawResult.t) :
after_2000 rr = true → (2002 ≤ year (RawResult.end_date rr))%Z.
Proof.
unfold after_2000, datetime_ge, datetime_fields. cbn [lex_ge year].
intros [_ H]%andb_prop. apply orb_prop in H as [H|H].
- apply Z.ltb_lt in H. lia.
- apply andb_prop in H as [H _]. apply Z.eqb_eq in H. lia.
Qed.

(** C10: a raw result that passes the filter of the loader has an end-date
  year of at least 2002; the era dispatch returns candidate fields exactly
  for those years and raises ValueError exactly for the years before
  2002, so it returns fields for every raw result of the filtered
  stream. *)
Theorem era_dispatch_supported (rr : RawResult.t) :
(after_2000 rr = true → (2002 ≤ year (RawResult.end_date rr))%Z)
∧ ((2002 ≤ year (RawResult.end_date rr))%Z ↔ ∃ fields, get_candidate_fields rr = Ok fields)
∧ (get_candidate_fields rr = Raise ValueError ↔ (year (RawResult.end_date rr) < 2002)%Z)
∧ (∀ (s s' : state (Office:=Office) (Party:=Party) (K:=K)) raws i,
     get_raw_results_after_2000 s = Ok (raws, s') → (i, rr) ∈ raws →
     ∃ fields, get_candidate_fields rr = Ok fields).
Proof.
assert (Hdisp : (2002 ≤ year (RawResult.end_date rr))%Z
                → ∃ fields, get_candidate_fields rr = Ok fields).
{ intros Hy. unfold get_candidate_fields.
  case_bool_decide; [by eexists|].
  rewrite bool_decide_eq_true_2 by lia. by eexists. }
split_and!.
- apply after_2000_year.
- split; [done|]. intros [fields H]. unfold get_candidate_fields in H.
  repeat case_bool_decide; try done; lia.
- unfold get_candidate_fields. split.
  + repeat case_bool_decide; try done; lia.
  + intros Hy. rewrite !bool_decide_eq_false_2 by lia. done.
- intros s s' raws i [= <- _] Hin.
  apply elem_of_find_all in Hin as (k & _ & _ & Hf).
  by apply Hdisp, after_2000_year.
Qed.

End Builders.

(** The dispatch on the sample rows. *)
Example era_dispatch_samples :
  get_candidate_fields Sample.pre_2002 = Raise ValueError
  ∧ after_2000 Sample.pre_2002 = false
  ∧ after_2000 Sample.president_08 = true.
Proof. by vm_compute. Qed.

(** ** Leading zeros *)

Lemma prefix_zero (a : ascii) (s : string) :
  String.prefix "0" (String a s) = bool_decide (a = "0"%char).
Proof.
  change (String.prefix "0" (String a s))
    with (if Ascii.ascii_dec "0" a then String.prefix "" s else false).
  destruct (Ascii.ascii_dec "0" a) as [<-|Ha].
  - rewrite bool_decide_eq_true_2 by done. by destruct s.
  - by rewrite bool_decide_eq_false_2.
Qed.

Lemma lstrip_cons (a : ascii) (s : string) :
  Str.lstrip "0"%char (String a s)
  = if bool_decide (a = "0"%char) then Str.lstrip "0"%char s else String a s.
Proof.
  cbn [Str.lstrip]. destruct (Ascii.eqb_spec a "0"%char) as [->|Ha].
  - by rewrite bool_decide_eq_true_2.
  - by rewrite bool_decide_eq_false_2.
Qed.

Lemma lstrip_zeros (n : nat) (s : string) :
  String.prefix "0" s = false → Str.lstrip "0"%char (zeros n +:+ s) = s.
Proof.
  intros Hs. induction n as [|n IH].
  - destruct s as [|a s]; [done|].
    rewrite prefix_zero in Hs. change (zeros 0 +:+ String a s) with (String a s).
    by rewrite lstrip_cons, Hs.
  - change (zeros (S n) +:+ s) with (String "0" (zeros n +:+ s)).
    by rewrite lstrip_cons, bool_decide_eq_true_2.
Qed.

Lemma lstrip_split (s : string) :
  ∃ n, s = zeros n +:+ Str.lstrip "0"%char s
       ∧ String.prefix "0" (Str.lstrip "0"%char s) = false.
Proof.
  induction s as [|a s (n & Hn & Hp)].
  - by exists 0%nat.
  - rewrite lstrip_cons. case_bool_decide as Ha.
    + subst a. exists (S n). split; [|exact Hp].
      change (String "0" s = String "0" (zeros n +:+ Str.lstrip "0"%char s)).
      by rewrite <- Hn.
    + exists 0%nat. split; [done|].
      by rewrite prefix_zero, bool_decide_eq_false_2.
Qed.

(** X1: [_strip_leading_zeros] removes exactly the leading zeros: the value
    is some zeros followed by the result, the result does not start with a
    zero, a value made of zeros only gives the empty string, and stripping
    twice is stripping once. *)
Theorem strip_leading_zeros_exact (val : string) :
  (∃ n, val = zeros n +:+ _strip_leading_zeros val)
  ∧ String.prefix "0" (_strip_leading_zeros val) = false
  ∧ (∀ n, _strip_leading_zeros (zeros n) = "")
  ∧ _strip_leading_zeros (_strip_leading_zeros val) = _strip_leading_zeros val.
Proof.
  unfold _strip_leading_zeros.
  destruct (lstrip_split val) as (n & Hn & Hp). split_and!.
  - by exists n.
  - done.
  - intros m. induction m as [|m IH]; [done|]. exact IH.
  - by apply (lstrip_zeros 0).
Qed.

(** ** Office names *)

Lemma clean_office_cases (office : string) :
  _clean_office office ∈ canonical_offices
  ∨ (_clean_office office = office
     ∧ Str.contains "president" (Str.lower office) = false
     ∧ Str.contains "u.s. senat" (Str.lower office) = false
     ∧ Str.contains "congress" (Str.lower office) = false
     ∧ Str.contains "state senat" (Str.lower office) = false
     ∧ Str.contains "governor" (Str.lower office) = false).
Proof.
  unfold _clean_office, canonical_offices.
  destruct (Str.contains "president" _); [left; set_solver|].
  destruct (Str.contains "u.s. senat" _); [left; set_solver|].
  destruct (Str.contains "congress" _); [left; set_solver|].
  destruct (Str.contains "state senat" _); [left; set_solver|].
  destruct (Str.contains "governor" _); [left; set_solver|].
  by right.
Qed.

(** X2: [_clean_office] returns one of its five canonical names or the
    office unchanged, it leaves each of its results unchanged, and two
    offices that differ only in the case of their letters get the same name
    unless both are passed through unchanged. *)
Theorem clean_office_idempotent (office : string) :
  (_clean_office office ∈ canonical_offices ∨ _clean_office office = office)
  ∧ _clean_office (_clean_office office) = _clean_office office
  ∧ (∀ office', Str.lower office' = Str.lower office →
       _clean_office office' = _clean_office office
       ∨ (_clean_office office' = office' ∧ _clean_office office = office)).
Proof.
  split_and!.
  - destruct (clean_office_cases office) as [?|[? _]]; [by left|by right].
  - destruct (clean_office_cases office) as [Hc|(Hid & _)]; [|by rewrite Hid].
    unfold canonical_offices in Hc.
    repeat (apply elem_of_cons in Hc as [->|Hc]); [done..|by apply elem_of_nil in Hc].
  - intros office' Hl. unfold _clean_office. rewrite Hl.
    destruct (Str.contains "president" _); [by left|].
    destruct (Str.contains "u.s. senat" _); [by left|].
    destruct (Str.contains "congress" _); [by left|].
    destruct (Str.contains "state senat" _); [by left|].
    destruct (Str.contains "governor" _); [by left|].
    by right.
Qed.

(** ** Party names *)

Lemma clean_party_cases (party : string) :
  (party = "Both Parties" ∧ _clean_party party = None)
  ∨ (∃ abbrev, party ≠ "Both Parties"
               ∧ _clean_party party = Some abbrev
               ∧ abbrev ∈ ["UNF"; "DEM"; "REP"; "LIB"; "GRN"])
  ∨ (party ≠ "Both Parties" ∧ assoc party PARTY_MAP = None
     ∧ _clean_party party = Some party).
Proof.
  unfold _clean_party. case_bool_decide as Hb; [by left|]. right.
  destruct (assoc party PARTY_MAP) as [abbrev|] eqn:Ha; [left|by right].
  exists abbrev. split_and!; [done..|]. unfold PARTY_MAP in Ha. simpl in Ha.
  repeat (case_bool_decide; [injection Ha as <-; set_solver|]). done.
Qed.

(** X3: [_clean_party] returns None exactly for "Both Parties"; a value
    without an entry in the map is returned unchanged; and what it returns
    is left unchanged by a second cleaning. *)
Theorem clean_party_idempotent (party : string) :
  (_clean_party party = None ↔ party = "Both Parties")
  ∧ (assoc party PARTY_MAP = None → party ≠ "Both Parties" →
     _clean_party party = Some party)
  ∧ (∀ abbrev, _clean_party party = Some abbrev →
               _clean_party abbrev = Some abbrev).
Proof.
  split_and!.
  - destruct (clean_party_cases party) as [[-> H]|[(a & Hn & H & _)|(Hn & _ & H)]];
      rewrite H; split; done.
  - intros Ha Hb. unfold _clean_party. rewrite bool_decide_eq_false_2 by done.
    by rewrite Ha.
  - intros abbrev Hc.
    destruct (clean_party_cases party) as [[_ H]|[(a & _ & H & Ha)|(Hn & Hm & H)]];
      rewrite H in Hc; [done| |].
    + injection Hc as <-.
      repeat (apply elem_of_cons in Ha as [->|Ha]); [done..|by apply elem_of_nil in Ha].
    + injection Hc as <-. done.
Qed.

(** ** The filter of the loader *)

Lemma after_2000_valid (rr : RawResult.t) :
  valid_datetime (RawResult.end_date rr) →
  after_2000 rr = true
  ↔ RawResult.state rr = "MD" ∧ (2002 ≤ year (RawResult.end_date rr))%Z.
Proof.
  intros (Hm & Hd & Hh & Hmi & Hs & Hu).
  unfold after_2000, datetime_ge, datetime_fields. cbn [lex_ge year].
  rewrite andb_true_iff, bool_decide_eq_true. split.
  - intros [Hst H]. split; [done|].
    apply orb_prop in H as [H|H].
    + apply Z.ltb_lt in H. lia.
    + apply andb_prop in H as [H _]. apply Z.eqb_eq in H. lia.
  - intros [Hst Hy]. split; [done|].
    destruct (decide (year (RawResult.end_date rr) = 2002%Z)) as [->|Hne].
    + simpl.
      repeat match goal with
      | |- ((?a <? ?b)%Z || _) = true =>
          destruct (Z.ltb_spec a b); [done|]; simpl;
          replace (b =? a)%Z with true by (symmetry; apply Z.eqb_eq; lia); simpl
      end.
      try done.
    + replace (2002 <? year (RawResult.end_date rr))%Z with true; [done|].
      symmetry. apply Z.ltb_lt. lia.
Qed.

(** ** First occurrences *)

Section Firsts.

Context {A B : Type} `{Countable B} (key : A → B).

Lemma firsts_fresh (seen : gset B) (xs : list A) (x : A) :
  x ∈ firsts key seen xs → key x ∉ seen.
Proof.
  revert seen. induction xs as [|y xs IH]; intros seen; simpl.
  - by intros ?%elem_of_nil.
  - case_decide as Hy.
    + apply IH.
    + intros [->|Hx]%elem_of_cons; [done|].
      apply IH in Hx. set_solver.
Qed.

Lemma firsts_NoDup (seen : gset B) (xs : list A) :
  NoDup (key <$> firsts key seen xs).
Proof.
  revert seen. induction xs as [|y xs IH]; intros seen; simpl.
  - constructor.
  - case_decide as Hy; [apply IH|].
    rewrite fmap_cons. constructor; [|apply IH].
    intros (x & Hk & Hx)%list_elem_of_fmap.
    apply firsts_fresh in Hx. set_solver.
Qed.

Lemma firsts_cover (seen : gset B) (xs : list A) (x : A) :
  x ∈ xs → key x ∈ seen ∨ key x ∈ key <$> firsts key seen xs.
Proof.
  revert seen. induction xs as [|y xs IH]; intros seen; simpl.
  - by intros ?%elem_of_nil.
  - intros [->|Hx]%elem_of_cons.
    + case_decide as Hy; [by left|]. right. rewrite fmap_cons. left.
    + case_decide as Hy; [by apply IH|].
      destruct (IH ({[key y]} ∪ seen) Hx) as [Hs|Hf].
      * apply elem_of_union in Hs as [Hs%elem_of_singleton|Hs]; [|by left].
        right. rewrite fmap_cons, Hs. left.
      * right. rewrite fmap_cons. by right.
Qed.

Lemma firsts_first (seen : gset B) (xs : list A) (x : A) :
  x ∈ firsts key seen xs →
  ∃ pre post, xs = pre ++ x :: post ∧ key x ∉ key <$> pre.
Proof.
  revert seen. induction xs as [|y xs IH]; intros seen; simpl.
  - by intros ?%elem_of_nil.
  - case_decide as Hy.
    + intros Hx. pose proof (firsts_fresh _ _ _ Hx) as Hfresh.
      destruct (IH _ Hx) as (pre & post & -> & Hpre).
      exists (y :: pre), post. split; [done|].
      rewrite fmap_cons. intros [Heq|?]%elem_of_cons; [|done]. congruence.
    + intros [->|Hx]%elem_of_cons.
      * exists [], xs. split; [done|]. rewrite fmap_nil. by intros ?%elem_of_nil.
      * pose proof (firsts_fresh _ _ _ Hx) as Hfresh.
        destruct (IH _ Hx) as (pre & post & -> & Hpre).
        exists (y :: pre), post. split; [done|].
        rewrite fmap_cons. intros [Heq|?]%elem_of_cons; [|done]. set_solver.
Qed.

Lemma firsts_sublist (seen : gset B) (xs : list A) (x : A) :
  x ∈ firsts key seen xs → x ∈ xs.
Proof.
  intros (pre & post & -> & _)%firsts_first.
  apply elem_of_app. right. left.
Qed.

End Firsts.

(** ** The state monad *)

Section Passes.

Context {Office Party K : Type}.
Context `{!EqDecision Office, !EqDecision Party, !EqDecision K, !Countable K}.
Context `{!Collaborators Office Party K}.

Abbreviation state := (state (Office:=Office) (Party:=Party) (K:=K)).
Abbreviation M := (M (Office:=Office) (Party:=Party) (K:=K)).
Abbreviation Contest := (Contest (Office:=Office) (Party:=Party)).

Lemma bind_Ok {A B} (m : M A) (f : A → M B) (s : state) (r : B * state) :
  (m ≫= f) s = Ok r ↔ ∃ a s1, m s = Ok (a, s1) ∧ f a s1 = Ok r.
Proof.
  unfold mbind, M_bind. split.
  - destruct (m s) as [[a s1]|e]; [|done]. intros Hf. by exists a, s1.
  - by intros (a & s1 & -> & Hf).
Qed.

Lemma for_each_nil {A B} (body : B → A → M B) (acc : B) (s : state) :
  for_each [] body acc s = Ok (acc, s).
Proof. done. Qed.

Lemma for_each_cons {A B} (body : B → A → M B) x xs (acc : B) (s : state) r :
  for_each (x :: xs) body acc s = Ok r
  ↔ ∃ acc1 s1, body acc x s = Ok (acc1, s1) ∧ for_each xs body acc1 s1 = Ok r.
Proof. apply bind_Ok. Qed.

Lemma for_each_app {A B} (body : B → A → M B) xs ys (acc : B) (s : state) r :
  for_each (xs ++ ys) body acc s = Ok r
  ↔ ∃ acc1 s1, for_each xs body acc s = Ok (acc1, s1)
               ∧ for_each ys body acc1 s1 = Ok r.
Proof.
  revert acc s. induction xs as [|x xs IH]; intros acc s.
  - simpl. split; [by exists acc, s|]. by intros (? & ? & [= <- <-] & ?).
  - rewrite <- app_comm_cons, for_each_cons. split.
    + intros (acc1 & s1 & Hx & (acc2 & s2 & Hxs & Hys)%IH).
      exists acc2, s2. split; [|done]. apply for_each_cons. by exists acc1, s1.
    + intros (acc2 & s2 & (acc1 & s1 & Hx & Hxs)%for_each_cons & Hys).
      exists acc1, s1. split; [done|]. apply IH. by exists acc2, s2.
Qed.

(** *** Bulk inserts *)

Lemma set_Contest_objects_id (s : state) :
  set_Contest_objects (Contest_objects s) s = s.
Proof. by destruct s. Qed.

Lemma set_Candidate_objects_id (s : state) :
  set_Candidate_objects (Candidate_objects s) s = s.
Proof. by destruct s. Qed.

Lemma lift_insert_nothing_Ok (s : state) u s' :
  lift objects_insert_nothing s = Ok (u, s') → s' = s.
Proof. unfold lift. destruct objects_insert_nothing; [|done]. by intros [= _ <-]. Qed.

Lemma lift_insert_nothing_replay (s t : state) u s' :
  lift objects_insert_nothing s = Ok (u, s') →
  lift objects_insert_nothing t = Ok (tt, t).
Proof. unfold lift. by destruct objects_insert_nothing as [[]|]. Qed.

(** A completed insert has appended the documents. *)
Lemma Contest_objects_insert_Ok docs (s : state) u s' :
  Contest_objects_insert docs s = Ok (u, s') →
  s' = set_Contest_objects (Contest_objects s ++ docs) s.
Proof.
  destruct docs as [|d docs]; [|by intros [= _ <-]].
  intros ->%lift_insert_nothing_Ok. by rewrite app_nil_r, set_Contest_objects_id.
Qed.

Lemma Candidate_objects_insert_Ok docs (s : state) u s' :
  Candidate_objects_insert docs s = Ok (u, s') →
  s' = set_Candidate_objects (Candidate_objects s ++ docs) s.
Proof.
  destruct docs as [|d docs]; [|by intros [= _ <-]].
  intros ->%lift_insert_nothing_Ok. by rewrite app_nil_r, set_Candidate_objects_id.
Qed.

(** An insert that completes in one state completes in any other. *)
Lemma Contest_objects_insert_replay docs (s t : state) u s' :
  Contest_objects_insert docs s = Ok (u, s') →
  Contest_objects_insert docs t
  = Ok (tt, set_Contest_objects (Contest_objects t ++ docs) t).
Proof.
  destruct docs as [|d docs]; [|done].
  intros Hs. simpl. rewrite (lift_insert_nothing_replay _ t _ _ Hs).
  by rewrite app_nil_r, set_Contest_objects_id.
Qed.

Lemma Candidate_objects_insert_replay docs (s t : state) u s' :
  Candidate_objects_insert docs s = Ok (u, s') →
  Candidate_objects_insert docs t
  = Ok (tt, set_Candidate_objects (Candidate_objects t ++ docs) t).
Proof.
  destruct docs as [|d docs]; [|done].
  intros Hs. simpl. rewrite (lift_insert_nothing_replay _ t _ _ Hs).
  by rewrite app_nil_r, set_Candidate_objects_id.
Qed.

(** An insert completes if one of as many documents has completed. *)
Lemma Contest_objects_insert_length docs docs' (s t : state) u s' :
  length docs' = length docs →
  Contest_objects_insert docs s = Ok (u, s') →
  Contest_objects_insert docs' t
  = Ok (tt, set_Contest_objects (Contest_objects t ++ docs') t).
Proof.
  destruct docs as [|d docs], docs' as [|d' docs']; [|done..].
  intros _. apply Contest_objects_insert_replay.
Qed.

(** With a document to insert, the insert completes. *)
Lemma Result_objects_insert_cons docs (s : state) :
  docs ≠ [] →
  Result_objects_insert docs s
  = Ok (tt, set_Result_objects (Result_objects s ++ docs) s).
Proof. by destruct docs. Qed.

Lemma Contest_objects_insert_cons docs (s : state) :
  docs ≠ [] →
  Contest_objects_insert docs s
  = Ok (tt, set_Contest_objects (Contest_objects s ++ docs) s).
Proof. by destruct docs. Qed.

Lemma Candidate_objects_insert_cons docs (s : state) :
  docs ≠ [] →
  Candidate_objects_insert docs s
  = Ok (tt, set_Candidate_objects (Candidate_objects s ++ docs) s).
Proof. by destruct docs. Qed.

Lemma Result_objects_insert_snoc docs d (s : state) :
  Result_objects_insert (docs ++ [d]) s
  = Ok (tt, set_Result_objects (Result_objects s ++ docs ++ [d]) s).
Proof. by destruct docs. Qed.

Lemma bind_insert_snoc {B} docs d (f : unit → M B) (s : state) :
  (Result_objects_insert (docs ++ [d]) ≫= f) s
  = f tt (set_Result_objects (Result_objects s ++ docs ++ [d]) s).
Proof. unfold mbind, M_bind. by rewrite Result_objects_insert_snoc. Qed.

Lemma bufsiz_nonempty {A} (l : list A) : (bufsiz ≤ length l)%nat → l ≠ [].
Proof. intros Hlen ->. unfold bufsiz in Hlen. simpl in Hlen. lia. Qed.

Lemma length_nonempty {A} (l : list A) : length l ≠ 0%nat → l ≠ [].
Proof. by intros Hlen ->. Qed.

(** *** What a step may change *)

#[global] Instance caches_le_preorder : PreOrder (caches_le (Office:=Office) (Party:=Party) (K:=K)).
Proof.
  split.
  - by intros s.
  - intros s1 s2 s3 [Ho1 Hp1] [Ho2 Hp2]. split; by etrans.
Qed.

#[global] Instance same_rows_preorder : PreOrder (same_rows (Office:=Office) (Party:=Party) (K:=K)).
Proof.
  split.
  - by intros s.
  - intros s1 s2 s3 (? & ? & ? & ?) (? & ? & ? & ?). split_and!; congruence.
Qed.

#[global] Instance resolves_preorder : PreOrder (resolves (Office:=Office) (Party:=Party) (K:=K)).
Proof.
  split.
  - by intros s.
  - intros s1 s2 s3 (Hc1 & Hr1 & ?) (Hc2 & Hr2 & ?).
    split_and!; [by etrans|by etrans|congruence].
Qed.

(** *** Reference resolver *)

Lemma get_office_Ok (rr : RawResult.t) (s s' : state) (office : Office) :
  _get_office rr s = Ok (office, s') →
  resolves s s'
  ∧ office_cache s' !! Office_make_key (office_query_of rr) = Some office.
Proof.
  unfold _get_office, mbind, M_bind, gets, lift, modify, mret, M_ret, raise.
  destruct (office_cache s !! _) as [o|] eqn:Hc.
  - by intros [= <- <-].
  - destruct (Office_objects_get _) as [o|e]; [|done].
    case_bool_decide; [|done]. intros [= <- <-]. split.
    + repeat split; try done. simpl. by apply insert_subseteq.
    + simpl. apply lookup_insert_eq.
Qed.

Lemma get_office_hit (rr : RawResult.t) (s : state) (office : Office) :
  office_cache s !! Office_make_key (office_query_of rr) = Some office →
  _get_office rr s = Ok (office, s).
Proof.
  intros Hc. unfold _get_office, mbind, M_bind, gets. by rewrite Hc.
Qed.

Lemma get_party_Ok (rr : RawResult.t) attr (s s' : state) (p : option Party) :
  _get_party rr attr s = Ok (p, s') →
  resolves s s' ∧ party_known (party_cache s') (party_abbrev_of (attr rr)) p.
Proof.
  unfold _get_party, party_abbrev_of, party_known.
  destruct (negb (Str.truthy (attr rr))); [by intros [= <- <-]|].
  destruct (_clean_party (attr rr)) as [a|]; [|by intros [= <- <-]].
  destruct (negb (Str.truthy a)); [by intros [= <- <-]|].
  unfold mbind, M_bind, gets, lift, modify, mret, M_ret.
  destruct (party_cache s !! a) as [p'|] eqn:Hc.
  - intros [= <- <-]. split; [done|]. by exists p'.
  - destruct (Party_objects_get a) as [p'|e]; [|done]. intros [= <- <-]. split.
    + repeat split; try done. simpl. by apply insert_subseteq.
    + exists p'. split; [done|]. simpl. apply lookup_insert_eq.
Qed.

Lemma get_party_hit (rr : RawResult.t) attr (s : state) (p : option Party) :
  party_known (party_cache s) (party_abbrev_of (attr rr)) p →
  _get_party rr attr s = Ok (p, s).
Proof.
  unfold _get_party, party_abbrev_of, party_known.
  destruct (negb (Str.truthy (attr rr))); [by intros ->|].
  destruct (_clean_party (attr rr)) as [a|]; [|by intros ->].
  destruct (negb (Str.truthy a)); [by intros ->|].
  intros (p' & -> & Hc). unfold mbind, M_bind, gets. by rewrite Hc.
Qed.

Lemma party_known_weaken c c' a (p : option Party) :
  c ⊆ c' → party_known c a p → party_known c' a p.
Proof.
  intros Hc. destruct a as [a|]; simpl; [|done].
  intros (p' & -> & Hp). exists p'. split; [done|]. by eapply lookup_weaken.
Qed.

(** *** Contest fields *)

Lemma contest_resolved_weaken (s s' : state) rr fields :
  caches_le s s' → contest_resolved s rr fields → contest_resolved s' rr fields.
Proof.
  intros [Ho Hp] (office & party & -> & Hoc & Hpc).
  exists office, party. split_and!; [done| |].
  - by eapply lookup_weaken.
  - by eapply party_known_weaken.
Qed.

Lemma contest_built_weaken (s s' : state) rr c :
  caches_le s s' → contest_built s rr c → contest_built s' rr c.
Proof.
  intros Hle (fields & t & Hr & ->). exists fields, t.
  split; [|done]. by eapply contest_resolved_weaken.
Qed.

Lemma get_contest_fields_Ok (rr : RawResult.t) (s s' : state) fields :
  get_contest_fields rr s = Ok (fields, s') →
  resolves s s' ∧ contest_resolved s' rr fields.
Proof.
  unfold get_contest_fields.
  intros (office & s1 & Ho & (party & s2 & Hp & Hret)%bind_Ok)%bind_Ok.
  injection Hret as <- <-.
  apply get_office_Ok in Ho as [Hs1 Hoc].
  apply get_party_Ok in Hp as [Hs2 Hpc].
  split; [by etrans|]. exists office, party. split_and!; [done| |done].
  destruct Hs2 as [[Hle _] _]. by eapply lookup_weaken.
Qed.

Lemma get_contest_fields_hit (rr : RawResult.t) (s : state) fields :
  contest_resolved s rr fields → get_contest_fields rr s = Ok (fields, s).
Proof.
  intros (office & party & -> & Hoc & Hpc). unfold get_contest_fields.
  apply bind_Ok. exists office, s. split; [by apply get_office_hit|].
  apply bind_Ok. exists party, s. split; [by apply get_party_hit|done].
Qed.

(** *** Pass 1 *)

Lemma contests_step_Ok contests seen irr (s s' : state) acc' :
  contests_step (contests, seen) irr s = Ok (acc', s') →
  caches_le s s' ∧ same_rows s s'
  ∧ if decide (row_contest_key irr ∈ seen) then acc' = (contests, seen)
    else ∃ c, contest_built s' irr.2 c
              ∧ acc' = (contests ++ [c], {[row_contest_key irr]} ∪ seen).
Proof.
  unfold contests_step, row_contest_key. case_bool_decide as Hseen.
  - rewrite decide_False by done.
    intros (fields & s1 & Hf & (t & s2 & Ht & Hret)%bind_Ok)%bind_Ok.
    injection Hret as <- <-. injection Ht as <- <-.
    apply get_contest_fields_Ok in Hf as [(Hle & Hrows & _) Hres].
    split_and!; [done|done|]. exists (stamp (now (clock s1)) fields).
    split; [|done]. by exists fields, (now (clock s1)).
  - rewrite decide_True by done.
    by intros [= <- <-].
Qed.

Lemma contests_loop_Ok raws contests seen (s s' : state) contests' seen' :
  for_each raws contests_step (contests, seen) s = Ok ((contests', seen'), s') →
  caches_le s s' ∧ same_rows s s'
  ∧ ∃ new, contests' = contests ++ new
           ∧ Forall2 (λ irr c, contest_built s' irr.2 c)
               (firsts row_contest_key seen raws) new.
Proof.
  revert contests seen s. induction raws as [|irr raws IH]; intros contests seen s.
  - intros [= <- <- <-]. split_and!; [done|done|].
    exists []. by rewrite app_nil_r.
  - intros ([contests1 seen1] & s1 & Hstep & Hrest)%for_each_cons.
    apply contests_step_Ok in Hstep as (Hle1 & Hrows1 & Hacc).
    apply IH in Hrest as (Hle2 & Hrows2 & new & -> & Hnew).
    split_and!; [by etrans|by etrans|]. simpl. case_decide as Hseen.
    + injection Hacc as -> ->. by exists new.
    + destruct Hacc as (c & Hc & [= -> ->]). exists (c :: new).
      split; [by rewrite <- app_assoc|].
      constructor; [|done]. by eapply contest_built_weaken.
Qed.

Lemma create_unique_contests_Ok (s s' : state) (n : nat) :
  create_unique_contests_after_2000 s = Ok (n, s') →
  caches_le s s'
  ∧ RawResult_objects s' = RawResult_objects s
  ∧ Candidate_objects s' = Candidate_objects s
  ∧ Result_objects s' = Result_objects s
  ∧ ∃ created,
      Contest_objects s' = Contest_objects s ++ created
      ∧ n = length created
      ∧ Forall2 (λ irr c, contest_built s' irr.2 c)
          (firsts row_contest_key ∅ (raw_results_after_2000 s)) created.
Proof.
  unfold create_unique_contests_after_2000.
  intros (raws & s0 & [= <- <-]
          & ([contests seen] & s1 & Hloop & (u & s2 & Hins & Hret)%bind_Ok)%bind_Ok)%bind_Ok.
  apply Contest_objects_insert_Ok in Hins as ->. injection Hret as <- <-.
  apply contests_loop_Ok in Hloop as (Hle & (Hr & Hc & Hca & Hre) & new & -> & Hnew).
  split_and!; [done..|]. exists new. split_and!.
  - simpl. by rewrite Hc.
  - done.
  - eapply Forall2_impl; [exact Hnew|]. intros irr c. by apply contest_built_weaken.
Qed.

(** C5: a completed Pass 1 appends to the Contest collection one contest
    for each (election_id, corrected contest slug) key of the filtered
    stream: the rows the contests are built from bear pairwise distinct
    keys, every key of the stream is among them, and each of them is the
    first row of the stream with its key (the later rows are skipped). *)
Theorem one_contest_per_key (s s' : state) (n : nat) :
  create_unique_contests_after_2000 s = Ok (n, s') →
  ∃ srcs created,
    Contest_objects s' = Contest_objects s ++ created
    ∧ n = length created
    ∧ Forall2 (λ irr c, contest_built s' irr.2 c) srcs created
    ∧ NoDup (row_contest_key <$> srcs)
    ∧ (∀ irr, irr ∈ raw_results_after_2000 s →
              row_contest_key irr ∈ row_contest_key <$> srcs)
    ∧ (∀ irr, irr ∈ srcs →
              ∃ pre post, raw_results_after_2000 s = pre ++ irr :: post
                          ∧ row_contest_key irr ∉ row_contest_key <$> pre).
Proof.
  intros (_ & _ & _ & _ & created & Hc & Hn & Hbuilt)%create_unique_contests_Ok.
  exists (firsts row_contest_key ∅ (raw_results_after_2000 s)), created.
  split_and!; [done..| | |].
  - apply firsts_NoDup.
  - intros irr Hin.
    by destruct (firsts_cover row_contest_key ∅ _ _ Hin) as [?%not_elem_of_empty|].
  - intros irr Hin. by eapply firsts_first.
Qed.

(** *** Lookups in a collection *)

Lemma objects_get_Ok {A} (missing : exn) (p : A → bool) (rows : list A) i d :
  objects_get missing p rows = Ok (i, d) →
  rows !! i = Some d ∧ p d = true
  ∧ ∀ j d', rows !! j = Some d' → p d' = true → j = i.
Proof.
  unfold objects_get. destruct (find_all p 0 rows) as [|row [|row' l]] eqn:Hf; try done.
  intros [= ->].
  assert (Hin : ∀ j d', (j, d') ∈ find_all p 0 rows
                        ↔ rows !! j = Some d' ∧ p d' = true).
  { intros j d'. rewrite elem_of_find_all. split.
    - by intros (k & -> & ? & ?).
    - intros [? ?]. by exists j. }
  split_and!.
  - apply (Hin i d). rewrite Hf. left.
  - apply (Hin i d). rewrite Hf. left.
  - intros j d' Hj Hp. assert (Hjd : (j, d') ∈ find_all p 0 rows) by by apply Hin.
    rewrite Hf in Hjd. by apply list_elem_of_singleton in Hjd as [= -> _].
Qed.

Lemma opt_matches_refl {A} `{EqDecision A} (x : option A) : opt_matches x x = true.
Proof. destruct x; simpl; [by apply bool_decide_eq_true_2|done]. Qed.

Lemma party_known_functional c a (p p' : option Party) :
  party_known c a p → party_known c a p' → p = p'.
Proof.
  destruct a as [a|]; simpl; [|congruence].
  intros (q & -> & Hq) (q' & -> & Hq'). congruence.
Qed.

(** Two raw results with the same signature, resolved against the same
    caches: the query of one finds the contest built from the other. *)
Lemma contest_query_matches (s : state) rr rr' fields fields' t :
  contest_signature rr = contest_signature rr' →
  contest_resolved s rr fields → contest_resolved s rr' fields' →
  Contest_matches (pop_source fields') (stamp t fields) = true.
Proof.
  unfold contest_signature.
  intros [= He Hst Hsd Hed Het Hpt Hrt Hsp Hq Hp]
         (o & p & -> & Ho & Hpk) (o' & p' & -> & Ho' & Hpk').
  rewrite Hq in Ho. rewrite Hp in Hpk.
  assert (o = o') as -> by congruence.
  assert (p = p') as -> by by eapply party_known_functional.
  unfold Contest_matches, pop_source, stamp, contest_fields_of. simpl.
  rewrite He, Hst, Hsd, Hed, Het, Hpt, Hrt, Hsp, opt_matches_refl.
  by rewrite !bool_decide_eq_true_2.
Qed.

(** *** Pass 2 *)

Section Pass2.

(** The filtered stream, the size of the Contest collection before
    Pass 1 and the contests that Pass 1 appended. *)
Variable raws : list (nat * RawResult.t).
Variable base : nat.
Variable created : list Contest.

Hypothesis same_key_same_signature : ∀ irr irr',
  irr ∈ raws → irr' ∈ raws →
  contest_key irr.2 = contest_key irr'.2 →
  contest_signature irr.2 = contest_signature irr'.2.

Hypothesis same_cache_key_same_key : ∀ irr irr',
  irr ∈ raws → irr' ∈ raws →
  contest_cache_key irr.2 = contest_cache_key irr'.2 →
  contest_key irr.2 = contest_key irr'.2.

Local Abbreviation srcs := (firsts row_contest_key ∅ raws).
Local Abbreviation pass1_done := (after_pass1 base created srcs).
Local Abbreviation cache_ok := (contest_cache_ok raws base srcs).

Lemma after_pass1_resolves (s s' : state) :
  resolves s s' → pass1_done s → pass1_done s'.
Proof.
  intros (Hle & (_ & Hc & _) & _) (Hlen & Hrows & Hbuilt).
  split_and!.
  - by rewrite Hc.
  - intros j c Hj. rewrite Hc. by apply Hrows.
  - eapply Forall2_impl; [exact Hbuilt|]. intros irr c.
    by apply contest_built_weaken.
Qed.

Lemma contest_row_of_same_key irr irr' i :
  contest_key irr.2 = contest_key irr'.2 →
  contest_row_of base srcs irr i → contest_row_of base srcs irr' i.
Proof.
  intros Hk (j & src & Hj & Hsrc & ->). exists j, src.
  split_and!; [done|congruence|done].
Qed.

Lemma cached_get_contest_Ok irr cache (s s' : state) i c cache' :
  irr ∈ raws → pass1_done s → cache_ok cache →
  cached_get_contest irr.2 cache s = Ok ((i, c), cache', s') →
  resolves s s' ∧ cache_ok cache' ∧ contest_row_of base srcs irr i.
Proof.
  intros Hin Hs Hcache. unfold cached_get_contest.
  destruct (cache !! contest_cache_key irr.2) as [[i' c']|] eqn:Hhit.
  - intros [= -> -> <- <-]. split_and!; [done|done|].
    destruct (Hcache _ _ _ Hhit) as (irr' & Hin' & Hk & Hrow).
    eapply contest_row_of_same_key; [|exact Hrow].
    by apply same_cache_key_same_key.
  - intros (fields & s1 & Hf & (rows & s2 & [= <- <-]
            & ([i' c'] & s3 & Hget & [= -> -> <- <-])%bind_Ok)%bind_Ok)%bind_Ok.
    apply get_contest_fields_Ok in Hf as [Hres Hfields].
    unfold lift in Hget.
    destruct (objects_get _ _ _) as [[i'' c'']|e] eqn:Hobj; [|done].
    injection Hget as -> -> <-.
    apply objects_get_Ok in Hobj as (_ & _ & Huniq).
    pose proof (after_pass1_resolves _ _ Hres Hs) as (_ & Hrows & Hbuilt).
    assert (Hrow : contest_row_of base srcs irr i).
    { destruct (firsts_cover row_contest_key ∅ raws irr Hin)
        as [?%not_elem_of_empty|Hcover]; [done|].
      apply list_elem_of_fmap in Hcover as (src & Hk & Hsrc).
      apply list_elem_of_lookup in Hsrc as [j Hj].
      destruct (Forall2_lookup_l _ _ _ _ _ Hbuilt Hj)
        as (cj & Hcj & fj & t & Hfj & ->).
      assert (Hsrc : src ∈ raws)
        by (eapply firsts_sublist, list_elem_of_lookup_2, Hj).
      exists j, src. split_and!; [done|done|]. symmetry.
      apply Huniq with (d' := stamp t fj); [by apply Hrows|].
      eapply contest_query_matches; [|exact Hfj|exact Hfields].
      by apply same_key_same_signature. }
    split_and!; [done| |done].
    intros k i0 c0. rewrite lookup_insert. case_decide as Hk.
    + intros [= <- <-]. by exists irr.
    + apply Hcache.
Qed.

Lemma candidates_step_Ok cache cands seen irr (s s' : state) acc' :
  irr ∈ raws → pass1_done s → cache_ok cache →
  candidates_step (cache, cands, seen) irr s = Ok (acc', s') →
  resolves s s'
  ∧ if decide (row_candidate_key irr ∈ seen) then acc' = (cache, cands, seen)
    else ∃ cache' cand i,
           acc' = (cache', cands ++ [cand], {[row_candidate_key irr]} ∪ seen)
           ∧ cache_ok cache'
           ∧ candidate_contest cand = Some i
           ∧ contest_row_of base srcs irr i.
Proof.
  intros Hin Hs Hcache. unfold candidates_step, row_candidate_key.
  case_bool_decide as Hseen.
  - rewrite decide_False by done.
    intros (fields & s1 & Hf & ([[i c] cache'] & s2 & Hget & Hret)%bind_Ok)%bind_Ok.
    unfold lift in Hf. destruct (get_candidate_fields irr.2) as [f|e]; [|done].
    injection Hf as -> <-.
    apply cached_get_contest_Ok in Hget as (Hres & Hcache' & Hrow); [|done..].
    injection Hret as <- <-. split; [done|].
    eexists cache', _, i. split_and!; [reflexivity|done| |done].
    simpl. by repeat case_match.
  - rewrite decide_True by done. by intros [= <- <-].
Qed.

Lemma candidates_loop_Ok rows cache cands seen (s s' : state) cache' cands' seen' :
  Forall (λ irr, irr ∈ raws) rows → pass1_done s → cache_ok cache →
  for_each rows candidates_step (cache, cands, seen) s
  = Ok ((cache', cands', seen'), s') →
  resolves s s'
  ∧ ∃ new, cands' = cands ++ new
           ∧ Forall2 (λ irr cand, ∃ i, candidate_contest cand = Some i
                                       ∧ contest_row_of base srcs irr i)
               (firsts row_candidate_key seen rows) new.
Proof.
  revert cache cands seen s.
  induction rows as [|irr rows IH]; intros cache cands seen s Hsub Hs Hcache.
  - intros [= <- <- <- <-]. split; [done|]. exists []. by rewrite app_nil_r.
  - apply Forall_cons in Hsub as [Hin Hsub].
    intros ([[cache1 cands1] seen1] & s1 & Hstep & Hrest)%for_each_cons.
    apply candidates_step_Ok in Hstep as (Hres1 & Hacc); [|done..].
    pose proof (after_pass1_resolves _ _ Hres1 Hs) as Hs1.
    simpl. case_decide as Hseen.
    + injection Hacc as -> -> ->.
      apply IH in Hrest as (Hres2 & new & -> & Hnew); [|done..].
      split; [by etrans|]. by exists new.
    + destruct Hacc as (cache'' & cand & i & [= -> -> ->] & Hcache'' & Hi & Hrow).
      apply IH in Hrest as (Hres2 & new & -> & Hnew); [|done..].
      split; [by etrans|]. exists (cand :: new).
      split; [by rewrite <- app_assoc|].
      constructor; [by exists i|done].
Qed.

End Pass2.

(** C2, amended: when the rows of the filtered stream that share an
    (election_id, corrected contest slug) key agree on their contest
    signature (the contest fields other than the source, the office query
    and the cleaned primary party), and the rows that share the string
    "election_id-contest_slug" of the per-run cache share that key, a
    completed Pass 2 that follows a completed Pass 1 attaches to each
    candidate the contest row that Pass 1 created for the key of the row
    the candidate is built from. *)
Theorem candidate_contest_is_pass1_contest (s0 s1 s2 : state) (n1 n2 : nat) :
  create_unique_contests_after_2000 s0 = Ok (n1, s1) →
  create_unique_candidates_after_2000 s1 = Ok (n2, s2) →
  (∀ irr irr',
     irr ∈ raw_results_after_2000 s0 → irr' ∈ raw_results_after_2000 s0 →
     contest_key irr.2 = contest_key irr'.2 →
     contest_signature irr.2 = contest_signature irr'.2) →
  (∀ irr irr',
     irr ∈ raw_results_after_2000 s0 → irr' ∈ raw_results_after_2000 s0 →
     contest_cache_key irr.2 = contest_cache_key irr'.2 →
     contest_key irr.2 = contest_key irr'.2) →
  ∃ created candidates,
    Contest_objects s1 = Contest_objects s0 ++ created
    ∧ Forall2 (λ irr c, contest_built s1 irr.2 c)
        (firsts row_contest_key ∅ (raw_results_after_2000 s0)) created
    ∧ Candidate_objects s2 = Candidate_objects s1 ++ candidates
    ∧ n2 = length candidates
    ∧ Forall2 (λ irr candidate,
                 ∃ i, candidate_contest candidate = Some i
                      ∧ contest_row_of (length (Contest_objects s0))
                          (firsts row_contest_key ∅ (raw_results_after_2000 s0))
                          irr i)
        (firsts row_candidate_key ∅ (raw_results_after_2000 s0)) candidates.
Proof.
  intros (Hle & Hraw & _ & _ & created & Hc & _ & Hbuilt)%create_unique_contests_Ok
         Hpass2 Hsig Hkey.
  unfold create_unique_candidates_after_2000 in Hpass2.
  apply bind_Ok in Hpass2
    as (raws & s1' & [= <- <-]
        & ([[cache cands] seen] & s3 & Hloop & (u & s4 & Hins & Hret)%bind_Ok)%bind_Ok).
  apply Candidate_objects_insert_Ok in Hins as ->. injection Hret as <- <-.
  assert (Hraws : find_all after_2000 0 (RawResult_objects s1)
                  = raw_results_after_2000 s0)
    by (unfold raw_results_after_2000; by rewrite Hraw).
  rewrite Hraws in Hloop.
  eapply (candidates_loop_Ok (raw_results_after_2000 s0)
            (length (Contest_objects s0)) created Hsig Hkey) in Hloop
    as ((_ & (_ & _ & Hcand & _) & _) & new & -> & Hnew).
  - exists created, new. split_and!; [done|done| |done|done].
    simpl. by rewrite Hcand.
  - by apply Forall_forall.
  - split_and!.
    + by rewrite Hc, length_app.
    + intros j c Hj. rewrite Hc, lookup_app_r by lia.
      by replace (length (Contest_objects s0) + j - length (Contest_objects s0))%nat
        with j by lia.
    + done.
  - intros k i c. by rewrite lookup_empty.
Qed.

(** *** Pass 3 *)

Lemma set_Result_objects_id (s : state) :
  set_Result_objects (Result_objects s) s = s.
Proof. by destruct s. Qed.

Lemma filter_filter {A} (f : A → bool) (l : list A) :
  List.filter f (List.filter f l) = List.filter f l.
Proof.
  induction l as [|x l IH]; simpl; [done|].
  destruct (f x) eqn:Hx; simpl; [|done]. by rewrite Hx, IH.
Qed.

Lemma filter_none {A} (f : A → bool) (l : list A) :
  Forall (λ x, f x = false) l → List.filter f l = [].
Proof.
  induction 1 as [|x l Hx _ IH]; simpl; [done|]. by rewrite Hx.
Qed.

Lemma delete_old_results_eq (s : state) :
  delete_old_results s = Ok (tt, after_delete s).
Proof. done. Qed.

Lemma cached_get_candidate_Ok rr cache (s s' : state) i c cache' :
  candidate_cache_ok s cache →
  cached_get_candidate rr cache s = Ok ((i, c), cache', s') →
  s' = s ∧ candidate_cache_ok s cache' ∧ Candidate_objects s !! i = Some c
  ∧ ∀ t : state, Candidate_objects t = Candidate_objects s →
      cached_get_candidate rr cache t = Ok ((i, c), cache', t).
Proof.
  intros Hcache. unfold cached_get_candidate.
  destruct (cache !! candidate_cache_key rr) as [[i' c']|] eqn:Hhit.
  - intros [= -> -> <- <-]. split_and!; [done|done|by eapply Hcache|done].
  - unfold mbind, M_bind, lift, gets, mret, M_ret.
    destruct (get_candidate_fields rr) as [fields|e]; [|done].
    destruct (objects_get _ _ (Candidate_objects s)) as [[i' c']|e] eqn:Hobj; [|done].
    intros [= -> -> <- <-]. split_and!; [done| | |].
    + intros k i0 c0. rewrite lookup_insert. case_decide; [|by apply Hcache].
      intros [= <- <-]. by apply objects_get_Ok in Hobj as (? & _).
    + by apply objects_get_Ok in Hobj as (? & _).
    + intros t ->. by rewrite Hobj.
Qed.

Lemma results_step_Ok cache buf n irr (s s' : state) cache' buf' n' :
  candidate_cache_ok s cache →
  results_step (cache, buf, n) irr s = Ok ((cache', buf', n'), s') →
  ∃ r ins,
    result_built (Candidate_objects s) irr r
    ∧ candidate_cache_ok s cache'
    ∧ ins ++ buf' = buf ++ [r]
    ∧ n' = (n + length ins)%nat
    ∧ resolves (set_Result_objects (Result_objects s ++ ins) s) s'
    ∧ ∀ t : state,
        Candidate_objects t = Candidate_objects s →
        party_cache s' ⊆ party_cache t →
        results_step (cache, buf, n) irr t
        = Ok ((cache', buf', n'), set_Result_objects (Result_objects t ++ ins) t).
Proof.
  intros Hcache. unfold results_step.
  intros ([[i c] cache1] & s1 & Hcand & (party & s2 & Hparty & Hret)%bind_Ok)%bind_Ok.
  apply cached_get_candidate_Ok in Hcand as (-> & Hcache1 & Hic & Hreplay); [|done].
  pose proof Hparty as [Hres Hknown]%get_party_Ok.
  set (r := Build_Result _ _ _ _ _ _ _ _ _ _ _ _ _ _ _) in Hret.
  assert (Hr : result_built (Candidate_objects s) irr r).
  { split_and!; [done..|]. by exists c. }
  case_bool_decide as Hfull.
  - unfold mbind, M_bind in Hret. rewrite Result_objects_insert_snoc in Hret.
    injection Hret as <- <- <- <-. exists r, (buf ++ [r]).
    split_and!; [done|done|by rewrite app_nil_r|done| |].
    + destruct Hres as ([? ?] & (? & ? & ? & Hre) & ?).
      unfold resolves, caches_le, same_rows. simpl. rewrite Hre. by split_and!.
    + intros t Ht Hle. apply bind_Ok. eexists (_, _), t.
      split; [by apply Hreplay|]. apply bind_Ok. exists party, t. split.
      * apply get_party_hit. eapply party_known_weaken; [exact Hle|done].
      * fold r. rewrite bool_decide_eq_true_2 by done.
        unfold mbind, M_bind. by rewrite Result_objects_insert_snoc.
  - injection Hret as <- <- <- <-. exists r, [].
    split_and!; [done|done|done|simpl; lia| |].
    + by rewrite app_nil_r, set_Result_objects_id.
    + intros t Ht Hle. apply bind_Ok. eexists (_, _), t.
      split; [by apply Hreplay|]. apply bind_Ok. exists party, t. split.
      * apply get_party_hit. eapply party_known_weaken; [exact Hle|done].
      * fold r. rewrite bool_decide_eq_false_2 by done.
        by rewrite app_nil_r, set_Result_objects_id.
Qed.

Lemma candidate_cache_ok_same (s s' : state) cache :
  Candidate_objects s' = Candidate_objects s →
  candidate_cache_ok s cache → candidate_cache_ok s' cache.
Proof. intros Heq Hc k i c. rewrite Heq. apply Hc. Qed.

Lemma results_loop_Ok raws cache buf n (s s' : state) cache' buf' n' :
  candidate_cache_ok s cache →
  for_each raws results_step (cache, buf, n) s = Ok ((cache', buf', n'), s') →
  ∃ new ins,
    Forall2 (result_built (Candidate_objects s)) raws new
    ∧ ins ++ buf' = buf ++ new
    ∧ n' = (n + length ins)%nat
    ∧ resolves (set_Result_objects (Result_objects s ++ ins) s) s'
    ∧ ∀ t : state,
        Candidate_objects t = Candidate_objects s →
        party_cache s' ⊆ party_cache t →
        for_each raws results_step (cache, buf, n) t
        = Ok ((cache', buf', n'), set_Result_objects (Result_objects t ++ ins) t).
Proof.
  revert cache buf n s. induction raws as [|irr raws IH]; intros cache buf n s Hcache.
  - intros [= <- <- <- <-]. exists [], [].
    split_and!; [done|by rewrite app_nil_r|simpl; lia| |].
    + by rewrite app_nil_r, set_Result_objects_id.
    + intros t _ _. by rewrite app_nil_r, set_Result_objects_id.
  - intros ([[cache1 buf1] n1] & s1 & Hstep & Hrest)%for_each_cons.
    apply results_step_Ok in Hstep
      as (r & ins1 & Hr & Hcache1 & Hbuf1 & -> & Hres1 & Hreplay1); [|done].
    pose proof Hres1 as (Hle1 & (Hraw1 & Hcon1 & Hcand1 & Hre1) & Hclock1).
    simpl in Hcand1, Hre1.
    apply IH in Hrest
      as (new & ins2 & Hnew & Hbuf2 & -> & Hres2 & Hreplay2);
      [|by eapply candidate_cache_ok_same].
    pose proof Hres2 as (Hle2 & _).
    exists (r :: new), (ins1 ++ ins2). split_and!.
    + constructor; [done|]. by rewrite <- Hcand1.
    + rewrite <- app_assoc, Hbuf2, app_assoc, Hbuf1, <- app_assoc. done.
    + rewrite length_app. lia.
    + etrans; [|exact Hres2]. rewrite Hre1, <- app_assoc.
      destruct Hle1 as [? ?].
      unfold resolves, caches_le, same_rows. simpl in *. by split_and!.
    + intros t Ht Hle. apply for_each_cons. eexists (_, _, _), _. split.
      * apply Hreplay1; [done|]. etrans; [|exact Hle]. apply Hle2.
      * rewrite Hreplay2; [|simpl; congruence|done]. simpl.
        by rewrite <- app_assoc.
Qed.

Lemma set_Result_objects_set rows rows' (s : state) :
  set_Result_objects rows (set_Result_objects rows' s) = set_Result_objects rows s.
Proof. done. Qed.

Lemma result_built_in_scope (s : state) irr r :
  irr ∈ raw_results_after_2000 s →
  result_built (Candidate_objects s) irr r →
  in_scope (election_scope s) r = true.
Proof.
  intros Hin (_ & He & _). unfold in_scope, election_scope.
  apply bool_decide_eq_true_2. rewrite He.
  apply elem_of_remove_dups, list_elem_of_fmap. by exists irr.
Qed.

Lemma kept_results_stable (s s' : state) created :
  RawResult_objects s' = RawResult_objects s →
  Result_objects s' = kept_results s ++ created →
  Forall (λ r, in_scope (election_scope s) r = true) created →
  kept_results s' = kept_results s.
Proof.
  intros Hraw Hre Hscope.
  assert (Hes : election_scope s' = election_scope s)
    by (unfold election_scope, raw_results_after_2000; by rewrite Hraw).
  unfold kept_results at 1. rewrite Hes, Hre, List.filter_app.
  unfold kept_results at 1. rewrite filter_filter. fold (kept_results s).
  rewrite filter_none; [by rewrite app_nil_r|].
  eapply Forall_impl; [exact Hscope|]. by intros r ->.
Qed.

(** A completed Pass 3, and the same pass once more. *)
Lemma create_unique_results_Ok (s s' : state) (n : nat) :
  create_unique_results_after_2000 s = Ok (n, s') →
  ∃ created,
    Forall2 (result_built (Candidate_objects s)) (raw_results_after_2000 s) created
    ∧ n = length created
    ∧ resolves (set_Result_objects (kept_results s ++ created) s) s'
    ∧ create_unique_results_after_2000 s' = Ok (n, s').
Proof.
  unfold create_unique_results_after_2000.
  intros (u & sd & Hdel & (raws & sd' & [= <- <-]
          & ([[cache buf] m] & sl & Hloop & Hret)%bind_Ok)%bind_Ok)%bind_Ok.
  rewrite delete_old_results_eq in Hdel. injection Hdel as _ <-.
  change (find_all after_2000 0 (RawResult_objects (after_delete s)))
    with (raw_results_after_2000 s) in Hloop.
  apply results_loop_Ok in Hloop
    as (new & ins & Hnew & Hbuf & -> & Hres & Hreplay);
    [|intros k i c; by rewrite lookup_empty].
  change (Candidate_objects (after_delete s)) with (Candidate_objects s) in Hnew.
  change (set_Result_objects (Result_objects (after_delete s) ++ ins) (after_delete s))
    with (set_Result_objects (kept_results s ++ ins) s) in Hres.
  change (0 + length ins)%nat with (length ins) in *.
  simpl in Hbuf.
  pose proof Hres as ([Hoc Hpc] & (Hraw & Hcon & Hcand & Hre) & Hclock).
  simpl in Hraw, Hcon, Hcand, Hre, Hclock, Hoc, Hpc.
  assert (Hscope : Forall (λ r, in_scope (election_scope s) r = true) new).
  { apply Forall_forall. intros r Hr.
    apply list_elem_of_lookup in Hr as [j Hj].
    destruct (Forall2_lookup_r _ _ _ _ _ Hnew Hj) as (irr & Hirr & Hb).
    eapply result_built_in_scope; [|exact Hb]. by eapply list_elem_of_lookup_2. }
  exists new. split; [done|].
  assert (Hlen : (length ins + length buf = length new)%nat)
    by by rewrite <- length_app, Hbuf.
  case_bool_decide as Hflush.
  - apply bind_Ok in Hret as (u' & s1 & Hins & Hret).
    rewrite Result_objects_insert_cons in Hins by by apply length_nonempty.
    injection Hins as _ <-. injection Hret as <- <-.
    assert (Hre' : Result_objects sl ++ buf = kept_results s ++ new)
      by by rewrite Hre, <- app_assoc, Hbuf.
    split_and!; [simpl; lia| |].
    + unfold resolves, caches_le, same_rows. simpl. by rewrite Hre'.
    + set (s' := set_Result_objects (Result_objects sl ++ buf) sl).
      assert (Hkept : kept_results s' = kept_results s).
      { eapply kept_results_stable; [|exact Hre'|done]. done. }
      apply bind_Ok. exists tt, (after_delete s').
      split; [apply delete_old_results_eq|].
      apply bind_Ok. exists (raw_results_after_2000 s), (after_delete s').
      split.
      { unfold get_raw_results_after_2000, mbind, M_bind, gets, mret, M_ret.
        simpl. unfold raw_results_after_2000. by rewrite Hraw. }
      apply bind_Ok. eexists (_, _, _), _. split.
      { apply Hreplay; [simpl; congruence|done]. }
      simpl. rewrite bool_decide_eq_true_2 by done.
      apply bind_Ok. eexists tt, _.
      split; [by apply Result_objects_insert_cons, length_nonempty|].
      unfold mret, M_ret. do 2 f_equal. simpl.
      unfold after_delete. rewrite Hkept, !set_Result_objects_set.
      unfold s'. rewrite set_Result_objects_set. f_equal.
      by rewrite Hre, <- !app_assoc.
  - injection Hret as <- <-.
    assert (Hnil : buf = []).
    { by destruct buf. }
    subst buf. rewrite app_nil_r in Hbuf. subst ins. simpl in Hlen.
    split_and!; [lia|done|].
    assert (Hkept : kept_results sl = kept_results s).
    { eapply kept_results_stable; [|exact Hre|done]. done. }
    apply bind_Ok. exists tt, (after_delete sl).
    split; [apply delete_old_results_eq|].
    apply bind_Ok. exists (raw_results_after_2000 s), (after_delete sl).
    split.
    { unfold get_raw_results_after_2000, mbind, M_bind, gets, mret, M_ret.
      simpl. unfold raw_results_after_2000. by rewrite Hraw. }
    apply bind_Ok. eexists (_, _, _), _. split.
    { apply Hreplay; [simpl; congruence|done]. }
    simpl. unfold mret, M_ret. do 2 f_equal.
    unfold after_delete. rewrite Hkept, !set_Result_objects_set, <- Hre.
    apply set_Result_objects_id.
Qed.

(** *** Pass 3: the candidate resolved for each row *)

Lemma first_cached_app k done rest x :
  first_cached k done = Some x → first_cached k (done ++ rest) = Some x.
Proof.
  unfold first_cached. induction done as [|y done IH]; simpl; [done|].
  by case_bool_decide.
Qed.

Lemma first_cached_snoc k done irr :
  first_cached k done = None →
  candidate_cache_key irr.2 = k →
  first_cached k (done ++ [irr]) = Some irr.
Proof.
  unfold first_cached. intros Hnone Hk.
  induction done as [|y done IH]; simpl in *.
  - by rewrite bool_decide_eq_true_2.
  - case_bool_decide; [done|]. by apply IH.
Qed.

Lemma first_cached_elem k done x :
  first_cached k done = Some x → x ∈ done ∧ candidate_cache_key x.2 = k.
Proof.
  unfold first_cached. intros [Hin Hk]%List.find_some.
  split; [by apply list_elem_of_In|]. by apply bool_decide_eq_true_1 in Hk.
Qed.

Lemma first_cached_miss candidates done cache k :
  candidate_cache_resolved candidates done cache →
  cache !! k = None → first_cached k done = None.
Proof.
  intros [_ Hall] Hmiss.
  destruct (first_cached k done) as [x|] eqn:Hx; [|done].
  apply first_cached_elem in Hx as [Hin <-].
  apply Hall in Hin as [ic Hic]. congruence.
Qed.

Lemma candidate_resolved_app candidates done rest k ic :
  candidate_resolved candidates done k ic →
  candidate_resolved candidates (done ++ rest) k ic.
Proof.
  intros (first & fields & Hfirst & Hfields & Hget).
  exists first, fields. split_and!; [by apply first_cached_app|done|done].
Qed.

Lemma result_of_resolved_app candidates done rest irr r :
  result_of_resolved candidates done irr r →
  result_of_resolved candidates (done ++ rest) irr r.
Proof.
  intros (Hraw & candidate & Hres & Hrow & Hcon). split; [done|].
  exists candidate. split_and!; [by apply candidate_resolved_app|done|done].
Qed.

(** The lookup through the per-run cache gives the candidate resolved for
    the row, and keeps the cache as described. *)
Lemma cached_get_candidate_resolved done irr cache (s s' : state) ic cache' :
  candidate_cache_resolved (Candidate_objects s) done cache →
  cached_get_candidate irr.2 cache s = Ok (ic, cache', s') →
  s' = s
  ∧ candidate_cache_resolved (Candidate_objects s) (done ++ [irr]) cache'
  ∧ candidate_resolved (Candidate_objects s) (done ++ [irr])
      (candidate_cache_key irr.2) ic.
Proof.
  intros Hcache. pose proof Hcache as [Hres Hall]. unfold cached_get_candidate.
  destruct (cache !! candidate_cache_key irr.2) as [ic'|] eqn:Hhit.
  - intros [= -> <- <-]. split_and!; [done| |].
    + split.
      * intros k ic' Hk. by apply candidate_resolved_app, Hres.
      * intros x [Hx|Hx%list_elem_of_singleton]%elem_of_app; [by apply Hall|].
        subst x. by rewrite Hhit.
    + by apply candidate_resolved_app, Hres.
  - unfold mbind, M_bind, lift, gets, mret, M_ret.
    destruct (get_candidate_fields irr.2) as [fields|e] eqn:Hfields; [|done].
    destruct (objects_get _ _ (Candidate_objects s)) as [ic'|e] eqn:Hobj; [|done].
    intros [= -> <- <-].
    assert (Hnew : candidate_resolved (Candidate_objects s) (done ++ [irr])
                     (candidate_cache_key irr.2) ic).
    { exists irr, fields. split_and!; [|done|done].
      apply first_cached_snoc; [|done]. by eapply first_cached_miss. }
    split_and!; [done| |done]. split.
    + intros k ic'. rewrite lookup_insert. case_decide as Hk.
      * intros [= <-]. by rewrite <- Hk.
      * intros Hic'. by apply candidate_resolved_app, Hres.
    + intros x [Hx|Hx%list_elem_of_singleton]%elem_of_app.
      * rewrite lookup_insert. case_decide; [done|by apply Hall].
      * subst x. rewrite lookup_insert. by rewrite decide_True.
Qed.

Lemma results_step_resolved done cache buf n irr (s s' : state) cache' buf' n' :
  candidate_cache_resolved (Candidate_objects s) done cache →
  results_step (cache, buf, n) irr s = Ok ((cache', buf', n'), s') →
  ∃ r ins,
    result_of_resolved (Candidate_objects s) (done ++ [irr]) irr r
    ∧ candidate_cache_resolved (Candidate_objects s) (done ++ [irr]) cache'
    ∧ ins ++ buf' = buf ++ [r]
    ∧ Candidate_objects s' = Candidate_objects s
    ∧ Result_objects s' = Result_objects s ++ ins.
Proof.
  intros Hcache. unfold results_step.
  intros ([[i c] cache1] & s1 & Hcand & (party & s2 & Hparty & Hret)%bind_Ok)%bind_Ok.
  apply cached_get_candidate_resolved with (done := done) in Hcand
    as (-> & Hcache1 & Hic); [|done].
  pose proof Hparty as [(_ & (_ & _ & Hcand & Hre) & _) _]%get_party_Ok.
  set (r := Build_Result _ _ _ _ _ _ _ _ _ _ _ _ _ _ _) in Hret.
  assert (Hr : result_of_resolved (Candidate_objects s) (done ++ [irr]) irr r).
  { split; [done|]. exists c. split_and!; [done| |done].
    destruct Hic as (first & fields & _ & _ & Hget).
    by apply objects_get_Ok in Hget as (? & _). }
  case_bool_decide as Hfull.
  - unfold mbind, M_bind in Hret. rewrite Result_objects_insert_snoc in Hret.
    injection Hret as <- <- <- <-. exists r, (buf ++ [r]).
    split_and!; [done|done|by rewrite app_nil_r|done|]. simpl. by rewrite Hre.
  - injection Hret as <- <- <- <-. exists r, [].
    split_and!; [done|done|done|done|]. by rewrite app_nil_r.
Qed.

Lemma results_loop_resolved done raws cache buf n (s s' : state) cache' buf' n' :
  candidate_cache_resolved (Candidate_objects s) done cache →
  for_each raws results_step (cache, buf, n) s = Ok ((cache', buf', n'), s') →
  ∃ new ins,
    Forall2 (result_of_resolved (Candidate_objects s) (done ++ raws)) raws new
    ∧ ins ++ buf' = buf ++ new
    ∧ Candidate_objects s' = Candidate_objects s
    ∧ Result_objects s' = Result_objects s ++ ins.
Proof.
  revert done cache buf n s.
  induction raws as [|irr raws IH]; intros done cache buf n s Hcache.
  - intros [= <- <- <- <-]. exists [], [].
    split_and!; [done|by rewrite app_nil_r|done|by rewrite app_nil_r].
  - intros ([[cache1 buf1] n1] & s1 & Hstep & Hrest)%for_each_cons.
    apply results_step_resolved with (done := done) in Hstep
      as (r & ins1 & Hr & Hcache1 & Hbuf1 & Hcand1 & Hre1); [|done].
    rewrite <- Hcand1 in Hcache1.
    apply IH with (done := done ++ [irr]) in Hrest
      as (new & ins2 & Hnew & Hbuf2 & Hcand2 & Hre2); [|done].
    rewrite <- app_assoc in Hnew. simpl in Hnew.
    exists (r :: new), (ins1 ++ ins2). split_and!.
    + constructor; [|by rewrite <- Hcand1].
      apply (result_of_resolved_app _ _ raws) in Hr.
      by rewrite <- app_assoc in Hr.
    + rewrite <- app_assoc, Hbuf2, app_assoc, Hbuf1, <- app_assoc. done.
    + congruence.
    + by rewrite Hre2, Hre1, <- app_assoc.
Qed.

Lemma parse_write_in_true (rr : RawResult.t) :
  _parse_write_in rr = true
  ↔ RawResult.write_in rr = "Y" ∨ RawResult.family_name rr = "zz998".
Proof.
  unfold _parse_write_in. repeat case_bool_decide; split; try done; auto.
  by intros [?|?].
Qed.

Lemma Forall2_fmap_eq {A B C} (f : B → C) (g : A → C) (l : list A) (k : list B) :
  Forall2 (λ x y, f y = g x) l k → f <$> k = g <$> l.
Proof. induction 1 as [|x y l k Hxy _ IH]; [done|]. by rewrite !fmap_cons, Hxy, IH. Qed.

(** C4, amended: the write-in flag of the result that Pass 3 creates for
    a raw result is true if and only if the raw write-in marker is "Y" or
    the family name of the raw result itself is the sentinel "zz998". *)
Theorem write_in_flag_of_raw_result (s s' : state) (n : nat) :
  create_unique_results_after_2000 s = Ok (n, s') →
  ∃ created,
    Result_objects s' = kept_results s ++ created
    ∧ Forall2 (λ irr r,
                 result_raw_result r = irr.1
                 ∧ (result_write_in r = true
                    ↔ RawResult.write_in irr.2 = "Y"
                      ∨ RawResult.family_name irr.2 = "zz998"))
        (raw_results_after_2000 s) created.
Proof.
  intros (created & Hbuilt & _ & (_ & (_ & _ & _ & Hre) & _) & _)%create_unique_results_Ok.
  exists created. split; [done|].
  eapply Forall2_impl; [exact Hbuilt|].
  intros irr r (Hraw & _ & Hw & _). split; [done|].
  rewrite Hw. apply parse_write_in_true.
Qed.

(** C6: for every row of the filtered stream, in the order of the
    stream, a completed Pass 3 has created one result; it refers to the raw
    result of the row and to the candidate resolved for the row, and its
    contest is the contest of that candidate. And at every point of the
    pass, that is after any prefix of the stream, the same holds of the rows
    of the prefix and the results already inserted followed by the results
    in the buffer. *)
Theorem result_contest_is_candidate_contest (s s' : state) (n : nat) :
  create_unique_results_after_2000 s = Ok (n, s') →
  (∃ created,
     Result_objects s' = kept_results s ++ created
     ∧ Forall2 (result_of_resolved (Candidate_objects s') (raw_results_after_2000 s))
         (raw_results_after_2000 s) created)
  ∧ ∀ pre post,
      raw_results_after_2000 s = pre ++ post →
      ∃ cache buf m t inserted,
        results_loop pre (after_delete s) = Ok ((cache, buf, m), t)
        ∧ Result_objects t = kept_results s ++ inserted
        ∧ Candidate_objects t = Candidate_objects s'
        ∧ Forall2 (result_of_resolved (Candidate_objects t) (raw_results_after_2000 s))
            pre (inserted ++ buf).
Proof.
  intros Hrun.
  assert (Hempty : candidate_cache_resolved (Candidate_objects (after_delete s)) [] ∅).
  { split; [intros k ic; by rewrite lookup_empty|by intros x ?%elem_of_nil]. }
  pose proof Hrun
    as (created0 & _ & _ & (_ & (_ & _ & Hcand & _) & _) & _)%create_unique_results_Ok.
  simpl in Hcand. unfold create_unique_results_after_2000 in Hrun.
  apply bind_Ok in Hrun as (u & sd & Hdel & (raws & sd' & [= <- <-]
          & ([[cache buf] m] & sl & Hloop & Hret)%bind_Ok)%bind_Ok).
  rewrite delete_old_results_eq in Hdel. injection Hdel as _ <-.
  change (find_all after_2000 0 (RawResult_objects (after_delete s)))
    with (raw_results_after_2000 s) in Hloop.
  split.
  - apply results_loop_resolved with (done := []) in Hloop
      as (new & ins & Hnew & Hbuf & _ & Hre); [|done].
    simpl in Hnew, Hbuf, Hre. rewrite Hcand. exists new. split; [|done].
    case_bool_decide as Hflush.
    + apply bind_Ok in Hret as (u' & s1 & Hins & Hret).
      rewrite Result_objects_insert_cons in Hins by by apply length_nonempty.
      injection Hins as _ <-. injection Hret as _ <-. simpl.
      by rewrite Hre, <- app_assoc, Hbuf.
    + injection Hret as _ <-. destruct buf; [|done].
      rewrite app_nil_r in Hbuf. by rewrite Hre, Hbuf.
  - intros pre post Hsplit. unfold results_loop. rewrite Hsplit in Hloop.
    apply for_each_app in Hloop as ([[cache0 buf0] m0] & t & Hpre & Hpost).
    exists cache0, buf0, m0, t.
    pose proof Hpre as (new & ins & Hnew & Hbuf & Hcand' & Hre)%(results_loop_resolved []);
      [|done].
    simpl in Hnew, Hbuf, Hcand', Hre. exists ins.
    split_and!; [done|done|congruence|].
    rewrite Hbuf, Hcand'. eapply Forall2_impl; [exact Hnew|].
    intros irr r Hr. rewrite Hsplit. by apply result_of_resolved_app.
Qed.

(** C7: a completed Pass 3 leaves in the Result collection the former
    results of the elections out of the filtered scope, none of the former
    results of the scope, and after them one new result for each filtered
    raw result, in the order of the stream, so the count it reports is the
    length of the stream; the same pass run again on the state it leaves
    completes with the same count and leaves that state unchanged; and any
    completed run on a state with the same raw results and the same
    results reports the same count and leaves as many results. *)
Theorem results_replaced_on_rerun (s s' : state) (n : nat) :
  create_unique_results_after_2000 s = Ok (n, s') →
  ∃ created,
    Result_objects s' = kept_results s ++ created
    ∧ (∀ r, r ∈ kept_results s
            ↔ r ∈ Result_objects s ∧ in_scope (election_scope s) r = false)
    ∧ Forall (λ r, in_scope (election_scope s) r = true) created
    ∧ result_raw_result <$> created = fst <$> raw_results_after_2000 s
    ∧ n = length (raw_results_after_2000 s)
    ∧ create_unique_results_after_2000 s' = Ok (n, s')
    ∧ ∀ (t t' : state) (m : nat),
        RawResult_objects t = RawResult_objects s' →
        Result_objects t = Result_objects s' →
        create_unique_results_after_2000 t = Ok (m, t') →
        m = n ∧ length (Result_objects t') = length (Result_objects s').
Proof.
  intros (created & Hbuilt & -> & (_ & (Hraw & _ & _ & Hre) & _) & Hagain)%create_unique_results_Ok.
  simpl in Hraw, Hre.
  assert (Hscope : Forall (λ r, in_scope (election_scope s) r = true) created).
  { apply Forall_forall. intros r Hr.
    apply list_elem_of_lookup in Hr as [j Hj].
    destruct (Forall2_lookup_r _ _ _ _ _ Hbuilt Hj) as (irr & Hirr & Hb).
    eapply result_built_in_scope; [|exact Hb]. by eapply list_elem_of_lookup_2. }
  assert (Hlen : length created = length (raw_results_after_2000 s))
    by (symmetry; by eapply Forall2_length).
  exists created. split_and!; [done| |done| |done|done|].
  - intros r. unfold kept_results.
    rewrite !list_elem_of_In, List.filter_In, negb_true_iff. done.
  - apply Forall2_fmap_eq. eapply Forall2_impl; [exact Hbuilt|].
    by intros irr r (? & _).
  - intros t t' m Hrawt Hret
      (created' & Hbuilt' & -> & (_ & (_ & _ & _ & Hre') & _) & _)%create_unique_results_Ok.
    simpl in Hre'.
    assert (Hraws : raw_results_after_2000 t = raw_results_after_2000 s)
      by (unfold raw_results_after_2000; congruence).
    assert (Hkept : kept_results t = kept_results s).
    { eapply kept_results_stable; [congruence| |exact Hscope]. congruence. }
    apply Forall2_length in Hbuilt'. rewrite Hraws in Hbuilt'.
    split; [congruence|].
    rewrite Hre', Hre, Hkept, !length_app. congruence.
Qed.

(** *** Pass 2 without assumptions on the stream *)

Lemma contest_cache_rows_resolves (s s' : state) cache :
  resolves s s' → contest_cache_rows s cache → contest_cache_rows s' cache.
Proof. intros (_ & (_ & Hc & _) & _) Hrows k i c. rewrite Hc. apply Hrows. Qed.

Lemma cached_get_contest_rows rr cache (s s' : state) i c cache' :
  contest_cache_rows s cache →
  cached_get_contest rr cache s = Ok ((i, c), cache', s') →
  resolves s s'
  ∧ contest_cache_rows s' cache'
  ∧ Contest_objects s !! i = Some c
  ∧ cache' !! contest_cache_key rr = Some (i, c)
  ∧ cache ⊆ cache'.
Proof.
  intros Hcache. unfold cached_get_contest.
  destruct (cache !! contest_cache_key rr) as [[i' c']|] eqn:Hhit.
  - intros [= -> -> <- <-]. split_and!; [done|done|by eapply Hcache|done|done].
  - intros (fields & s1 & Hf & (rows & s2 & [= <- <-]
            & ([i' c'] & s3 & Hget & [= -> -> <- <-])%bind_Ok)%bind_Ok)%bind_Ok.
    apply get_contest_fields_Ok in Hf as [Hres _].
    unfold lift in Hget.
    destruct (objects_get _ _ _) as [[i'' c'']|e] eqn:Hobj; [|done].
    injection Hget as -> -> <-.
    apply objects_get_Ok in Hobj as (Hrow & _ & _).
    pose proof Hres as (_ & (_ & Hc & _) & _).
    split_and!; [done| |by rewrite <- Hc|apply lookup_insert_eq|by apply insert_subseteq].
    intros k i0 c0. rewrite lookup_insert. case_decide.
    + by intros [= <- <-].
    + intros Hk. eapply contest_cache_rows_resolves; [exact Hres|exact Hcache|exact Hk].
Qed.

Lemma candidates_step_built cache cands seen irr (s s' : state) acc' :
  contest_cache_rows s cache →
  candidates_step (cache, cands, seen) irr s = Ok (acc', s') →
  resolves s s'
  ∧ if decide (row_candidate_key irr ∈ seen) then acc' = (cache, cands, seen)
    else ∃ cache' candidate,
           acc' = (cache', cands ++ [candidate], {[row_candidate_key irr]} ∪ seen)
           ∧ contest_cache_rows s' cache'
           ∧ candidate_built (Contest_objects s) irr candidate.
Proof.
  intros Hcache. unfold candidates_step, row_candidate_key.
  case_bool_decide as Hseen.
  - rewrite decide_False by done.
    intros (fields & s1 & Hf & ([[i c] cache'] & s2 & Hget & Hret)%bind_Ok)%bind_Ok.
    unfold lift in Hf. destruct (get_candidate_fields irr.2) as [f|e] eqn:Hfields; [|done].
    injection Hf as -> <-.
    apply cached_get_contest_rows in Hget as (Hres & Hcache' & Hrow & _); [|done].
    injection Hret as <- <-. split; [done|].
    eexists cache', _. split_and!; [reflexivity|done|].
    by exists fields, i, c.
  - rewrite decide_True by done. by intros [= <- <-].
Qed.

Lemma candidates_loop_built rows cache cands seen (s s' : state) cache' cands' seen' :
  contest_cache_rows s cache →
  for_each rows candidates_step (cache, cands, seen) s
  = Ok ((cache', cands', seen'), s') →
  resolves s s'
  ∧ ∃ new, cands' = cands ++ new
           ∧ Forall2 (candidate_built (Contest_objects s))
               (firsts row_candidate_key seen rows) new.
Proof.
  revert cache cands seen s.
  induction rows as [|irr rows IH]; intros cache cands seen s Hcache.
  - intros [= <- <- <- <-]. split; [done|]. exists []. by rewrite app_nil_r.
  - intros ([[cache1 cands1] seen1] & s1 & Hstep & Hrest)%for_each_cons.
    apply candidates_step_built in Hstep as (Hres1 & Hacc); [|done].
    pose proof Hres1 as (_ & (_ & Hc & _) & _).
    simpl. case_decide as Hseen.
    + injection Hacc as -> -> ->.
      apply IH in Hrest as (Hres2 & new & -> & Hnew);
        [|by eapply contest_cache_rows_resolves].
      split; [by etrans|]. exists new. by rewrite <- Hc.
    + destruct Hacc as (cache'' & cand & [= -> -> ->] & Hcache'' & Hcand).
      apply IH in Hrest as (Hres2 & new & -> & Hnew); [|done].
      split; [by etrans|]. exists (cand :: new).
      split; [by rewrite <- app_assoc|].
      constructor; [done|]. by rewrite <- Hc.
Qed.

Lemma create_unique_candidates_Ok (s s' : state) (n : nat) :
  create_unique_candidates_after_2000 s = Ok (n, s') →
  caches_le s s'
  ∧ RawResult_objects s' = RawResult_objects s
  ∧ Contest_objects s' = Contest_objects s
  ∧ Result_objects s' = Result_objects s
  ∧ ∃ candidates,
      Candidate_objects s' = Candidate_objects s ++ candidates
      ∧ n = length candidates
      ∧ Forall2 (candidate_built (Contest_objects s))
          (firsts row_candidate_key ∅ (raw_results_after_2000 s)) candidates.
Proof.
  unfold create_unique_candidates_after_2000.
  intros (raws & s0 & [= <- <-]
          & ([[cache cands] seen] & s1 & Hloop & (u & s2 & Hins & Hret)%bind_Ok)%bind_Ok)%bind_Ok.
  apply Candidate_objects_insert_Ok in Hins as ->. injection Hret as <- <-.
  apply candidates_loop_built in Hloop
    as ((Hle & (Hr & Hc & Hca & Hre) & _) & new & -> & Hnew);
    [|intros k i c; by rewrite lookup_empty].
  split_and!; [done..|]. exists new. split_and!; [|done|done].
  simpl. by rewrite Hca.
Qed.

Lemma get_candidate_fields_bare rr fields :
  get_candidate_fields rr = Ok fields →
  candidate_contest fields = None ∧ candidate_flags fields = None
  ∧ candidate_source fields = RawResult.source rr
  ∧ candidate_election_id fields = RawResult.election_id rr
  ∧ candidate_state fields = RawResult.state rr.
Proof.
  unfold get_candidate_fields, get_candidate_fields_2002,
    get_candidate_fields_after_2000.
  repeat case_bool_decide; intros [= <-]; done.
Qed.

Lemma candidate_of_fields fields i :
  candidate_source (candidate_of fields i) = candidate_source fields
  ∧ candidate_election_id (candidate_of fields i) = candidate_election_id fields
  ∧ candidate_state (candidate_of fields i) = candidate_state fields
  ∧ candidate_full_name (candidate_of fields i) = candidate_full_name fields
  ∧ candidate_given_name (candidate_of fields i) = candidate_given_name fields
  ∧ candidate_family_name (candidate_of fields i) = candidate_family_name fields
  ∧ candidate_additional_name (candidate_of fields i)
    = candidate_additional_name fields
  ∧ candidate_suffix (candidate_of fields i) = candidate_suffix fields
  ∧ candidate_contest (candidate_of fields i) = Some i.
Proof. unfold candidate_of. simpl. by repeat case_match. Qed.

Lemma candidate_of_flags fields i :
  candidate_flags fields = None →
  candidate_flags (candidate_of fields i)
  = if bool_decide (candidate_full_name fields = "Other Write-Ins")
    then Some ["aggregate"] else None.
Proof.
  intros Hf. unfold candidate_of. simpl. case_bool_decide as Hn.
  - by rewrite Hn.
  - by destruct (Str.contains _ _).
Qed.

Lemma candidate_of_matches fields i :
  candidate_contest fields = None → candidate_flags fields = None →
  Candidate_matches fields (candidate_of fields i) = true.
Proof.
  intros Hc Hf.
  destruct (candidate_of_fields fields i)
    as (H1 & H2 & H3 & H4 & H5 & H6 & H7 & H8 & _).
  unfold Candidate_matches.
  rewrite H1, H2, H3, H4, H5, H6, H7, H8, Hc, Hf, !opt_matches_refl.
  by rewrite !bool_decide_eq_true_2.
Qed.

(** X9: a completed Pass 2 appends to the Candidate collection one
    candidate for each (election_id, candidate_slug) key of the filtered
    stream, built from the candidate fields of the first row with that key
    and attached to a contest that is a row of the Contest collection; the
    Contest and Result collections and the raw results are as before. *)
Theorem one_candidate_per_key (s s' : state) (n : nat) :
  create_unique_candidates_after_2000 s = Ok (n, s') →
  ∃ srcs candidates,
    Candidate_objects s' = Candidate_objects s ++ candidates
    ∧ n = length candidates
    ∧ Forall2 (candidate_built (Contest_objects s')) srcs candidates
    ∧ NoDup (row_candidate_key <$> srcs)
    ∧ (∀ irr, irr ∈ raw_results_after_2000 s →
              row_candidate_key irr ∈ row_candidate_key <$> srcs)
    ∧ (∀ irr, irr ∈ srcs →
              ∃ pre post, raw_results_after_2000 s = pre ++ irr :: post
                          ∧ row_candidate_key irr ∉ row_candidate_key <$> pre).
Proof.
  intros (_ & _ & Hc & _ & cands & Hca & Hn & Hbuilt)%create_unique_candidates_Ok.
  exists (firsts row_candidate_key ∅ (raw_results_after_2000 s)), cands.
  split_and!; [done|done|by rewrite Hc| | |].
  - apply firsts_NoDup.
  - intros irr Hin.
    by destruct (firsts_cover row_candidate_key ∅ _ _ Hin) as [?%not_elem_of_empty|].
  - intros irr Hin. by eapply firsts_first.
Qed.

(** X10: among the candidates that a completed Pass 2 creates, exactly
    those whose full name is "Other Write-Ins" carry the flag "aggregate";
    the others carry no flags. *)
Theorem aggregate_flag_of_write_ins (s s' : state) (n : nat) :
  create_unique_candidates_after_2000 s = Ok (n, s') →
  ∃ candidates,
    Candidate_objects s' = Candidate_objects s ++ candidates
    ∧ Forall (λ candidate,
                candidate_flags candidate
                = if decide (candidate_full_name candidate = "Other Write-Ins")
                  then Some ["aggregate"] else None) candidates.
Proof.
  intros (_ & _ & _ & _ & cands & Hca & _ & Hbuilt)%create_unique_candidates_Ok.
  exists cands. split; [done|]. apply Forall_forall. intros cand Hin.
  apply list_elem_of_lookup in Hin as [j Hj].
  destruct (Forall2_lookup_r _ _ _ _ _ Hbuilt Hj)
    as (irr & _ & fields & i & c & Hf & _ & ->).
  apply get_candidate_fields_bare in Hf as (_ & Hflags & _).
  rewrite candidate_of_flags by done.
  destruct (candidate_of_fields fields i) as (_ & _ & _ & -> & _).
  case_bool_decide; by case_decide.
Qed.

(** X11: after a completed Pass 2, the candidate fields that Pass 3
    derives from the first row of each candidate key match, as a query, a
    candidate of the collection: the candidate that Pass 2 created from
    that row. *)
Theorem candidate_query_finds_created (s s' : state) (n : nat) :
  create_unique_candidates_after_2000 s = Ok (n, s') →
  Forall (λ irr,
            ∃ fields j candidate,
              get_candidate_fields irr.2 = Ok fields
              ∧ Candidate_objects s' !! j = Some candidate
              ∧ Candidate_matches fields candidate = true
              ∧ candidate_built (Contest_objects s') irr candidate)
    (firsts row_candidate_key ∅ (raw_results_after_2000 s)).
Proof.
  intros (_ & _ & Hc & _ & cands & Hca & _ & Hbuilt)%create_unique_candidates_Ok.
  apply Forall_forall. intros irr Hin.
  apply list_elem_of_lookup in Hin as [j Hj].
  destruct (Forall2_lookup_l _ _ _ _ _ Hbuilt Hj)
    as (cand & Hcand & fields & i & c & Hf & Hi & ->).
  exists fields, (length (Candidate_objects s) + j)%nat, (candidate_of fields i).
  pose proof (get_candidate_fields_bare _ _ Hf) as (Hcon & Hflags & _).
  split_and!; [done| |by apply candidate_of_matches|].
  - rewrite Hca, lookup_app_r by lia.
    by replace (length (Candidate_objects s) + j - length (Candidate_objects s))%nat
      with j by lia.
  - rewrite Hc. by exists fields, i, c.
Qed.

(** *** The resolvers and the per-run caches *)

Lemma truthy_false (x : string) : Str.truthy x = false ↔ x = "".
Proof. by destruct x. Qed.

Lemma party_abbrev_of_None (raw : string) :
  party_abbrev_of raw = None ↔ raw = "" ∨ raw = "Both Parties".
Proof.
  unfold party_abbrev_of. destruct raw as [|a raw]; [by split; [left|]|].
  cbn [Str.truthy negb].
  destruct (clean_party_cases (String a raw))
    as [[-> H]|[(abbrev & Hn & H & Ha)|(Hn & _ & H)]]; rewrite H.
  - split; [by right|done].
  - assert (Str.truthy abbrev = true) as ->.
    { repeat (apply elem_of_cons in Ha as [->|Ha]); [done..|by apply elem_of_nil in Ha]. }
    split; [done|]. by intros [?|?].
  - split; [done|]. by intros [?|?].
Qed.

Lemma party_abbrev_of_Some (raw abbrev : string) :
  party_abbrev_of raw = Some abbrev → _clean_party raw = Some abbrev.
Proof.
  unfold party_abbrev_of. destruct (negb (Str.truthy raw)); [done|].
  destruct (_clean_party raw) as [a|]; [|done].
  by destruct (negb (Str.truthy a)).
Qed.

(** X5: a completed [_get_office] leaves the office in the cache under the
    key of the query; on a miss the office is the one the store returns for
    the query and it carries that key; and from then on every raw result
    whose query has the same key gets the same office from the cache, with
    no change of the state. *)
Theorem get_office_memoized (rr : RawResult.t) (s s' : state) (office : Office) :
  _get_office rr s = Ok (office, s') →
  office_cache s' !! Office_make_key (office_query_of rr) = Some office
  ∧ (office_cache s !! Office_make_key (office_query_of rr) = None →
     Office_objects_get (office_query_of rr) = Ok office
     ∧ Office_key office = Office_make_key (office_query_of rr)
     ∧ office_cache s'
       = <[Office_make_key (office_query_of rr) := office]> (office_cache s))
  ∧ (∀ rr' (t : state),
       Office_make_key (office_query_of rr') = Office_make_key (office_query_of rr) →
       office_cache s' ⊆ office_cache t →
       _get_office rr' t = Ok (office, t)).
Proof.
  intros Hget. pose proof Hget as [_ Hc]%get_office_Ok. split_and!.
  - done.
  - intros Hmiss. revert Hget.
    unfold _get_office, mbind, M_bind, gets, lift, modify, mret, M_ret, raise.
    rewrite Hmiss.
    destruct (Office_objects_get _) as [o|e]; [|done].
    case_bool_decide as Hk; [|done]. by intros [= <- <-].
  - intros rr' t Hk Hle. apply get_office_hit. rewrite Hk.
    by eapply lookup_weaken.
Qed.

(** X6: [_get_office] raises only on a cache miss: either the exception
    of the store for the query, or AssertionError when the office that the
    store returns does not carry the key of the query. *)
Theorem get_office_raises (rr : RawResult.t) (s : state) (e : exn) :
  _get_office rr s = Raise e →
  office_cache s !! Office_make_key (office_query_of rr) = None
  ∧ (Office_objects_get (office_query_of rr) = Raise e
     ∨ ∃ office, Office_objects_get (office_query_of rr) = Ok office
                 ∧ Office_key office ≠ Office_make_key (office_query_of rr)
                 ∧ e = AssertionError).
Proof.
  unfold _get_office, mbind, M_bind, gets, lift, modify, mret, M_ret, raise.
  destruct (office_cache s !! _) as [o|]; [done|].
  destruct (Office_objects_get _) as [o|e']; [|intros [= ->]; by split; [|left]].
  case_bool_decide as Hk; [done|]. intros [= <-]. split; [done|]. right.
  exists o. by split_and!.
Qed.

(** X7: [_get_party] returns no party exactly when the raw value is empty
    or "Both Parties", and then leaves the state as it is; otherwise the
    party is in the cache under the cleaned abbreviation; and from then on
    every raw result with the same cleaned value gets the same answer from
    the cache, with no change of the state. *)
Theorem get_party_memoized (rr : RawResult.t) (attr : RawResult.t → string)
    (s s' : state) (p : option Party) :
  _get_party rr attr s = Ok (p, s') →
  (p = None ↔ attr rr = "" ∨ attr rr = "Both Parties")
  ∧ (p = None → s' = s)
  ∧ (∀ party, p = Some party →
       ∃ abbrev, _clean_party (attr rr) = Some abbrev
                 ∧ party_cache s' !! abbrev = Some party)
  ∧ (∀ rr' (t : state),
       party_abbrev_of (attr rr') = party_abbrev_of (attr rr) →
       party_cache s' ⊆ party_cache t →
       _get_party rr' attr t = Ok (p, t)).
Proof.
  intros Hget. pose proof Hget as [_ Hknown]%get_party_Ok. split_and!.
  - rewrite <- party_abbrev_of_None.
    destruct (party_abbrev_of (attr rr)) as [a|]; simpl in Hknown.
    + destruct Hknown as (p' & -> & _). done.
    + by subst p.
  - intros ->. revert Hget. unfold _get_party.
    destruct (negb (Str.truthy (attr rr))); [by intros [= <-]|].
    destruct (_clean_party (attr rr)) as [a|]; [|by intros [= <-]].
    destruct (negb (Str.truthy a)); [by intros [= <-]|].
    unfold mbind, M_bind, gets, lift, modify, mret, M_ret.
    destruct (party_cache s !! a); [done|].
    by destruct (Party_objects_get a).
  - intros party ->.
    destruct (party_abbrev_of (attr rr)) as [a|] eqn:Ha; simpl in Hknown; [|done].
    destruct Hknown as (p' & [= <-] & Hc). exists a.
    split; [by apply party_abbrev_of_Some|done].
  - intros rr' t Ha Hle. apply get_party_hit. rewrite Ha.
    by eapply party_known_weaken.
Qed.

(** X17: a completed [cached_get_contest] only adds to the per-run
    cache, the contest it returns is then cached under the string
    "election_id-contest_slug", and a later call for any raw result with the
    same string returns this contest whatever the collections hold. *)
Theorem contest_cache_memoizes (rr : RawResult.t) cache (s s' : state) contest cache' :
  cached_get_contest rr cache s = Ok (contest, cache', s') →
  cache ⊆ cache'
  ∧ cache' !! contest_cache_key rr = Some contest
  ∧ ∀ rr' (t : state),
      contest_cache_key rr' = contest_cache_key rr →
      cached_get_contest rr' cache' t = Ok (contest, cache', t).
Proof.
  intros Hget.
  assert (Hc : cache ⊆ cache' ∧ cache' !! contest_cache_key rr = Some contest).
  { revert Hget. unfold cached_get_contest.
    destruct (cache !! contest_cache_key rr) as [c|] eqn:Hhit.
    - by intros [= <- <- <-].
    - intros (fields & s1 & _ & (rows & s2 & _
              & (c & s3 & _ & [= <- <- <-])%bind_Ok)%bind_Ok)%bind_Ok.
      split; [by apply insert_subseteq|apply lookup_insert_eq]. }
  destruct Hc as [Hsub Hc]. split_and!; [done..|].
  intros rr' t Hk. unfold cached_get_contest. by rewrite Hk, Hc.
Qed.

(** X18: a completed [cached_get_candidate] leaves the state as it is,
    only adds to the per-run cache, returns a row of the Candidate
    collection when the cache held rows of it, and a later call for any raw
    result with the same string "election_id-candidate_slug" returns the
    same candidate whatever the collections hold. *)
Theorem candidate_cache_memoizes (rr : RawResult.t) cache (s s' : state)
    i candidate cache' :
  cached_get_candidate rr cache s = Ok ((i, candidate), cache', s') →
  s' = s
  ∧ cache ⊆ cache'
  ∧ cache' !! candidate_cache_key rr = Some (i, candidate)
  ∧ (candidate_cache_ok s cache →
     Candidate_objects s !! i = Some candidate ∧ candidate_cache_ok s cache')
  ∧ ∀ rr' (t : state),
      candidate_cache_key rr' = candidate_cache_key rr →
      cached_get_candidate rr' cache' t = Ok ((i, candidate), cache', t).
Proof.
  intros Hget.
  assert (Hc : s' = s ∧ cache ⊆ cache'
               ∧ cache' !! candidate_cache_key rr = Some (i, candidate)).
  { revert Hget. unfold cached_get_candidate.
    destruct (cache !! candidate_cache_key rr) as [c|] eqn:Hhit.
    - by intros [= <- <- <-].
    - unfold mbind, M_bind, lift, gets, mret, M_ret.
      destruct (get_candidate_fields rr) as [fields|e]; [|done].
      destruct (objects_get _ _ _) as [c|e]; [|done].
      intros [= <- <- <-].
      split_and!; [done|by apply insert_subseteq|apply lookup_insert_eq]. }
  destruct Hc as (-> & Hsub & Hc). split_and!; [done..| |].
  - intros Hok. by apply cached_get_candidate_Ok in Hget as (_ & ? & ? & _).
  - intros rr' t Hk. unfold cached_get_candidate. by rewrite Hk, Hc.
Qed.

(** *** What the passes leave alone *)

(** X8: a completed pass writes to its own collection only, and only by
    appending (Pass 3 after its deletion): Pass 1 to the contests, Pass 2
    to the candidates, Pass 3 to the results; the raw results are never
    changed, and the cached offices and parties are kept. *)
Theorem passes_write_their_collection (s s' : state) (n : nat) :
  (create_unique_contests_after_2000 s = Ok (n, s') →
   caches_le s s'
   ∧ RawResult_objects s' = RawResult_objects s
   ∧ (∃ created, Contest_objects s' = Contest_objects s ++ created)
   ∧ Candidate_objects s' = Candidate_objects s
   ∧ Result_objects s' = Result_objects s)
  ∧ (create_unique_candidates_after_2000 s = Ok (n, s') →
     caches_le s s'
     ∧ RawResult_objects s' = RawResult_objects s
     ∧ Contest_objects s' = Contest_objects s
     ∧ (∃ created, Candidate_objects s' = Candidate_objects s ++ created)
     ∧ Result_objects s' = Result_objects s)
  ∧ (create_unique_results_after_2000 s = Ok (n, s') →
     caches_le s s'
     ∧ RawResult_objects s' = RawResult_objects s
     ∧ Contest_objects s' = Contest_objects s
     ∧ Candidate_objects s' = Candidate_objects s
     ∧ (∃ created, Result_objects s' = kept_results s ++ created)).
Proof.
  split_and!.
  - intros (? & ? & ? & ? & created & ? & _)%create_unique_contests_Ok.
    split_and!; [done..|by exists created|done|done].
  - intros (? & ? & ? & ? & created & ? & _)%create_unique_candidates_Ok.
    split_and!; [done..|by exists created|done].
  - intros (created & _ & _ & (Hle & (? & ? & ? & ?) & _) & _)%create_unique_results_Ok.
    split_and!; [done..|by exists created].
Qed.

(** *** An empty stream *)

Lemma filter_all {A} (f : A → bool) (l : list A) :
  Forall (λ x, f x = true) l → List.filter f l = l.
Proof. induction 1 as [|x l Hx _ IH]; simpl; [done|]. by rewrite Hx, IH. Qed.

(** X16: with no raw result in the filtered stream, Pass 3 deletes
    nothing and, behind its guard, inserts nothing: it completes, reports 0
    and leaves the state as it was, whatever the driver does with an empty
    list of documents. Pass 1 and Pass 2 hand their empty list to the
    driver unguarded: when the driver returns they report 0 and leave the
    state as it was, and so do the three registered passes in turn; when it
    raises, they raise its exception, and the run stops in Pass 1. *)
Theorem empty_stream_unguarded_insert (s : state) :
  raw_results_after_2000 s = [] →
  create_unique_results_after_2000 s = Ok (0%nat, s)
  ∧ match objects_insert_nothing with
    | Ok _ =>
        create_unique_contests_after_2000 s = Ok (0%nat, s)
        ∧ create_unique_candidates_after_2000 s = Ok (0%nat, s)
        ∧ run registered s = Ok ([0; 0; 0]%nat, s)
    | Raise e =>
        create_unique_contests_after_2000 s = Raise e
        ∧ create_unique_candidates_after_2000 s = Raise e
        ∧ run registered s = Raise e
    end.
Proof.
  intros Hraws.
  assert (Hget : get_raw_results_after_2000 s = Ok ([], s)).
  { unfold get_raw_results_after_2000, mbind, M_bind, gets, mret, M_ret.
    fold (raw_results_after_2000 s). by rewrite Hraws. }
  assert (H1 : create_unique_contests_after_2000 s
               = (lift objects_insert_nothing ≫= λ _, mret 0%nat) s).
  { unfold create_unique_contests_after_2000.
    unfold mbind at 1. unfold M_bind at 1. by rewrite Hget. }
  assert (H2 : create_unique_candidates_after_2000 s
               = (lift objects_insert_nothing ≫= λ _, mret 0%nat) s).
  { unfold create_unique_candidates_after_2000.
    unfold mbind at 1. unfold M_bind at 1. by rewrite Hget. }
  assert (H3 : create_unique_results_after_2000 s = Ok (0%nat, s)).
  { unfold create_unique_results_after_2000. apply bind_Ok.
    exists tt, s. split.
    - rewrite delete_old_results_eq. do 2 f_equal.
      unfold after_delete, kept_results, election_scope. rewrite Hraws.
      rewrite filter_all; [apply set_Result_objects_id|].
      apply Forall_forall. intros r _. unfold in_scope.
      apply negb_true_iff, bool_decide_eq_false_2. by intros ?%elem_of_nil.
    - apply bind_Ok. exists [], s. split; [done|].
      apply bind_Ok. by exists (∅, [], 0%nat), s. }
  split; [done|].
  unfold mbind, M_bind, lift, mret, M_ret in H1, H2.
  unfold registered. cbn [run].
  destruct objects_insert_nothing as [[]|e] eqn:Hd.
  - split_and!; [done|done|].
    apply bind_Ok. exists 0%nat, s. split; [done|].
    apply bind_Ok. eexists _, s. split; [|done].
    apply bind_Ok. exists 0%nat, s. split; [done|].
    apply bind_Ok. eexists _, s. split; [|done].
    apply bind_Ok. exists 0%nat, s. split; [done|].
    apply bind_Ok. by exists [], s.
  - split_and!; [done|done|]. unfold mbind at 1. unfold M_bind at 1.
    by rewrite H1.
Qed.

(** *** The results that Pass 3 deletes *)

(** X19: [get_results_after_2000] leaves the state as it is and selects
    the results whose election id is the election id of some filtered raw
    result, whatever raw result they were made from; Pass 3 first deletes
    exactly these. *)
Theorem results_selected_for_deletion (s : state) :
  ∃ ids old,
    get_results_after_2000 s = Ok ((ids, old), s)
    ∧ (∀ r, r ∈ old
            ↔ r ∈ Result_objects s
              ∧ ∃ irr, irr ∈ raw_results_after_2000 s
                       ∧ RawResult.election_id irr.2 = result_election_id r)
    ∧ ∃ s', delete_old_results s = Ok (tt, s')
            ∧ ∀ r, r ∈ Result_objects s' ↔ r ∈ Result_objects s ∧ r ∉ old.
Proof.
  assert (Hscope : ∀ r, in_scope (election_scope s) r = true
                        ↔ ∃ irr, irr ∈ raw_results_after_2000 s
                                 ∧ RawResult.election_id irr.2 = result_election_id r).
  { intros r. unfold in_scope, election_scope.
    rewrite bool_decide_eq_true, elem_of_remove_dups, list_elem_of_fmap.
    split; intros (irr & ? & ?); by exists irr. }
  exists (election_scope s), (List.filter (in_scope (election_scope s)) (Result_objects s)).
  split_and!.
  - done.
  - intros r. rewrite list_elem_of_In, List.filter_In, <- list_elem_of_In.
    by rewrite Hscope.
  - exists (after_delete s). split; [apply delete_old_results_eq|].
    intros r. unfold after_delete, kept_results. simpl.
    rewrite !list_elem_of_In, !List.filter_In, negb_true_iff. split.
    + intros [Hin Hout]. split; [done|]. intros [_ Hs]. congruence.
    + intros [Hin Hout]. split; [done|].
      destruct (in_scope (election_scope s) r) eqn:Hs; [|done].
      by destruct Hout.
Qed.

(** *** The filtered stream *)

(** X4: [get_raw_results_after_2000] leaves the state as it is, and a raw
    result with a date of the calendar as its end date is in the stream it
    returns, at its position in the collection, exactly when its state is
    "MD" and the year of its end date is at least 2002. *)
Theorem raw_results_filtered (s : state) (i : nat) (rr : RawResult.t) :
  valid_datetime (RawResult.end_date rr) →
  get_raw_results_after_2000 s = Ok (raw_results_after_2000 s, s)
  ∧ ((i, rr) ∈ raw_results_after_2000 s
     ↔ RawResult_objects s !! i = Some rr
       ∧ RawResult.state rr = "MD"
       ∧ (2002 ≤ year (RawResult.end_date rr))%Z).
Proof.
  intros Hvalid. split; [done|].
  unfold raw_results_after_2000. rewrite elem_of_find_all.
  rewrite <- (after_2000_valid rr Hvalid). split.
  - by intros (k & -> & ? & ?).
  - intros [? ?]. by exists i.
Qed.

(** *** The buffer of Pass 3 *)

Lemma bufsiz_pos : (0 < bufsiz)%nat.
Proof. unfold bufsiz. lia. Qed.

Lemma results_step_buffer cache buf n irr (s s' : state) cache' buf' n' :
  (length buf < bufsiz)%nat →
  results_step (cache, buf, n) irr s = Ok ((cache', buf', n'), s') →
  (length buf' < bufsiz)%nat
  ∧ (n' + length buf' = n + length buf + 1)%nat
  ∧ (n' = n ∨ n' = n + bufsiz)%nat
  ∧ (length (Result_objects s') + n = length (Result_objects s) + n')%nat.
Proof.
  intros Hlen. unfold results_step.
  intros ([[i c] cache1] & s1 & Hcand & (party & s2 & Hparty & Hret)%bind_Ok)%bind_Ok.
  assert (Hs1 : Result_objects s1 = Result_objects s).
  { revert Hcand. unfold cached_get_candidate.
    destruct (cache !! _); [by intros [= _ _ <-]|].
    unfold mbind, M_bind, lift, gets, mret, M_ret.
    destruct (get_candidate_fields _); [|done].
    destruct (objects_get _ _ _); [|done]. by intros [= _ _ <-]. }
  apply get_party_Ok in Hparty as [(_ & (_ & _ & _ & Hs2) & _) _].
  set (r := Build_Result _ _ _ _ _ _ _ _ _ _ _ _ _ _ _) in Hret.
  case_bool_decide as Hfull.
  - rewrite bind_insert_snoc in Hret.
    injection Hret as <- <- <- <-. simpl. rewrite Hs2, Hs1.
    rewrite !length_app in *. simpl in *.
    pose proof bufsiz_pos. split_and!; [lia|lia|right; lia|lia].
  - injection Hret as <- <- <- <-. rewrite Hs2, Hs1.
    rewrite !length_app in *. simpl in *. split_and!; [lia|lia|by left|lia].
Qed.

Lemma results_loop_buffer raws cache buf n (s s' : state) cache' buf' n' :
  (length buf < bufsiz)%nat →
  for_each raws results_step (cache, buf, n) s = Ok ((cache', buf', n'), s') →
  (length buf' < bufsiz)%nat
  ∧ (n' + length buf' = n + length buf + length raws)%nat
  ∧ (∃ k, n' = n + k * bufsiz)%nat
  ∧ (length (Result_objects s') + n = length (Result_objects s) + n')%nat.
Proof.
  revert cache buf n s. induction raws as [|irr raws IH]; intros cache buf n s Hlen.
  - intros [= <- <- <- <-]. split_and!; [done|simpl; lia|exists 0%nat; lia|lia].
  - intros ([[cache1 buf1] n1] & s1 & Hstep & Hrest)%for_each_cons.
    apply results_step_buffer in Hstep as (Hlen1 & Hsum1 & Hn1 & Hre1); [|done].
    apply IH in Hrest as (Hlen2 & Hsum2 & (k & Hk) & Hre2); [|done].
    split_and!; [done|simpl; lia| |lia].
    destruct Hn1 as [->| ->]; [by exists k|]. exists (S k). lia.
Qed.

(** X12: the loop of Pass 3 keeps fewer than [bufsiz] results in its
    buffer: after any list of raw results the count of results written is
    the largest multiple of [bufsiz] within the length of the list, the
    buffer holds the remainder, and the Result collection has grown by the
    count written. *)
Theorem results_buffer_bounded raws (s s' : state) cache buf m :
  results_loop raws s = Ok ((cache, buf, m), s') →
  (length buf < bufsiz)%nat
  ∧ m = (bufsiz * (length raws / bufsiz))%nat
  ∧ length buf = (length raws mod bufsiz)%nat
  ∧ length (Result_objects s') = (length (Result_objects s) + m)%nat.
Proof.
  pose proof bufsiz_pos as Hpos. unfold results_loop.
  intros (Hlen & Hsum & (k & Hk) & Hre)%results_loop_buffer; [|by simpl].
  simpl in Hsum, Hk.
  assert (Hq : k = (length raws / bufsiz)%nat).
  { apply (Nat.div_unique _ _ _ (length buf)); [done|]. lia. }
  assert (Hr : length buf = (length raws mod bufsiz)%nat).
  { apply (Nat.mod_unique _ _ k); [done|]. lia. }
  split_and!; [done| |done|lia]. subst k. lia.
Qed.

(** *** What a result takes from its raw result *)

Lemma results_step_copied cache buf n irr (s s' : state) cache' buf' n' :
  results_step (cache, buf, n) irr s = Ok ((cache', buf', n'), s') →
  ∃ r ins, result_copied irr r ∧ ins ++ buf' = buf ++ [r]
           ∧ Result_objects s' = Result_objects s ++ ins.
Proof.
  unfold results_step.
  intros ([[i c] cache1] & s1 & Hcand & (party & s2 & Hparty & Hret)%bind_Ok)%bind_Ok.
  assert (Hs1 : Result_objects s1 = Result_objects s).
  { revert Hcand. unfold cached_get_candidate.
    destruct (cache !! _); [by intros [= _ _ <-]|].
    unfold mbind, M_bind, lift, gets, mret, M_ret.
    destruct (get_candidate_fields _); [|done].
    destruct (objects_get _ _ _); [|done]. by intros [= _ _ <-]. }
  apply get_party_Ok in Hparty as [(_ & (_ & _ & _ & Hs2) & _) Hknown].
  set (r := Build_Result _ _ _ _ _ _ _ _ _ _ _ _ _ _ _) in Hret.
  assert (Hr : result_copied irr r).
  { unfold result_copied. split_and!; try done. simpl.
    destruct (party_abbrev_of (RawResult.party irr.2)) as [a|]; simpl in Hknown.
    - destruct Hknown as (p' & -> & _). done.
    - by subst party. }
  case_bool_decide as Hfull; rewrite ?bind_insert_snoc in Hret;
    injection Hret as <- <- <- <-.
  - exists r, (buf ++ [r]). split_and!; [done|by rewrite app_nil_r|].
    simpl. by rewrite Hs2, Hs1.
  - exists r, []. split_and!; [done|done|]. by rewrite app_nil_r, Hs2, Hs1.
Qed.

Lemma results_loop_copied raws cache buf n (s s' : state) cache' buf' n' :
  for_each raws results_step (cache, buf, n) s = Ok ((cache', buf', n'), s') →
  ∃ new ins, Forall2 result_copied raws new ∧ ins ++ buf' = buf ++ new
             ∧ Result_objects s' = Result_objects s ++ ins.
Proof.
  revert cache buf n s. induction raws as [|irr raws IH]; intros cache buf n s.
  - intros [= <- <- <- <-]. exists [], []. by rewrite !app_nil_r.
  - intros ([[cache1 buf1] n1] & s1 & Hstep & Hrest)%for_each_cons.
    apply results_step_copied in Hstep as (r & ins1 & Hr & Hbuf1 & Hre1).
    apply IH in Hrest as (new & ins2 & Hnew & Hbuf2 & Hre2).
    exists (r :: new), (ins1 ++ ins2). split_and!; [by constructor| |].
    + rewrite <- app_assoc, Hbuf2, app_assoc, Hbuf1, <- app_assoc. done.
    + by rewrite Hre2, Hre1, <- app_assoc.
Qed.

Lemma parse_winner_true (rr : RawResult.t) :
  _parse_winner rr = true
  ↔ RawResult.winner rr = PyStr "Y" ∨ RawResult.winner rr = PyInt 1.
Proof.
  unfold _parse_winner. destruct (RawResult.winner rr) as [|w|z|l].
  - split; [done|]. by intros [?|?].
  - rewrite bool_decide_eq_true. split; [intros ->; by left|].
    by intros [[= ->]|?].
  - rewrite bool_decide_eq_true. split; [intros ->; by right|].
    by intros [?|[= ->]].
  - split; [done|]. by intros [?|?].
Qed.

(** X20: each result that a completed Pass 3 creates refers to its raw
    result and takes its source, election id, state, reporting level and
    votes from it, its jurisdiction without the leading zeros, and the
    geographic id of [_get_ocd_id]; its winner flag is set exactly for the
    raw markers "Y" and 1; and it has no party exactly when the raw party is
    empty or "Both Parties". *)
Theorem result_fields_of_raw_result (s s' : state) (n : nat) :
  create_unique_results_after_2000 s = Ok (n, s') →
  ∃ created,
    Result_objects s' = kept_results s ++ created
    ∧ Forall2 (λ irr r,
                 result_raw_result r = irr.1
                 ∧ result_source r = RawResult.source irr.2
                 ∧ result_election_id r = RawResult.election_id irr.2
                 ∧ result_state r = RawResult.state irr.2
                 ∧ result_reporting_level r = RawResult.reporting_level irr.2
                 ∧ result_votes r = RawResult.votes irr.2
                 ∧ result_total_votes r = RawResult.total_votes irr.2
                 ∧ result_vote_breakdowns r = RawResult.vote_breakdowns irr.2
                 ∧ result_jurisdiction r
                   = _strip_leading_zeros (RawResult.jurisdiction irr.2)
                 ∧ result_ocd_id r = _get_ocd_id irr.2
                 ∧ (result_winner r = true
                    ↔ RawResult.winner irr.2 = PyStr "Y"
                      ∨ RawResult.winner irr.2 = PyInt 1)
                 ∧ (result_party r = None
                    ↔ RawResult.party irr.2 = ""
                      ∨ RawResult.party irr.2 = "Both Parties"))
        (raw_results_after_2000 s) created.
Proof.
  unfold create_unique_results_after_2000.
  intros (u & sd & Hdel & (raws & sd' & [= <- <-]
          & ([[cache buf] m] & sl & Hloop & Hret)%bind_Ok)%bind_Ok)%bind_Ok.
  rewrite delete_old_results_eq in Hdel. injection Hdel as _ <-.
  change (find_all after_2000 0 (RawResult_objects (after_delete s)))
    with (raw_results_after_2000 s) in Hloop.
  apply results_loop_copied in Hloop as (new & ins & Hnew & Hbuf & Hre).
  change (Result_objects (after_delete s)) with (kept_results s) in Hre.
  simpl in Hbuf. exists new. split.
  - revert Hret. case_bool_decide as Hflush.
    + intros (u' & s1 & Hins & Hret)%bind_Ok.
      rewrite Result_objects_insert_cons in Hins by by apply length_nonempty.
      injection Hins as _ <-. injection Hret as _ <-.
      simpl. by rewrite Hre, <- app_assoc, Hbuf.
    + intros [= _ <-]. destruct buf; [|done].
      rewrite app_nil_r in Hbuf. by rewrite Hre, Hbuf.
  - eapply Forall2_impl; [exact Hnew|].
    intros irr r (H1 & H2 & H3 & H4 & H5 & H6 & H7 & H8 & H9 & H10 & H11 & H12).
    split_and!; try done.
    + rewrite H10. apply parse_winner_true.
    + rewrite H12. apply party_abbrev_of_None.
Qed.

(** *** Exceptions *)

Lemma bind_Raise {A B} (m : M A) (f : A → M B) (s : state) (e : exn) :
  m s = Raise e → (m ≫= f) s = Raise e.
Proof. unfold mbind, M_bind. by intros ->. Qed.

Lemma bind_step {A B} (m : M A) (f : A → M B) (s s1 : state) (a : A) :
  m s = Ok (a, s1) → (m ≫= f) s = f a s1.
Proof. unfold mbind, M_bind. by intros ->. Qed.

Lemma objects_get_multiple {A} (missing : exn) (p : A → bool) (rows : list A)
    i j d d' :
  rows !! i = Some d → rows !! j = Some d' → i ≠ j →
  p d = true → p d' = true →
  objects_get missing p rows = Raise MultipleObjectsReturned.
Proof.
  intros Hi Hj Hne Hd Hd'.
  assert (Hin : (i, d) ∈ find_all p 0 rows) by (apply elem_of_find_all; by exists i).
  assert (Hin' : (j, d') ∈ find_all p 0 rows) by (apply elem_of_find_all; by exists j).
  unfold objects_get. destruct (find_all p 0 rows) as [|x [|y l]]; [|exfalso|done].
  - by apply elem_of_nil in Hin.
  - apply list_elem_of_singleton in Hin, Hin'. congruence.
Qed.

Lemma first_row_supported (s : state) irr rest :
  raw_results_after_2000 s = irr :: rest →
  ∃ fields, get_candidate_fields irr.2 = Ok fields.
Proof.
  intros Hraws.
  assert (Hin : irr ∈ raw_results_after_2000 s) by (rewrite Hraws; left).
  destruct irr as [i rr]. apply elem_of_find_all in Hin as (k & _ & _ & Hf).
  apply after_2000_year in Hf. unfold get_candidate_fields. simpl.
  case_bool_decide; [by eexists|].
  rewrite bool_decide_eq_true_2 by lia. by eexists.
Qed.

(** *** Pass 1 once more *)

Lemma contest_resolved_functional (s : state) rr fields fields' :
  contest_resolved s rr fields → contest_resolved s rr fields' → fields = fields'.
Proof.
  intros (o & p & -> & Ho & Hp) (o' & p' & -> & Ho' & Hp').
  assert (o = o') as -> by congruence.
  by assert (p = p') as -> by by eapply party_known_functional.
Qed.

Lemma contests_loop_completes raws contests seen (t : state) :
  Forall (λ irr, ∃ fields, contest_resolved t irr.2 fields)
    (firsts row_contest_key seen raws) →
  ∃ acc t', for_each raws contests_step (contests, seen) t = Ok (acc, t').
Proof.
  revert contests seen t.
  induction raws as [|irr raws IH]; intros contests seen t Hres.
  - by eexists _, _.
  - simpl in Hres. case_decide as Hseen.
    + destruct (IH contests seen t Hres) as (acc & t' & Hrest).
      exists acc, t'. apply for_each_cons. exists (contests, seen), t.
      split; [|done]. unfold contests_step.
      rewrite bool_decide_eq_false_2; [done|]. by intros []. 
    + apply Forall_cons in Hres as [[fields Hf] Hres].
      set (t1 := set_clock (S (clock t)) t).
      destruct (IH (contests ++ [stamp (now (clock t)) fields])
                  ({[row_contest_key irr]} ∪ seen) t1) as (acc & t' & Hrest).
      { eapply Forall_impl; [exact Hres|]. intros irr' [f Hf']. by exists f. }
      exists acc, t'. apply for_each_cons. eexists _, t1.
      split; [|exact Hrest]. unfold contests_step.
      rewrite bool_decide_eq_true_2 by done.
      rewrite (bind_step _ _ t t fields) by by apply get_contest_fields_hit.
      done.
Qed.

Lemma create_unique_contests_again (s s1 : state) (n : nat) :
  create_unique_contests_after_2000 s = Ok (n, s1) →
  ∃ s2, create_unique_contests_after_2000 s1 = Ok (n, s2).
Proof.
  intros Hfirst. pose proof Hfirst
    as (_ & Hraw & _ & _ & created & _ & -> & Hbuilt)%create_unique_contests_Ok.
  unfold create_unique_contests_after_2000 in Hfirst.
  apply bind_Ok in Hfirst as (raws0 & s0 & _
          & ([contests0 seen0] & sa & _ & (u & sb & Hins & Hret)%bind_Ok)%bind_Ok).
  injection Hret as Hlen0 _.
  assert (Hraws : raw_results_after_2000 s1 = raw_results_after_2000 s)
    by (unfold raw_results_after_2000; by rewrite Hraw).
  destruct (contests_loop_completes (raw_results_after_2000 s1) [] ∅ s1)
    as ([contests seen] & t & Hloop).
  { rewrite Hraws. apply Forall_forall. intros irr Hin.
    apply list_elem_of_lookup in Hin as [j Hj].
    destruct (Forall2_lookup_l _ _ _ _ _ Hbuilt Hj) as (c & _ & f & _ & Hf & _).
    by exists f. }
  assert (Hlen : length contests = length created).
  { pose proof Hloop as (_ & _ & new & -> & Hnew)%contests_loop_Ok.
    rewrite Hraws in Hnew. apply Forall2_length in Hnew.
    apply Forall2_length in Hbuilt. simpl. congruence. }
  assert (Hrun : create_unique_contests_after_2000 s1
                 = Ok (length contests,
                       set_Contest_objects (Contest_objects t ++ contests) t)).
  { unfold create_unique_contests_after_2000.
    rewrite (bind_step _ _ s1 s1 (raw_results_after_2000 s1)) by done.
    rewrite (bind_step _ _ s1 t (contests, seen)) by done.
    apply bind_Ok. eexists tt, _. split; [|done].
    eapply Contest_objects_insert_length; [|exact Hins]. congruence. }
  pose proof Hrun
    as (_ & _ & _ & _ & created' & _ & Hn & Hbuilt')%create_unique_contests_Ok.
  rewrite Hraws in Hbuilt'.
  apply Forall2_length in Hbuilt, Hbuilt'.
  eexists. rewrite Hrun. do 2 f_equal. lia.
Qed.

(** X13: Pass 1 does not replace what an earlier run has created: run
    again on the state that a completed Pass 1 leaves, it completes with the
    same count and appends as many contests once more, each with the fields
    of the contest created before and a time stamp of its own. *)
Theorem contests_duplicated_on_rerun (s s1 : state) (n : nat) :
  create_unique_contests_after_2000 s = Ok (n, s1) →
  ∃ s2 created created',
    create_unique_contests_after_2000 s1 = Ok (n, s2)
    ∧ Contest_objects s1 = Contest_objects s ++ created
    ∧ Contest_objects s2 = Contest_objects s1 ++ created'
    ∧ length created = n ∧ length created' = n
    ∧ Forall2 (λ c c', ∃ fields t t', c = stamp t fields ∧ c' = stamp t' fields)
        created created'.
Proof.
  intros Hrun. destruct (create_unique_contests_again _ _ _ Hrun) as [s2 Hrun'].
  apply create_unique_contests_Ok in Hrun
    as (_ & Hraw & _ & _ & created & Hc & -> & Hbuilt).
  pose proof Hrun'
    as (Hle & _ & _ & _ & created' & Hc' & Hn & Hbuilt')%create_unique_contests_Ok.
  assert (Hraws : raw_results_after_2000 s1 = raw_results_after_2000 s)
    by (unfold raw_results_after_2000; by rewrite Hraw).
  rewrite Hraws in Hbuilt'.
  exists s2, created, created'. split_and!; [done..|].
  apply Forall2_same_length_lookup. split; [done|].
  intros j c c' Hj Hj'.
  destruct (Forall2_lookup_r _ _ _ _ _ Hbuilt Hj) as (irr & Hirr & f & t & Hf & ->).
  destruct (Forall2_lookup_r _ _ _ _ _ Hbuilt' Hj') as (irr' & Hirr' & f' & t' & Hf' & ->).
  assert (irr' = irr) as -> by congruence.
  exists f, t, t'. split; [done|]. f_equal.
  eapply contest_resolved_functional; [exact Hf'|].
  by eapply contest_resolved_weaken.
Qed.

(** X14: after Pass 1 has completed twice, Pass 2 cannot complete on a
    stream that is not empty: the lookup of the contest of the first raw
    result finds the contest of either run and raises
    MultipleObjectsReturned. *)
Theorem candidates_fail_after_rerun (s s1 s2 : state) (n n' : nat) :
  create_unique_contests_after_2000 s = Ok (n, s1) →
  create_unique_contests_after_2000 s1 = Ok (n', s2) →
  raw_results_after_2000 s ≠ [] →
  create_unique_candidates_after_2000 s2 = Raise MultipleObjectsReturned.
Proof.
  intros (_ & Hraw1 & _ & _ & created & Hc1 & _ & Hbuilt1)%create_unique_contests_Ok
         (Hle & Hraw2 & _ & _ & created' & Hc2 & _ & Hbuilt2)%create_unique_contests_Ok
         Hne.
  assert (Hraws1 : raw_results_after_2000 s1 = raw_results_after_2000 s)
    by (unfold raw_results_after_2000; by rewrite Hraw1).
  assert (Hraws2 : raw_results_after_2000 s2 = raw_results_after_2000 s)
    by (unfold raw_results_after_2000; by rewrite Hraw2, Hraw1).
  rewrite Hraws1 in Hbuilt2.
  destruct (raw_results_after_2000 s) as [|irr rest] eqn:Hraws; [done|].
  destruct (first_row_supported s irr rest Hraws) as [cfields Hcf].
  simpl in Hbuilt1, Hbuilt2. rewrite decide_False in Hbuilt1, Hbuilt2 by set_solver.
  apply Forall2_cons_inv_l in Hbuilt1 as (c & created0 & (f & t & Hf & ->) & _ & ->).
  apply Forall2_cons_inv_l in Hbuilt2 as (c' & created0' & (f' & t' & Hf' & ->) & _ & ->).
  assert (f = f') as <-.
  { eapply contest_resolved_functional; [|exact Hf'].
    by eapply contest_resolved_weaken. }
  unfold create_unique_candidates_after_2000.
  rewrite (bind_step _ _ s2 s2 (irr :: rest))
    by (unfold get_raw_results_after_2000, mbind, M_bind, gets, mret, M_ret;
        fold (raw_results_after_2000 s2); by rewrite Hraws2).
  apply bind_Raise. apply bind_Raise.
  unfold candidates_step. rewrite bool_decide_eq_true_2 by set_solver.
  rewrite (bind_step _ _ s2 s2 cfields) by (unfold lift; by rewrite Hcf).
  apply bind_Raise. unfold cached_get_contest. rewrite lookup_empty.
  rewrite (bind_step _ _ s2 s2 f) by by apply get_contest_fields_hit.
  rewrite (bind_step _ _ s2 s2 (Contest_objects s2)) by done.
  apply bind_Raise. unfold lift.
  rewrite (objects_get_multiple _ _ _ (length (Contest_objects s))
             (length (Contest_objects s1)) (stamp t f) (stamp t' f)); [done|..].
  - rewrite Hc2, Hc1, <- app_assoc. by apply list_lookup_middle.
  - rewrite Hc2. by apply list_lookup_middle.
  - rewrite Hc1, length_app. simpl. lia.
  - by eapply contest_query_matches.
  - by eapply contest_query_matches.
Qed.

(** *** The order of the passes *)

(** X15: on a stream that is not empty, Pass 2 cannot complete while the
    Contest collection is empty, and Pass 3 raises Candidate.DoesNotExist
    while the Candidate collection is empty. *)
Theorem passes_need_their_predecessor (s : state) :
  raw_results_after_2000 s ≠ [] →
  (Contest_objects s = [] →
   ∀ n s', create_unique_candidates_after_2000 s ≠ Ok (n, s'))
  ∧ (Candidate_objects s = [] →
     create_unique_results_after_2000 s = Raise Candidate_DoesNotExist).
Proof.
  intros Hne. destruct (raw_results_after_2000 s) as [|irr rest] eqn:Hraws; [done|].
  split.
  - intros Hempty n s'
      (_ & _ & _ & _ & cands & _ & _ & Hbuilt)%create_unique_candidates_Ok.
    rewrite Hraws in Hbuilt. simpl in Hbuilt.
    rewrite decide_False in Hbuilt by set_solver.
    apply Forall2_cons_inv_l in Hbuilt as (c & ? & (f & i & d & _ & Hi & _) & _).
    by rewrite Hempty in Hi.
  - intros Hempty. destruct (first_row_supported s irr rest Hraws) as [cfields Hcf].
    unfold create_unique_results_after_2000.
    rewrite (bind_step _ _ s (after_delete s) tt) by apply delete_old_results_eq.
    rewrite (bind_step _ _ (after_delete s) (after_delete s) (irr :: rest))
      by (unfold get_raw_results_after_2000, mbind, M_bind, gets, mret, M_ret;
          change (find_all after_2000 0 (RawResult_objects (after_delete s)))
            with (raw_results_after_2000 s); by rewrite Hraws).
    apply bind_Raise. unfold results_loop. apply bind_Raise.
    unfold results_step. apply bind_Raise.
    unfold cached_get_candidate. rewrite lookup_empty.
    rewrite (bind_step _ _ _ (after_delete s) cfields) by (unfold lift; by rewrite Hcf).
    rewrite (bind_step _ _ _ (after_delete s) []) by (unfold gets; simpl; by rewrite Hempty).
    by apply bind_Raise.
Qed.

End Passes.

(** ** The passes on the sample data *)

Lemma legacy_candidate_fields_witness :
  year (RawResult.end_date Sample.ann_q_lee_2002) = 2002%Z
  ∧ ∃ fields,
      get_candidate_fields Sample.ann_q_lee_2002 = Ok fields
      ∧ candidate_full_name fields = "Ann Q Lee".
Proof.
  split; [reflexivity|].
  destruct (legacy_candidate_fields Sample.ann_q_lee_2002 eq_refl) as (fields & H & Hn).
  exists fields. split; [exact H|exact Hn].
Defined.

Lemma consistent_stream :
  raw_results_after_2000 Sample.consistent
  = [(0, Sample.ann_lee); (1, Sample.bob_roe); (2, Sample.cat_doe)]%nat.
Proof. reflexivity. Qed.

Lemma consistent_pass1 :
  create_unique_contests_after_2000 Sample.consistent = Ok (2%nat, Sample.consistent_1).
Proof. vm_compute. reflexivity. Qed.

Lemma consistent_pass2 :
  create_unique_candidates_after_2000 Sample.consistent_1
  = Ok (3%nat, Sample.consistent_2).
Proof. vm_compute. reflexivity. Qed.

Lemma consistent_pass3 :
  create_unique_results_after_2000 Sample.consistent_2
  = Ok (3%nat, Sample.consistent_3).
Proof. vm_compute. reflexivity. Qed.

Ltac stream_cases H :=
  repeat (apply elem_of_cons in H as [->|H]); [..|by apply elem_of_nil in H].

Lemma consistent_signature (irr irr' : nat * RawResult.t) :
  irr ∈ raw_results_after_2000 Sample.consistent →
  irr' ∈ raw_results_after_2000 Sample.consistent →
  contest_key irr.2 = contest_key irr'.2 →
  contest_signature irr.2 = contest_signature irr'.2.
Proof.
  rewrite consistent_stream. intros H H'. stream_cases H; stream_cases H';
    first [ by intros _; vm_compute | intros Hk; vm_compute in Hk; discriminate Hk ].
Qed.

Lemma consistent_cache_key (irr irr' : nat * RawResult.t) :
  irr ∈ raw_results_after_2000 Sample.consistent →
  irr' ∈ raw_results_after_2000 Sample.consistent →
  contest_cache_key irr.2 = contest_cache_key irr'.2 →
  contest_key irr.2 = contest_key irr'.2.
Proof.
  rewrite consistent_stream. intros H H'. stream_cases H; stream_cases H';
    first [ by intros _; vm_compute | intros Hk; vm_compute in Hk; discriminate Hk ].
Qed.

Lemma one_contest_per_key_witness :
  create_unique_contests_after_2000 Sample.consistent = Ok (2%nat, Sample.consistent_1)
  ∧ ∃ srcs created,
      Contest_objects Sample.consistent_1 = Contest_objects Sample.consistent ++ created
      ∧ 2%nat = length created
      ∧ NoDup (row_contest_key <$> srcs)
      ∧ ∀ irr, irr ∈ raw_results_after_2000 Sample.consistent →
               row_contest_key irr ∈ row_contest_key <$> srcs.
Proof.
  split; [exact consistent_pass1|].
  destruct (one_contest_per_key _ _ _ consistent_pass1)
    as (srcs & created & Hc & Hn & _ & Hnodup & Hcover & _).
  exists srcs, created. split_and!; assumption.
Defined.

(** C2 as stated fails: the rows of Ann Lee and Bob Roe bear the same
    contest key, for which Pass 1 creates contest 0 from the row of Ann Lee,
    but the result type of Bob Roe's row is that of Cat Doe's contest, and
    Pass 2 attaches Bob Roe to contest 1. *)
Lemma candidate_attached_to_other_contest :
  create_unique_contests_after_2000 Sample.inconsistent
  = Ok (2%nat, Sample.inconsistent_1)
  ∧ create_unique_candidates_after_2000 Sample.inconsistent_1
    = Ok (3%nat, Sample.inconsistent_2)
  ∧ firsts row_contest_key ∅ (raw_results_after_2000 Sample.inconsistent)
    = [(0%nat, Sample.ann_lee); (2%nat, Sample.cat_doe)]
  ∧ contest_key Sample.bob_roe_unofficial = contest_key Sample.ann_lee
  ∧ firsts row_candidate_key ∅ (raw_results_after_2000 Sample.inconsistent) !! 1%nat
    = Some (1%nat, Sample.bob_roe_unofficial)
  ∧ candidate_contest <$> Candidate_objects Sample.inconsistent_2 !! 1%nat
    = Some (Some 1%nat).
Proof. split_and!; vm_compute; reflexivity. Qed.

(** The per-run cache alone can mislead the lookup: the rows of Dan Poe
    and Eve Ray belong to different elections, hence to the contests 0 and
    1 of Pass 1, but share the cache string, and Pass 2 attaches both to
    contest 0. *)
Example cache_string_collision :
  create_unique_contests_after_2000 Sample.colliding = Ok (2%nat, Sample.colliding_1)
  ∧ create_unique_candidates_after_2000 Sample.colliding_1
    = Ok (2%nat, Sample.colliding_2)
  ∧ contest_cache_key Sample.dan_poe = contest_cache_key Sample.eve_ray
  ∧ firsts row_contest_key ∅ (raw_results_after_2000 Sample.colliding)
    = [(0%nat, Sample.dan_poe); (1%nat, Sample.eve_ray)]
  ∧ candidate_contest <$> Candidate_objects Sample.colliding_2
    = [Some 0%nat; Some 0%nat].
Proof. split_and!; vm_compute; reflexivity. Qed.

Lemma candidate_contest_is_pass1_contest_witness :
  create_unique_contests_after_2000 Sample.consistent = Ok (2%nat, Sample.consistent_1)
  ∧ create_unique_candidates_after_2000 Sample.consistent_1
    = Ok (3%nat, Sample.consistent_2)
  ∧ ∃ candidates,
      Candidate_objects Sample.consistent_2
      = Candidate_objects Sample.consistent_1 ++ candidates
      ∧ Forall2 (λ irr candidate,
                   ∃ i, candidate_contest candidate = Some i
                        ∧ contest_row_of 0
                            (firsts row_contest_key ∅
                               (raw_results_after_2000 Sample.consistent))
                            irr i)
          (firsts row_candidate_key ∅ (raw_results_after_2000 Sample.consistent))
          candidates.
Proof.
  split; [exact consistent_pass1|]. split; [exact consistent_pass2|].
  destruct (candidate_contest_is_pass1_contest _ _ _ _ _
              consistent_pass1 consistent_pass2
              consistent_signature consistent_cache_key)
    as (created & candidates & _ & _ & Hc & _ & Hrows).
  exists candidates. split; assumption.
Defined.

(** C4 as stated fails: the 2002 write-in row has the marker "N" and the
    sentinel family name; its result has the write-in flag, though the
    candidate resolved for it has no family name. *)
Lemma write_in_flag_without_candidate_family_name :
  run registered Sample.legacy = Ok ([1; 2; 2]%nat, Sample.legacy_3)
  ∧ RawResult.write_in Sample.write_ins_2002 = "N"
  ∧ result_raw_result <$> Result_objects Sample.legacy_3 !! 0%nat = Some 0%nat
  ∧ result_write_in <$> Result_objects Sample.legacy_3 !! 0%nat = Some true
  ∧ result_candidate <$> Result_objects Sample.legacy_3 !! 0%nat = Some 0%nat
  ∧ candidate_family_name <$> Candidate_objects Sample.legacy_3 !! 0%nat = Some None.
Proof. split_and!; vm_compute; reflexivity. Qed.

Lemma write_in_flag_of_raw_result_witness :
  create_unique_results_after_2000 Sample.consistent_2 = Ok (3%nat, Sample.consistent_3)
  ∧ ∃ created,
      Result_objects Sample.consistent_3 = kept_results Sample.consistent_2 ++ created
      ∧ Forall2 (λ irr r,
                   result_raw_result r = irr.1
                   ∧ (result_write_in r = true
                      ↔ RawResult.write_in irr.2 = "Y"
                        ∨ RawResult.family_name irr.2 = "zz998"))
          (raw_results_after_2000 Sample.consistent_2) created.
Proof.
  split; [exact consistent_pass3|].
  exact (write_in_flag_of_raw_result _ _ _ consistent_pass3).
Defined.

Lemma result_contest_is_candidate_contest_witness :
  create_unique_results_after_2000 Sample.consistent_2 = Ok (3%nat, Sample.consistent_3)
  ∧ ∃ created,
      Result_objects Sample.consistent_3 = kept_results Sample.consistent_2 ++ created
      ∧ Forall2 (result_of_resolved (Candidate_objects Sample.consistent_3)
                   (raw_results_after_2000 Sample.consistent_2))
          (raw_results_after_2000 Sample.consistent_2) created.
Proof.
  split; [exact consistent_pass3|].
  exact (proj1 (result_contest_is_candidate_contest _ _ _ consistent_pass3)).
Defined.

Lemma results_replaced_on_rerun_witness :
  create_unique_results_after_2000 Sample.consistent_2 = Ok (3%nat, Sample.consistent_3)
  ∧ length (Result_objects Sample.consistent_3) = 3%nat
  ∧ create_unique_results_after_2000 Sample.consistent_3
    = Ok (3%nat, Sample.consistent_3).
Proof.
  split; [exact consistent_pass3|].
  destruct (results_replaced_on_rerun _ _ _ consistent_pass3)
    as (created & _ & _ & _ & _ & _ & Hagain & _).
  split; [reflexivity|exact Hagain].
Defined.

(** ** Further runs on the sample data *)

Lemma raw_results_filtered_witness :
  valid_datetime (RawResult.end_date Sample.ann_lee)
  ∧ (0%nat, Sample.ann_lee) ∈ raw_results_after_2000 Sample.consistent.
Proof.
  assert (Hv : valid_datetime (RawResult.end_date Sample.ann_lee))
    by (unfold valid_datetime; simpl; lia).
  split; [exact Hv|].
  apply (proj2 (raw_results_filtered Sample.consistent 0 Sample.ann_lee Hv)).
  split_and!; [reflexivity|reflexivity|simpl; lia].
Defined.

Lemma office_run_Ok :
  Sample2.office_run
  = Ok (OfficeQuery "US" "President" None,
        Sample.final Sample.consistent Sample2.office_run).
Proof. vm_compute. reflexivity. Qed.

Lemma get_office_memoized_witness :
  _get_office Sample.ann_lee Sample.consistent
  = Ok (OfficeQuery "US" "President" None,
        Sample.final Sample.consistent Sample2.office_run)
  ∧ _get_office Sample.bob_roe (Sample.final Sample.consistent Sample2.office_run)
    = Ok (OfficeQuery "US" "President" None,
          Sample.final Sample.consistent Sample2.office_run).
Proof.
  split; [exact office_run_Ok|].
  destruct (get_office_memoized _ _ _ _ office_run_Ok) as (_ & _ & Hmemo).
  apply Hmemo; [reflexivity|reflexivity].
Defined.

Lemma sparse_office_missing :
  @_get_office office_query string string _ _ Sample2.sparse
    Sample.ann_lee Sample.consistent
  = Raise Office_DoesNotExist.
Proof. reflexivity. Qed.

Lemma get_office_raises_witness :
  @_get_office office_query string string _ _ Sample2.sparse
    Sample.ann_lee Sample.consistent
  = Raise Office_DoesNotExist
  ∧ office_cache Sample.consistent
      !! Sample.make_key (office_query_of Sample.ann_lee) = None.
Proof.
  split; [exact sparse_office_missing|].
  exact (proj1 (@get_office_raises office_query string string _ _ Sample2.sparse
                  _ _ _ sparse_office_missing)).
Defined.

Lemma party_run_Ok :
  Sample2.party_run
  = Ok (Some "DEM", Sample.final Sample.consistent Sample2.party_run).
Proof. vm_compute. reflexivity. Qed.

Lemma get_party_memoized_witness :
  _get_party Sample.ann_lee RawResult.party Sample.consistent
  = Ok (Some "DEM", Sample.final Sample.consistent Sample2.party_run)
  ∧ _get_party Sample.cat_doe RawResult.party
      (Sample.final Sample.consistent Sample2.party_run)
    = Ok (Some "DEM", Sample.final Sample.consistent Sample2.party_run).
Proof.
  split; [exact party_run_Ok|].
  destruct (get_party_memoized _ _ _ _ _ party_run_Ok) as (_ & _ & _ & Hmemo).
  apply Hmemo; [reflexivity|reflexivity].
Defined.

Lemma one_candidate_per_key_witness :
  create_unique_candidates_after_2000 Sample.consistent_1
  = Ok (3%nat, Sample.consistent_2)
  ∧ ∃ srcs candidates,
      Candidate_objects Sample.consistent_2
      = Candidate_objects Sample.consistent_1 ++ candidates
      ∧ 3%nat = length candidates
      ∧ NoDup (row_candidate_key <$> srcs).
Proof.
  split; [exact consistent_pass2|].
  destruct (one_candidate_per_key _ _ _ consistent_pass2)
    as (srcs & candidates & Hc & Hn & _ & Hnodup & _).
  exists srcs, candidates. split_and!; assumption.
Defined.

Lemma legacy_pass2 :
  create_unique_candidates_after_2000
    (Sample.final Sample.legacy (create_unique_contests_after_2000 Sample.legacy))
  = Ok (2%nat,
        Sample.final Sample.legacy
          (create_unique_candidates_after_2000
             (Sample.final Sample.legacy
                (create_unique_contests_after_2000 Sample.legacy)))).
Proof. vm_compute. reflexivity. Qed.

Lemma aggregate_flag_of_write_ins_witness :
  create_unique_candidates_after_2000
    (Sample.final Sample.legacy (create_unique_contests_after_2000 Sample.legacy))
  = Ok (2%nat,
        Sample.final Sample.legacy
          (create_unique_candidates_after_2000
             (Sample.final Sample.legacy
                (create_unique_contests_after_2000 Sample.legacy))))
  ∧ ∃ candidates,
      Forall (λ candidate,
                candidate_flags candidate
                = if decide (candidate_full_name candidate = "Other Write-Ins")
                  then Some ["aggregate"] else None) candidates
      ∧ length candidates = 2%nat.
Proof.
  split; [exact legacy_pass2|].
  destruct (aggregate_flag_of_write_ins _ _ _ legacy_pass2) as (candidates & Hc & Hf).
  exists candidates. split; [exact Hf|].
  vm_compute in Hc. by rewrite <- Hc.
Defined.

Lemma candidate_query_finds_created_witness :
  create_unique_candidates_after_2000 Sample.consistent_1
  = Ok (3%nat, Sample.consistent_2)
  ∧ Forall (λ irr,
              ∃ fields j candidate,
                get_candidate_fields irr.2 = Ok fields
                ∧ Candidate_objects Sample.consistent_2 !! j = Some candidate
                ∧ Candidate_matches fields candidate = true)
      (firsts row_candidate_key ∅ (raw_results_after_2000 Sample.consistent_1)).
Proof.
  split; [exact consistent_pass2|].
  eapply Forall_impl; [exact (candidate_query_finds_created _ _ _ consistent_pass2)|].
  intros irr (fields & j & candidate & ? & ? & ? & _).
  exists fields, j, candidate. split_and!; assumption.
Defined.

Lemma many_loop_Ok :
  results_loop (raw_results_after_2000 Sample2.many_2) Sample2.many_2
  = Ok ((Sample2.many_cache, Sample2.many_buffer, Sample2.many_written),
        Sample.final Sample2.many_2 Sample2.many_loop).
Proof. vm_compute. reflexivity. Qed.

(** A thousand and two rows: a thousand results are written at once and
    two stay in the buffer. *)
Example many_loop_flushes_once :
  length (raw_results_after_2000 Sample2.many_2) = 1002%nat
  ∧ Sample2.many_written = 1000%nat
  ∧ length Sample2.many_buffer = 2%nat.
Proof. split_and!; vm_compute; reflexivity. Qed.

Lemma results_buffer_bounded_witness :
  results_loop (raw_results_after_2000 Sample2.many_2) Sample2.many_2
  = Ok ((Sample2.many_cache, Sample2.many_buffer, Sample2.many_written),
        Sample.final Sample2.many_2 Sample2.many_loop)
  ∧ (length Sample2.many_buffer < bufsiz)%nat
  ∧ Sample2.many_written
    = (bufsiz * (length (raw_results_after_2000 Sample2.many_2) / bufsiz))%nat.
Proof.
  split; [exact many_loop_Ok|].
  destruct (results_buffer_bounded _ _ _ _ _ _ many_loop_Ok) as (Hb & Hm & _).
  split; assumption.
Defined.

Lemma contests_duplicated_on_rerun_witness :
  create_unique_contests_after_2000 Sample.consistent = Ok (2%nat, Sample.consistent_1)
  ∧ ∃ s2, create_unique_contests_after_2000 Sample.consistent_1 = Ok (2%nat, s2)
          ∧ length (Contest_objects s2) = 4%nat.
Proof.
  split; [exact consistent_pass1|].
  destruct (contests_duplicated_on_rerun _ _ _ consistent_pass1)
    as (s2 & created & created' & Hrun & Hc1 & Hc2 & Hl & Hl' & _).
  exists s2. split; [exact Hrun|].
  rewrite Hc2, Hc1, !length_app, Hl, Hl'. reflexivity.
Defined.

Lemma consistent_pass1_twice :
  create_unique_contests_after_2000 Sample.consistent_1
  = Ok (2%nat, Sample2.consistent_twice).
Proof. vm_compute. reflexivity. Qed.

Lemma consistent_not_empty : raw_results_after_2000 Sample.consistent ≠ [].
Proof. by rewrite consistent_stream. Qed.

Lemma candidates_fail_after_rerun_witness :
  create_unique_contests_after_2000 Sample.consistent = Ok (2%nat, Sample.consistent_1)
  ∧ create_unique_contests_after_2000 Sample.consistent_1
    = Ok (2%nat, Sample2.consistent_twice)
  ∧ create_unique_candidates_after_2000 Sample2.consistent_twice
    = Raise MultipleObjectsReturned.
Proof.
  split; [exact consistent_pass1|]. split; [exact consistent_pass1_twice|].
  exact (candidates_fail_after_rerun _ _ _ _ _
           consistent_pass1 consistent_pass1_twice consistent_not_empty).
Defined.

Lemma passes_need_their_predecessor_witness :
  Contest_objects Sample.consistent = []
  ∧ Candidate_objects Sample.consistent = []
  ∧ create_unique_results_after_2000 Sample.consistent = Raise Candidate_DoesNotExist.
Proof.
  split; [reflexivity|]. split; [reflexivity|].
  exact (proj2 (passes_need_their_predecessor _ consistent_not_empty) eq_refl).
Defined.

Lemma empty_stream_unguarded_insert_witness :
  raw_results_after_2000 Sample2.old_only = []
  ∧ create_unique_results_after_2000 Sample2.old_only
    = Ok (0%nat, Sample2.old_only)
  ∧ create_unique_contests_after_2000 Sample2.old_only = Raise InvalidOperation
  ∧ create_unique_candidates_after_2000 Sample2.old_only = Raise InvalidOperation
  ∧ run registered Sample2.old_only = Raise InvalidOperation.
Proof.
  split; [reflexivity|].
  exact (empty_stream_unguarded_insert Sample2.old_only eq_refl).
Defined.

Lemma contest_run_Ok :
  cached_get_contest Sample.ann_lee ∅ Sample.consistent_1
  = Ok (((0%nat, Sample2.ann_contest),
         {[contest_cache_key Sample.ann_lee := (0%nat, Sample2.ann_contest)]}),
        Sample.final Sample.consistent_1 Sample2.contest_run).
Proof. vm_compute. reflexivity. Qed.

Lemma contest_cache_memoizes_witness :
  cached_get_contest Sample.ann_lee ∅ Sample.consistent_1
  = Ok (((0%nat, Sample2.ann_contest),
         {[contest_cache_key Sample.ann_lee := (0%nat, Sample2.ann_contest)]}),
        Sample.final Sample.consistent_1 Sample2.contest_run)
  ∧ cached_get_contest Sample.ann_lee
      {[contest_cache_key Sample.ann_lee := (0%nat, Sample2.ann_contest)]}
      Sample.consistent
    = Ok (((0%nat, Sample2.ann_contest),
           {[contest_cache_key Sample.ann_lee := (0%nat, Sample2.ann_contest)]}),
          Sample.consistent).
Proof.
  split; [exact contest_run_Ok|].
  destruct (contest_cache_memoizes _ _ _ _ _ _ contest_run_Ok) as (_ & _ & Hmemo).
  by apply Hmemo.
Defined.

Lemma candidate_run_Ok :
  cached_get_candidate Sample.ann_lee ∅ Sample.consistent_2
  = Ok (((0%nat, Sample2.ann_candidate),
         {[candidate_cache_key Sample.ann_lee := (0%nat, Sample2.ann_candidate)]}),
        Sample.consistent_2).
Proof. vm_compute. reflexivity. Qed.

Lemma candidate_cache_memoizes_witness :
  cached_get_candidate Sample.ann_lee ∅ Sample.consistent_2
  = Ok (((0%nat, Sample2.ann_candidate),
         {[candidate_cache_key Sample.ann_lee := (0%nat, Sample2.ann_candidate)]}),
        Sample.consistent_2)
  ∧ cached_get_candidate Sample.ann_lee
      {[candidate_cache_key Sample.ann_lee := (0%nat, Sample2.ann_candidate)]}
      Sample.consistent
    = Ok (((0%nat, Sample2.ann_candidate),
           {[candidate_cache_key Sample.ann_lee := (0%nat, Sample2.ann_candidate)]}),
          Sample.consistent).
Proof.
  split; [exact candidate_run_Ok|].
  destruct (candidate_cache_memoizes _ _ _ _ _ _ _ candidate_run_Ok)
    as (_ & _ & _ & _ & Hmemo).
  by apply Hmemo.
Defined.

Lemma result_fields_of_raw_result_witness :
  create_unique_results_after_2000 Sample.consistent_2 = Ok (3%nat, Sample.consistent_3)
  ∧ ∃ created,
      Result_objects Sample.consistent_3 = kept_results Sample.consistent_2 ++ created
      ∧ Forall2 (λ irr r,
                   result_raw_result r = irr.1
                   ∧ result_jurisdiction r
                     = _strip_leading_zeros (RawResult.jurisdiction irr.2))
          (raw_results_after_2000 Sample.consistent_2) created.
Proof.
  split; [exact consistent_pass3|].
  destruct (result_fields_of_raw_result _ _ _ consistent_pass3) as (created & Hc & Hf).
  exists created. split; [exact Hc|].
  eapply Forall2_impl; [exact Hf|]. intros irr r H. split; apply H.
Defined.
